(** * Lung detection module: a shallow embedding of the analysis pipeline

  The development follows the Python sources module by module:
  [utils.py], [image_processor.py], [covid_loader.py],
  [covid_analyzer.py] and [main.py].

  - Python exceptions become values of [exn]; a computation that may
    raise returns a [result].
  - Code that prints, logs or appends to [self.results] runs in the
    monad [M], which threads the session state and keeps it when an
    exception is raised (a Python [try]/[except] does not roll back).
  - OpenCV, matplotlib and the file system are external: their entry
    points are the fields of the class [Platform].
  - Where a size in pixels is computed, a float is truncated after a
    division and a product, and the rounding of the two decides the result:
    there floats are IEEE 754 doubles, with the operations of the Standard
    Library's [SpecFloat] (module [Float]).  Elsewhere (areas, perimeters,
    averages, normalised samples) floats are idealised as exact rationals
    ([Q]); [np_pi] is the exact value of the double [np.pi]. *)

From Stdlib Require Import String Ascii Bool Arith ZArith QArith Qround Qpower.
From Stdlib Require Import Lia Lqa SpecFloat List.
Import ListNotations.

Local Open Scope Z_scope.

(** ** Python runtime *)

Module Py.

(** The exception classes that the sources can meet.  [InvalidImageError]
    is the class named by the specification's error taxonomy; no module of
    the program defines or raises it. *)
Inductive exn : Type :=
| ValueError (msg : string)
| NameError (name : string)
| TypeError
| ZeroDivisionError
| OverflowError
| OSError
| Cv2Error
| PlotError
| InvalidImageError.

Inductive result (A : Type) : Type :=
| Ok (a : A)
| Raise (e : exn).
Arguments Ok {A} a.
Arguments Raise {A} e.

Definition rbind {A B} (r : result A) (k : A -> result B) : result B :=
  match r with
  | Ok a => k a
  | Raise e => Raise e
  end.

(** An OpenCV entry point either returns or raises [cv2.error]. *)
Definition of_cv2 {A} (o : option A) : result A :=
  match o with
  | Some a => Ok a
  | None => Raise Cv2Error
  end.

(** A call into the operating system either returns or raises [OSError]. *)
Definition of_os {A} (o : option A) : result A :=
  match o with
  | Some a => Ok a
  | None => Raise OSError
  end.

(** [a / b] on floats. *)
Definition truediv (a b : Q) : result Q :=
  if Qeq_bool b 0 then Raise ZeroDivisionError else Ok (a / b)%Q.

(** [int(q)]: truncation toward zero. *)
Definition int (q : Q) : Z := Z.quot (Qnum q) (Zpos (Qden q)).

(** Truthiness of an optional integer argument: [None] and [0] are falsy. *)
Definition truthy (o : option Z) : bool :=
  match o with
  | None => false
  | Some n => negb (n =? 0)
  end.

(** [l[:n]]. *)
Definition slice_to {A} (l : list A) (n : Z) : list A :=
  if 0 <=? n then firstn (Z.to_nat n) l
  else firstn (Z.to_nat (Z.of_nat (List.length l) + n)) l.

(** [len(l)] as a Python integer. *)
Definition len {A} (l : list A) : Z := Z.of_nat (List.length l).

(** The double nearest to pi, as an exact rational. *)
Definition np_pi : Q := 884279719003555 # 281474976710656.

(** [sum(l)] for a list of integers. *)
Definition sum (l : list Z) : Z := fold_right Z.add 0 l.

End Py.
Import Py.

Notation "x <-r m ;; k" := (rbind m (fun x => k))
(at level 61, m at next level, right associativity).

(** ** Doubles

    Python's [float] is the IEEE 754 binary64 format: 53 bits of precision,
    rounding to nearest with ties to even.  The operations are those of
    [SpecFloat]; the exceptions are Python's. *)

Module Float.

Definition prec : Z := 53.
Definition emax : Z := 1024.

Definition float : Type := spec_float.

(** A result too large for a double raises [OverflowError]. *)
Definition checked (x : float) : result float :=
  match x with
  | S754_infinity _ => Raise OverflowError
  | _ => Ok x
  end.

(** [float(n)]: the double nearest to the integer [n]. *)
Definition of_int (n : Z) : result float :=
  checked (binary_normalize prec emax n 0 false).

Definition is_zero (x : float) : bool :=
  match x with
  | S754_zero _ => true
  | _ => false
  end.

(** [x / y] on floats. *)
Definition truediv (x y : float) : result float :=
  if is_zero y then Raise ZeroDivisionError else Ok (SFdiv prec emax x y).

(** [x * y] on floats. *)
Definition mul (x y : float) : float := SFmul prec emax x y.

(** [a / b] on integers: the quotient of the two integers, rounded once. *)
Definition int_truediv (a b : Z) : result float :=
  if b =? 0 then Raise ZeroDivisionError
  else if a =? 0 then Ok (S754_zero (b <? 0))
  else
    let '(q, e, l) := SFdiv_core_binary prec emax (Z.abs a) 0 (Z.abs b) 0 in
    checked (binary_round_aux prec emax (xorb (a <? 0) (b <? 0)) q e l).

(** [n * x] for an integer [n] and a float [x]: [n] is converted first. *)
Definition int_mul (n : Z) (x : float) : result float :=
  fn <-r of_int n ;; Ok (mul fn x).

(** [n / x] for an integer [n] and a float [x]: [n] is converted first. *)
Definition int_div (n : Z) (x : float) : result float :=
  fn <-r of_int n ;; truediv fn x.

(** [int(x)]: truncation toward zero. *)
Definition int (x : float) : result Z :=
  match x with
  | S754_zero _ => Ok 0
  | S754_finite s m e =>
      let v := if 0 <=? e then Z.pos m * 2 ^ e else Z.pos m / 2 ^ (- e) in
      Ok (if s then - v else v)
  | S754_infinity _ => Raise OverflowError
  | S754_nan => Raise (ValueError "cannot convert float NaN to integer")
  end.

(** Half the distance between [1] and the next double. *)
Definition unit_roundoff : Q := 1 # 9007199254740992.

(** [v] is within a relative [unit_roundoff] of [y]: what rounding [y] to
    a normal double [v] guarantees. *)
Definition near (v y : Q) : Prop :=
  (v * (1 - unit_roundoff) <= y <= v * (1 + unit_roundoff))%Q.

(** The place of the ratio [N / D] between the integers [m] and [m + 1], as
    the rounding of [SpecFloat] records it. *)
Definition located (m : Z) (l : location) (N D : Z) : Prop :=
  match l with
  | loc_Exact => N = m * D
  | loc_Inexact Lt => m * D < N /\ 2 * N < (2 * m + 1) * D
  | loc_Inexact Eq => 2 * N = (2 * m + 1) * D
  | loc_Inexact Gt => (2 * m + 1) * D < 2 * N /\ N < (m + 1) * D
  end.

(** A shift record that stands for the ratio [N / D]. *)
Definition represents (mrs : shr_record) (N D : Z) : Prop :=
  0 <= shr_m mrs /\ located (shr_m mrs) (loc_of_shr_record mrs) N D.

End Float.

(** ** Strings and paths *)

Module Str.

Definition lower_ascii (c : ascii) : ascii :=
  let n := nat_of_ascii c in
  if ((65 <=? n) && (n <=? 90))%nat then ascii_of_nat (n + 32) else c.

Fixpoint lower (s : string) : string :=
  match s with
  | EmptyString => EmptyString
  | String c r => String (lower_ascii c) (lower r)
  end.

Fixpoint rev_acc (s acc : string) : string :=
  match s with
  | EmptyString => acc
  | String c r => rev_acc r (String c acc)
  end.

Definition rev (s : string) : string := rev_acc s EmptyString.

(** [s.endswith(suffix)]. *)
Definition endswith (s suffix : string) : bool :=
  String.prefix (rev suffix) (rev s).

(** [s.endswith((e1, e2, ...))]. *)
Definition endswith_any (s : string) (suffixes : list string) : bool :=
  existsb (endswith s) suffixes.

Definition startswith (s p : string) : bool := String.prefix p s.

(** [os.path.join(a, b)] on a POSIX system. *)
Definition join (a b : string) : string :=
  if startswith b "/" then b
  else if (String.eqb a "" || endswith a "/")%bool then (a ++ b)%string
  else (a ++ "/" ++ b)%string.

Definition join3 (a b c : string) : string := join (join a b) c.

(** [os.path.basename(p)]: what follows the last slash. *)
Fixpoint basename_acc (p acc : string) : string :=
  match p with
  | EmptyString => rev acc
  | String c r =>
      if Ascii.eqb c "/"%char then basename_acc r EmptyString
      else basename_acc r (String c acc)
  end.

Definition basename (p : string) : string := basename_acc p EmptyString.

(** A file name: no character of it is a slash. *)
Fixpoint no_slash (s : string) : bool :=
  match s with
  | EmptyString => true
  | String c r => negb (Ascii.eqb c "/"%char) && no_slash r
  end.

End Str.


(** ** Images and OpenCV values *)

(** A numpy array of rank two: its [shape] is [(height, width)]. *)
Record ndarray (A : Type) : Type := mk_ndarray {
  shape : nat * nat;
  pixels : list (list A)
}.
Arguments mk_ndarray {A} shape pixels.
Arguments shape {A} _.
Arguments pixels {A} _.

Definition amap {A B} (f : A -> B) (a : ndarray A) : ndarray B :=
  mk_ndarray (shape a) (map (map f) (pixels a)).

(** All samples of an array, row after row. *)
Definition samples {A} (a : ndarray A) : list A := concat (pixels a).

Definition height {A} (a : ndarray A) : nat := fst (shape a).
Definition width {A} (a : ndarray A) : nat := snd (shape a).

(** A grid is empty when one of its dimensions is zero. *)
Definition is_empty {A} (a : ndarray A) : bool :=
  ((height a =? 0) || (width a =? 0))%nat.

(** Grayscale [uint8] images, float images and three-channel images. *)
Definition gray := ndarray Z.
Definition fgray := ndarray Q.
Definition bgr := ndarray (Z * Z * Z).

(** [image.astype('float')]. *)
Definition astype_float (a : gray) : fgray := amap inject_Z a.

(** [(a * 255).astype(np.uint8)]. *)
Definition times255_uint8 (a : fgray) : gray :=
  amap (fun q => Py.int (q * 255) mod 256) a.

(** The same for what [cv2.normalize] returned, an array or [None]:
    [None * 255] raises [TypeError]. *)
Definition times255_uint8_of (normalized : option fgray) : result gray :=
  match normalized with
  | Some a => Ok (times255_uint8 a)
  | None => Raise TypeError
  end.

Inductive InterpolationFlags : Type :=
| INTER_NEAREST | INTER_LINEAR | INTER_CUBIC | INTER_AREA.

Inductive NormTypes : Type := NORM_INF | NORM_L1 | NORM_L2 | NORM_MINMAX.

Inductive AdaptiveThresholdTypes : Type :=
| ADAPTIVE_THRESH_MEAN_C | ADAPTIVE_THRESH_GAUSSIAN_C.

Inductive ThresholdTypes : Type := THRESH_BINARY | THRESH_BINARY_INV.

Inductive RetrievalModes : Type :=
| RETR_EXTERNAL | RETR_LIST | RETR_CCOMP | RETR_TREE.

Inductive ContourApproximationModes : Type :=
| CHAIN_APPROX_NONE | CHAIN_APPROX_SIMPLE.

Inductive ColorConversionCodes : Type := COLOR_GRAY2BGR.

(** When [cv2.resize] gets no [interpolation] argument it uses this one. *)
Definition resize_default_interpolation : InterpolationFlags := INTER_LINEAR.

(** [cv2.createCLAHE(clipLimit, tileGridSize)]. *)
Record CLAHE : Type := createCLAHE {
  clipLimit : Q;
  tileGridSize : Z * Z
}.

Definition Contour := list (Z * Z).

(** [cv2.KeyPoint]: the program reads [pt] and [size]. *)
Record KeyPoint : Type := mk_KeyPoint {
  pt : Q * Q;
  size : Q
}.

(** The fields of [cv2.SimpleBlobDetector_Params] that the program sets. *)
Record SimpleBlobDetector_Params : Type := mk_Params {
  filterByArea : bool;
  minArea : Q;
  maxArea : Q;
  filterByCircularity : bool;
  minCircularity : Q;
  filterByConvexity : bool;
  minConvexity : Q
}.

(** A connected component measured by the blob detector, with the key point
    reported for it. *)
Record component : Type := mk_component {
  keypoint : KeyPoint;
  area : Q;
  circularity : Q;
  convexity : Q
}.

(** ** Session state, console and log *)

(** The dictionary built for every analysed image. *)
Record analysis_result : Type := mk_analysis_result {
  category : string;
  filename : string;
  image_size : nat * nat;
  blob_detections : Z;
  contour_detections : Z;
  total_findings : Z;
  image_path : string
}.

(** Blob and contour counts added over a list of records. *)
Definition sum_blobs (l : list analysis_result) : Z :=
  Py.sum (map blob_detections l).

Definition sum_contours (l : list analysis_result) : Z :=
  Py.sum (map contour_detections l).

(** Titles given to [display_images]. *)
Inductive title : Type :=
| TitleOriginal (name : string)
| TitleDetections (blobs contours : Z)
| TitleFound (total : Z).

(** What the program prints or logs, one constructor per message (the block
    of prints that renders one analysis record is one message); the rendering
    of numbers is left to the console. *)
Inductive message : Type :=
| DatasetInfoHeader
| DatasetNotFound
| ExpectedPath (path : string)
| CategoryCount (display_name : string) (count : Z)
| FolderNotFound (path : string)
| TotalImages (count : Z)
| Analyzing (category basename : string)
| ImageSize (shape : nat * nat)
| ErrorAnalyzing (path : string) (e : exn)
| AnalysisReport (r : analysis_result)
| CategoryHeader (category : string)
| NoImagesFound (category : string)
| SummaryHeader (category : string)
| ImagesAnalyzed (count : Z)
| TotalBlobDetections (count : Z)
| TotalContourDetections (count : Z)
| AverageFindings (average : Q)
| ComparingHeader
| ReportHeader
| TableHeader
| TableRow (category : string) (images blobs contours total : Z) (average : Q)
| ResultsSaved (path : string)
| StartingProcessing (path : string)
| FileNotFound (path : string)
| ImageLoaded (shape : nat * nat)
| Stage (name : string)
| ProcessingCompleted (total : Z)
| ErrorProcessing (path : string) (e : exn).

Inductive level : Type := DEBUG | INFO | ERROR.

Inductive event : Type :=
| Print (m : message)
| Log (lvl : level) (m : message)
| Displayed (t1 t2 : title)
| Written (path : string) (image : bgr)
| Charted (categories : list string) (totals blobs contours : list Z)
| SavedCsv (path : string) (rows : list analysis_result).

(** [results] is the analyzer's [self.results]; [console] collects every
    effect visible from outside, oldest first. *)
Record session : Type := mk_session {
  results : list analysis_result;
  console : list event
}.

Definition new_session : session := mk_session [] [].

(** ** The monad of effectful code *)

Definition M (A : Type) : Type := session -> result A * session.

Definition ret {A} (a : A) : M A := fun s => (Ok a, s).

Definition bind {A B} (m : M A) (k : A -> M B) : M B :=
  fun s =>
    match m s with
    | (Ok a, s') => k a s'
    | (Raise e, s') => (Raise e, s')
    end.

Definition raise {A} (e : exn) : M A := fun s => (Raise e, s).

Definition lift {A} (r : result A) : M A := fun s => (r, s).

(** [try: body except Exception as e: handler(e)]. *)
Definition try_except {A} (body : M A) (handler : exn -> M A) : M A :=
  fun s =>
    match body s with
    | (Ok a, s') => (Ok a, s')
    | (Raise e, s') => handler e s'
    end.

Definition emit (ev : event) : M unit :=
  fun s => (Ok tt, mk_session (results s) (console s ++ [ev])).

Definition print (m : message) : M unit := emit (Print m).

(** [logging.basicConfig(level=logging.INFO)]: records below [INFO] are
    dropped. *)
Definition logger (lvl : level) (m : message) : M unit :=
  match lvl with
  | DEBUG => fun s => (Ok tt, s)
  | _ => emit (Log lvl m)
  end.

(** [self.results.append(r)]. *)
Definition results_append (r : analysis_result) : M unit :=
  fun s => (Ok tt, mk_session (results s ++ [r]) (console s)).

Definition get_results : M (list analysis_result) :=
  fun s => (Ok (results s), s).

Notation "x <- m ;; k" := (bind m (fun x => k))
  (at level 61, m at next level, right associativity).
Notation "m ;; k" := (bind m (fun _ => k))
  (at level 61, right associativity).
Notation "' pat <- m ;; k" := (bind m (fun x => match x with pat => k end))
  (at level 61, pat pattern, m at next level, right associativity).

(** [for x in l: acc = body(acc, x)]. *)
Fixpoint for_each {A B} (l : list A) (acc : B) (body : B -> A -> M B) : M B :=
  match l with
  | [] => ret acc
  | x :: l' => acc' <- body acc x ;; for_each l' acc' body
  end.

(** A computation is quiet when it returns without an exception and leaves
    [self.results] as it was. *)
Definition quiet {A} (m : M A) : Prop :=
  forall s, exists a s', m s = (Ok a, s') /\ results s' = results s.

(** A computation preserves [self.results] when it leaves it as it was,
    whether it returns or raises. *)
Definition preserving {A} (m : M A) : Prop :=
  forall s, results (snd (m s)) = results s.

(** A record as the analyzer builds them: the total is the sum of the two
    counts, the counts are lengths, and the file name is the last component
    of the path. *)
Definition consistent (r : analysis_result) : Prop :=
  total_findings r = blob_detections r + contour_detections r
  /\ 0 <= blob_detections r
  /\ 0 <= contour_detections r
  /\ filename r = Str.basename (image_path r).

(** [self.results] has only been appended to, with consistent records. *)
Definition grows (s s' : session) : Prop :=
  exists new, results s' = results s ++ new /\ Forall consistent new.

(** A computation under which [self.results] grows, whether it returns or
    raises. *)
Definition growing {A} (m : M A) : Prop := forall s, grows s (snd (m s)).

(** ** The platform: file system, OpenCV and matplotlib

    An OpenCV entry point returns [None] when it raises [cv2.error];
    [cv2_imread] returns [None] when the file cannot be read, as
    [cv2.imread] does.  [cv2_normalize], called with [dst = None], returns
    what Python receives: [Some (Some a)] for an array and [Some None] when
    the call returns Python's [None], as it does for a grid without samples.
    [os_listdir] returns [None] when [os.listdir] raises [OSError] (the path
    is not a directory, or may not be read), and [df_to_csv] is [false] when
    [DataFrame.to_csv] raises [OSError] (the folder of the file is missing).
    [blob_components] stands for the thresholding and component extraction
    that the blob detector runs inside OpenCV. *)

Class Platform : Type := {
  os_path_exists : string -> bool;
  os_listdir : string -> option (list string);
  df_to_csv : string -> list analysis_result -> bool;
  cv2_imread : string -> option gray;
  cv2_imwrite : string -> bgr -> bool;
  cv2_resize : gray -> Z * Z -> InterpolationFlags -> option gray;
  cv2_normalize : fgray -> Q -> Q -> NormTypes -> option (option fgray);
  CLAHE_apply : CLAHE -> gray -> option gray;
  cv2_GaussianBlur : gray -> Z * Z -> Q -> option gray;
  cv2_medianBlur : gray -> Z -> option gray;
  blob_components : gray -> option (list component);
  cv2_adaptiveThreshold :
    gray -> Z -> AdaptiveThresholdTypes -> ThresholdTypes -> Z -> Q -> option gray;
  cv2_findContours :
    gray -> RetrievalModes -> ContourApproximationModes -> option (list Contour);
  cv2_contourArea : Contour -> Q;
  cv2_arcLength : Contour -> bool -> Q;
  cv2_minEnclosingCircle : Contour -> Q * Q * Q;
  cv2_cvtColor : gray -> ColorConversionCodes -> option bgr;
  cv2_circle : bgr -> Z * Z -> Z -> Z * Z * Z -> Z -> option bgr;
  plt_show : gray -> bgr -> bool;
  plt_bar_charts : list string -> list Z -> list Z -> list Z -> bool
}.

(** Comparisons of floats. *)
Definition Qltb (a b : Q) : bool := negb (Qle_bool b a).
Definition Qleb (a b : Q) : bool := Qle_bool a b.

(** [for x in l: acc = body(acc, x)] for code that only computes. *)
Fixpoint rfor_each {A B} (l : list A) (acc : B) (body : B -> A -> result B)
  : result B :=
  match l with
  | [] => Ok acc
  | x :: l' => acc' <-r body acc x ;; rfor_each l' acc' body
  end.

(** ** utils.py *)

Module Utils.
Section WithPlatform.
Context `{Platform}.

Definition load_image (image_path : string) : result gray :=
  match cv2_imread image_path with
  | None => Raise (ValueError ("Could not load image from " ++ image_path))
  | Some image => Ok image
  end.

Definition display_images (original : gray) (processed : bgr)
  (title1 title2 : title) : M unit :=
  if plt_show original processed then emit (Displayed title1 title2)
  else raise PlotError.

(** The function returns what [cv2.normalize] returns, [None] included. *)
Definition normalize_image (image : gray) : result (option fgray) :=
  of_cv2 (cv2_normalize (astype_float image) 0 1 NORM_MINMAX).

(** [ratio = height / float(h)] and [int(w * ratio)], and the same with the
    width: [float(.)] is evaluated first, then the division, which converts
    its integer operand, then the product, which converts again. *)
Definition resize_image (image : gray) (width height : option Z) : result gray :=
  let '(h, w) := shape image in
  match width, height with
  | None, None => Ok image
  | None, Some height =>
      fh <-r Float.of_int (Z.of_nat h) ;;
      ratio <-r Float.int_div height fh ;;
      product <-r Float.int_mul (Z.of_nat w) ratio ;;
      new_width <-r Float.int product ;;
      let dim := (new_width, height) in
      of_cv2 (cv2_resize image dim INTER_AREA)
  | Some width, _ =>
      fw <-r Float.of_int (Z.of_nat w) ;;
      ratio <-r Float.int_div width fw ;;
      product <-r Float.int_mul (Z.of_nat h) ratio ;;
      new_height <-r Float.int product ;;
      let dim := (width, new_height) in
      of_cv2 (cv2_resize image dim INTER_AREA)
  end.

End WithPlatform.
End Utils.

(** ** OpenCV's blob detector *)

Module BlobDetector.

(** Modelled from the spec: the filter of [cv2.SimpleBlobDetector], which runs
    inside OpenCV and is not part of the sources.  A component is retained
    when its area lies in [[minArea, maxArea]], its circularity is at least
    [minCircularity] and its convexity at least [minConvexity], for the
    filters that are switched on. *)
Definition retained (params : SimpleBlobDetector_Params) (c : component) : bool :=
  (if filterByArea params
   then Qleb (minArea params) (area c) && Qleb (area c) (maxArea params)
   else true)
  && (if filterByCircularity params
      then Qleb (minCircularity params) (circularity c) else true)
  && (if filterByConvexity params
      then Qleb (minConvexity params) (convexity c) else true).

Definition Qmin (a b : Q) : Q := if Qleb a b then a else b.

(** Modelled from the spec: two candidates are duplicates when their centres
    are closer than half the smaller radius, with [radius = sqrt(area/pi)];
    both sides are squared to stay rational. *)
Definition duplicates (a b : component) : bool :=
  let '(xa, ya) := pt (keypoint a) in
  let '(xb, yb) := pt (keypoint b) in
  let d2 := ((xa - xb) * (xa - xb) + (ya - yb) * (ya - yb))%Q in
  Qltb (4 * np_pi * d2) (Qmin (area a) (area b)).

(** Modelled from the spec: of two duplicates the one of higher circularity
    is kept. *)
Fixpoint merge_into (kept : list component) (c : component) : list component :=
  match kept with
  | [] => [c]
  | k :: kept' =>
      if duplicates k c
      then (if Qltb (circularity k) (circularity c) then c :: kept' else k :: kept')
      else k :: merge_into kept' c
  end.

Definition merge_duplicates (l : list component) : list component :=
  fold_left merge_into l [].

Section WithPlatform.
Context `{Platform}.

(** Modelled from the spec: [detector.detect(image)] for a detector created
    from [params]. *)
Definition detect (params : SimpleBlobDetector_Params) (image : gray)
  : result (list component) :=
  components <-r of_cv2 (blob_components image) ;;
  Ok (merge_duplicates (filter (retained params) components)).

End WithPlatform.
End BlobDetector.

(** ** image_processor.py

    The attributes [original_image] and [processed_image] are written and
    never read; they are left out. *)

Module LungImageProcessor.
Section WithPlatform.
Context `{Platform}.

Definition load_image (image_path : string) : result gray :=
  match cv2_imread image_path with
  | None => Raise (ValueError ("Could not load image from " ++ image_path))
  | Some image => Ok image
  end.

Definition preprocess_image (image : gray) : result gray :=
  normalized <-r of_cv2 (cv2_normalize (astype_float image) 0 1 NORM_MINMAX) ;;
  let clahe := createCLAHE 2 (8, 8) in
  scaled <-r times255_uint8_of normalized ;;
  enhanced <-r of_cv2 (CLAHE_apply clahe scaled) ;;
  blurred <-r of_cv2 (cv2_GaussianBlur enhanced (5, 5) 0) ;;
  Ok blurred.

(** The parameters that [detect_nodules] hands to the detector. *)
Definition nodule_params (min_radius max_radius : Z) : SimpleBlobDetector_Params :=
  {| filterByArea := true;
     minArea := np_pi * inject_Z (min_radius ^ 2);
     maxArea := np_pi * inject_Z (max_radius ^ 2);
     filterByCircularity := true;
     minCircularity := 0.5;
     filterByConvexity := true;
     minConvexity := 0.8 |}.

(** The detector returns the key points of the components it retains; the
    components are kept here so that their measures can be stated. *)
Definition detect_nodules_components (image : gray) (min_radius max_radius : Z)
  : result (list component) :=
  BlobDetector.detect (nodule_params min_radius max_radius) image.

Definition detect_nodules (image : gray) (min_radius max_radius : Z)
  : result (list KeyPoint) :=
  components <-r detect_nodules_components image min_radius max_radius ;;
  Ok (map keypoint components).

(** One turn of the loop of [analyze_regions]. *)
Definition keep_contour (potential_nodules : list Contour) (contour : Contour)
  : result (list Contour) :=
  let area := cv2_contourArea contour in
  if Qltb 50 area && Qltb area 1000 then
    let perimeter := cv2_arcLength contour true in
    if Qltb 0 perimeter then
      circularity <-r truediv (4 * np_pi * area) (perimeter ^ 2) ;;
      if Qltb 0.5 circularity then Ok (potential_nodules ++ [contour])
      else Ok potential_nodules
    else Ok potential_nodules
  else Ok potential_nodules.

(** The test that one turn of the loop applies to a contour. *)
Definition passes (c : Contour) : bool :=
  Qltb 50 (cv2_contourArea c) && Qltb (cv2_contourArea c) 1000
  && Qltb 0 (cv2_arcLength c true)
  && Qltb 0.5 (4 * np_pi * cv2_contourArea c / cv2_arcLength c true ^ 2).

Definition analyze_regions (image : gray) : result (list Contour) :=
  binary <-r of_cv2 (cv2_adaptiveThreshold image 255 ADAPTIVE_THRESH_GAUSSIAN_C
                       THRESH_BINARY 11 2) ;;
  contours <-r of_cv2 (cv2_findContours binary RETR_EXTERNAL CHAIN_APPROX_SIMPLE) ;;
  rfor_each contours [] keep_contour.

Definition draw_keypoint (result : bgr) (kp : KeyPoint) : Py.result bgr :=
  let '(x, y) := (Py.int (fst (pt kp)), Py.int (snd (pt kp))) in
  let radius := Py.int (size kp / 2) in
  of_cv2 (cv2_circle result (x, y) radius (0, 0, 255) 2).

Definition draw_contour (result : bgr) (contour : Contour) : Py.result bgr :=
  let '(x, y, radius) := cv2_minEnclosingCircle contour in
  let center := (Py.int x, Py.int y) in
  let radius := Py.int radius in
  of_cv2 (cv2_circle result center radius (255, 0, 0) 2).

Definition draw_detections (image : gray) (keypoints : list KeyPoint)
  (contours : list Contour) : result bgr :=
  result <-r of_cv2 (cv2_cvtColor image COLOR_GRAY2BGR) ;;
  result <-r rfor_each keypoints result draw_keypoint ;;
  match contours with
  | [] => Ok result
  | _ => rfor_each contours result draw_contour
  end.

End WithPlatform.
End LungImageProcessor.

(** ** Dictionaries with string keys, in insertion order *)

Definition dict (V : Type) : Type := list (string * V).

Fixpoint dict_get {V} (d : dict V) (k : string) : option V :=
  match d with
  | [] => None
  | (k', v) :: d' => if String.eqb k' k then Some v else dict_get d' k
  end.

Fixpoint dict_set {V} (d : dict V) (k : string) (v : V) : dict V :=
  match d with
  | [] => [(k, v)]
  | (k', v') :: d' =>
      if String.eqb k' k then (k, v) :: d' else (k', v') :: dict_set d' k v
  end.

Definition dict_mem {V} (d : dict V) (k : string) : bool :=
  match dict_get d k with Some _ => true | None => false end.

(** ** covid_loader.py *)

Module CovidDatasetLoader.

Definition dataset_path : string := "data/covid_dataset".

Definition categories : dict string :=
  [("COVID", "COVID"); ("Normal", "normal"); ("Lung_Opacity", "lung_opacity");
   ("Viral_Pneumonia", "Viral Pneumonia")]%string.

Record category_entry : Type := mk_entry {
  count : Z;
  path : string;
  images : list string;
  folder_name : string
}.

(** The image counts of the entries of a dictionary, added up. *)
Definition count_sum (info : dict category_entry) : Z :=
  Py.sum (map (fun kv => count (snd kv)) info).

Definition image_extensions : list string :=
  [".png"; ".jpg"; ".jpeg"; ".bmp"]%string.

Section WithPlatform.
Context `{Platform}.

(** The body of the loop over [self.categories.items()]. *)
Definition scan_category (acc : dict category_entry * Z) (item : string * string)
  : M (dict category_entry * Z) :=
  let '(category_info, total_images) := acc in
  let '(display_name, folder_name) := item in
  let images_path := Str.join3 dataset_path folder_name "images" in
  if os_path_exists images_path then
    listing <- lift (of_os (os_listdir images_path)) ;;
    let images :=
      filter (fun f => Str.endswith_any (Str.lower f) image_extensions)
             listing in
    let image_count := len images in
    print (CategoryCount display_name image_count) ;;
    ret (dict_set category_info display_name
           (mk_entry image_count images_path images folder_name),
         total_images + image_count)
  else
    print (FolderNotFound images_path) ;;
    ret (category_info, total_images).

Definition get_dataset_info : M (option (dict category_entry)) :=
  print DatasetInfoHeader ;;
  if negb (os_path_exists dataset_path) then
    print DatasetNotFound ;;
    print (ExpectedPath dataset_path) ;;
    ret None
  else
    '(category_info, total_images) <- for_each categories ([], 0) scan_category ;;
    print (TotalImages total_images) ;;
    ret (Some category_info).

Definition get_all_category_images (category : string) (max_images : option Z)
  : M (list string) :=
  category_info <- get_dataset_info ;;
  match category_info with
  | None => ret []
  | Some category_info =>
      match category_info, dict_get category_info category with
      | [], _ | _, None => ret []
      | _, Some entry =>
          let images_path := path entry in
          let images := images entry in
          let images :=
            match max_images with
            | Some n => if truthy max_images then slice_to images n else images
            | None => images
            end in
          ret (map (Str.join images_path) images)
      end
  end.

(** An entry of [category_info] describes the images folder of one of the
    known categories: its [images] are the files of that folder that bear an
    image extension, in the order of the listing. *)
Definition listed (display_name : string) (entry : category_entry) : Prop :=
  exists folder listing,
    In (display_name, folder) categories
    /\ path entry = Str.join3 dataset_path folder "images"
    /\ os_path_exists (path entry) = true
    /\ os_listdir (path entry) = Some listing
    /\ images entry
       = filter (fun f => Str.endswith_any (Str.lower f) image_extensions)
           listing
    /\ count entry = len (images entry).

(** [os.listdir] returns names, not paths. *)
Definition listdir_plain : Prop :=
  forall dir listing f,
    os_listdir dir = Some listing -> In f listing -> Str.no_slash f = true.

(** Every images folder of the dataset that exists can be listed: it is a
    directory that the program may read. *)
Definition listable : Prop :=
  forall display_name folder,
    In (display_name, folder) categories ->
    os_path_exists (Str.join3 dataset_path folder "images") = true ->
    exists listing,
      os_listdir (Str.join3 dataset_path folder "images") = Some listing.

End WithPlatform.

(** The dictionary returned by [get_image_stats]. *)
Record image_stats : Type := mk_stats {
  stats_path : string;
  stats_shape : nat * nat;
  mean_intensity : Q;
  std_intensity : Q;
  min_intensity : Z;
  max_intensity : Z
}.

(** [np.mean(image)]: the sum of the samples over their number. *)
Definition np_mean (image : gray) : Q :=
  (inject_Z (Py.sum (samples image)) / inject_Z (len (samples image)))%Q.

(** [np.min(image)] and [np.max(image)] raise [ValueError] on an array
    without samples. *)
Definition np_min (image : gray) : result Z :=
  match samples image with
  | [] => Raise (ValueError "zero-size array to reduction operation minimum which has no identity")
  | v :: vs => Ok (fold_left Z.min vs v)
  end.

Definition np_max (image : gray) : result Z :=
  match samples image with
  | [] => Raise (ValueError "zero-size array to reduction operation maximum which has no identity")
  | v :: vs => Ok (fold_left Z.max vs v)
  end.

Section Stats.
Context `{Platform}.

(** [np.std] takes a square root and is left to numpy. *)
Variable np_std : gray -> Q.

(** The entries of the dictionary are evaluated in the order in which they
    are written: the mean and the deviation, then the minimum, which raises
    on an array without samples. *)
Definition get_image_stats (image_path : string) : result (option image_stats) :=
  match cv2_imread image_path with
  | None => Ok None
  | Some image =>
      let mean := np_mean image in
      let std := np_std image in
      lo <-r np_min image ;;
      hi <-r np_max image ;;
      Ok (Some (mk_stats image_path (shape image) mean std lo hi))
  end.

End Stats.
End CovidDatasetLoader.

(** ** covid_analyzer.py *)

Module CovidImageAnalyzer.

(** A value of [category_results] in [compare_all_categories]; its key
    ['total_findings'] is the field [total]. *)
Record category_result : Type := mk_category_result {
  blobs : Z;
  contours : Z;
  total : Z
}.

Definition category_names : list string :=
  ["COVID"; "Normal"; "Lung_Opacity"; "Viral_Pneumonia"]%string.

Definition csv_path : string := "data/results/covid_analysis_results.csv".

Section WithPlatform.
Context `{Platform}.

(** Step 1 of [enhanced_covid_preprocessing]: resize if too large. *)
Definition resize_if_too_large (image : gray) : result gray :=
  let '(h, w) := shape image in
  if (1024 <? w)%nat then
    scale <-r Float.int_truediv 1024 (Z.of_nat w) ;;
    let new_width := 1024 in
    product <-r Float.int_mul (Z.of_nat h) scale ;;
    new_height <-r Float.int product ;;
    of_cv2 (cv2_resize image (new_width, new_height) resize_default_interpolation)
  else Ok image.

Definition enhanced_covid_preprocessing (image : gray) : result gray :=
  image <-r resize_if_too_large image ;;
  normalized <-r of_cv2 (cv2_normalize (astype_float image) 0 1 NORM_MINMAX) ;;
  let clahe := createCLAHE 2.5 (8, 8) in
  scaled <-r times255_uint8_of normalized ;;
  enhanced <-r of_cv2 (CLAHE_apply clahe scaled) ;;
  denoised <-r of_cv2 (cv2_medianBlur enhanced 3) ;;
  Ok denoised.

Definition print_analysis_report (r : analysis_result) : M unit :=
  print (AnalysisReport r).

(** The state in which the [try] block of [analyze_single_image] starts. *)
Definition announced (image_path category : string) (s : session) : session :=
  mk_session (results s)
    (console s ++ [Print (Analyzing category (Str.basename image_path))]).

(** The body of the [try] block of [analyze_single_image]. *)
Definition analyze_body (image_path category : string) : M (option bgr * Z * Z) :=
  original <- lift (Utils.load_image image_path) ;;
  print (ImageSize (shape original)) ;;
  processed <- lift (enhanced_covid_preprocessing original) ;;
  keypoints <- lift (LungImageProcessor.detect_nodules processed 3 20) ;;
  contours <- lift (LungImageProcessor.analyze_regions processed) ;;
  result_image <- lift (LungImageProcessor.draw_detections original keypoints contours) ;;
  Utils.display_images original result_image (TitleOriginal category)
    (TitleDetections (len keypoints) (len contours)) ;;
  let analysis_result :=
    {| category := category;
       filename := Str.basename image_path;
       image_size := shape original;
       blob_detections := len keypoints;
       contour_detections := len contours;
       total_findings := len keypoints + len contours;
       image_path := image_path |} in
  results_append analysis_result ;;
  print_analysis_report analysis_result ;;
  ret (Some result_image, len keypoints, len contours).

Definition analyze_single_image (image_path category : string)
  : M (option bgr * Z * Z) :=
  print (Analyzing category (Str.basename image_path)) ;;
  try_except (analyze_body image_path category)
    (fun e => print (ErrorAnalyzing image_path e) ;; ret (None, 0, 0)).

(** The state in which [analyze_category] calls the loader. *)
Definition headed (category : string) (s : session) : session :=
  mk_session (results s) (console s ++ [Print (CategoryHeader category)]).

(** The body of the loop of [analyze_category]. *)
Definition add_image (category : string) (acc : Z * Z) (image_path : string)
  : M (Z * Z) :=
  let '(total_blobs, total_contours) := acc in
  '(result, blobs, contours) <- analyze_single_image image_path category ;;
  ret (total_blobs + blobs, total_contours + contours).

Definition analyze_category (category : string) (max_images : Z) : M (Z * Z) :=
  print (CategoryHeader category) ;;
  image_paths <- CovidDatasetLoader.get_all_category_images category (Some max_images) ;;
  match image_paths with
  | [] =>
      print (NoImagesFound category) ;;
      ret (0, 0)
  | _ =>
      '(total_blobs, total_contours) <-
        for_each image_paths (0, 0) (add_image category) ;;
      print (SummaryHeader category) ;;
      print (ImagesAnalyzed (len image_paths)) ;;
      print (TotalBlobDetections total_blobs) ;;
      print (TotalContourDetections total_contours) ;;
      average <- lift (truediv (inject_Z (total_blobs + total_contours))
                               (inject_Z (len image_paths))) ;;
      print (AverageFindings average) ;;
      ret (total_blobs, total_contours)
  end.

Definition save_results_to_csv : M unit :=
  rows <- get_results ;;
  match rows with
  | [] => ret tt
  | _ =>
      (if df_to_csv csv_path rows then emit (SavedCsv csv_path rows)
       else raise OSError) ;;
      print (ResultsSaved csv_path)
  end.

(** The body of the loop that prints the comparison table. *)
Definition print_row (images_per_category : Z) (_ : unit)
  (item : string * category_result) : M unit :=
  let '(category, result) := item in
  avg_per_image <- lift (truediv (inject_Z (total result))
                                 (inject_Z images_per_category)) ;;
  print (TableRow category images_per_category (blobs result) (contours result)
           (total result) avg_per_image).


Definition create_comparison_report (category_results : dict category_result)
  (images_per_category : Z) : M unit :=
  print ReportHeader ;;
  let categories := map fst category_results in
  let total_findings := map (fun kv => total (snd kv)) category_results in
  let blobs := map (fun kv => blobs (snd kv)) category_results in
  let contours := map (fun kv => contours (snd kv)) category_results in
  print TableHeader ;;
  for_each category_results tt (print_row images_per_category) ;;
  (if plt_bar_charts categories total_findings blobs contours
   then emit (Charted categories total_findings blobs contours)
   else raise PlotError) ;;
  save_results_to_csv.

(** The body of the loop of [compare_all_categories]. *)
Definition compare_category (images_per_category : Z)
  (category_results : dict category_result) (category : string)
  : M (dict category_result) :=
  '(blobs, contours) <- analyze_category category images_per_category ;;
  ret (dict_set category_results category
         (mk_category_result blobs contours (blobs + contours))).

Definition compare_all_categories (images_per_category : Z) : M unit :=
  print ComparingHeader ;;
  category_results <-
    for_each category_names [] (compare_category images_per_category) ;;
  create_comparison_report category_results images_per_category.

End WithPlatform.
End CovidImageAnalyzer.

(** ** main.py *)

Module Main.

(** What a name can be bound to in [process_single_image]. *)
Inductive pyvalue : Type :=
| PyStr (s : string)
| PyGray (image : gray)
| PyColor (image : bgr)
| PyKeyPoints (l : list KeyPoint)
| PyContours (l : list Contour)
| PyObject.

(** Names bound at module level in [main.py]; no builtin is called
    [contections]. *)
Definition module_globals : dict pyvalue :=
  [("cv2", PyObject); ("os", PyObject); ("sys", PyObject); ("logging", PyObject);
   ("Path", PyObject); ("LungImageProcessor", PyObject);
   ("display_images", PyObject); ("load_image", PyObject); ("logger", PyObject);
   ("setup_directories", PyObject); ("process_single_image", PyObject);
   ("main", PyObject)]%string.

(** Reading a name that the function does not assign: module globals, then
    [NameError]. *)
Definition load_global (name : string) : result pyvalue :=
  match dict_get module_globals name with
  | Some v => Ok v
  | None => Raise (NameError name)
  end.

(** [len(v)]. *)
Definition py_len (v : pyvalue) : result Z :=
  match v with
  | PyStr s => Ok (Z.of_nat (String.length s))
  | PyGray image => Ok (Z.of_nat (height image))
  | PyColor image => Ok (Z.of_nat (height image))
  | PyKeyPoints l => Ok (len l)
  | PyContours l => Ok (len l)
  | PyObject => Raise TypeError
  end.

Section WithPlatform.
Context `{Platform}.

(** The body of the [try] block of [process_single_image]. *)
Definition process_body (image_path : string) : M (option bgr * Z) :=
  logger DEBUG (Stage "Loading image...") ;;
  original <- lift (LungImageProcessor.load_image image_path) ;;
  logger INFO (ImageLoaded (shape original)) ;;
  logger DEBUG (Stage "Preprocessing image...") ;;
  processed <- lift (LungImageProcessor.preprocess_image original) ;;
  logger DEBUG (Stage "Detecting nodules...") ;;
  keypoints <- lift (LungImageProcessor.detect_nodules processed 3 20) ;;
  contours <- lift (LungImageProcessor.analyze_regions processed) ;;
  logger DEBUG (Stage "Drawing detection results...") ;;
  result_image <- lift (LungImageProcessor.draw_detections original keypoints contours) ;;
  let output_path := ("data/results/result_" ++ Str.basename image_path)%string in
  (if cv2_imwrite output_path result_image
   then emit (Written output_path result_image) else ret tt) ;;
  Utils.display_images original result_image
    (TitleOriginal (Str.basename image_path))
    (TitleFound (len keypoints + len contours)) ;;
  contections <- lift (load_global "contections") ;;
  n <- lift (py_len contections) ;;
  let total_detections := len keypoints + n in
  logger INFO (ProcessingCompleted total_detections) ;;
  ret (Some result_image, total_detections).

Definition process_single_image (image_path : string) : M (option bgr * Z) :=
  logger INFO (StartingProcessing image_path) ;;
  if negb (os_path_exists image_path) then
    logger ERROR (FileNotFound image_path) ;;
    ret (None, 0)
  else
    try_except (process_body image_path)
      (fun e => logger ERROR (ErrorProcessing image_path e) ;; ret (None, 0)).

End WithPlatform.
End Main.

(** ** OpenCV's min-max normalisation *)

Module OpenCV.
Local Open Scope Q_scope.

Definition DBL_EPSILON : Q := 1 # 4503599627370496.

Definition Qmin (a b : Q) : Q := if Qleb a b then a else b.
Definition Qmax (a b : Q) : Q := if Qleb a b then b else a.

(** [cv2.minMaxLoc]: the least and the greatest sample. *)
Definition minMax (src : fgray) : Q * Q :=
  match samples src with
  | [] => (0, 0)
  | v :: vs => (fold_left Qmin vs v, fold_left Qmax vs v)
  end.

(** Modelled from the spec: [cv2.normalize(src, None, alpha, beta,
    cv2.NORM_MINMAX)], a function of OpenCV that is not part of the
    sources.  It is the linear stretch [(v - min) / (max - min)] scaled to
    [[alpha, beta]], computed as [v * scale + shift]; on a flat image the
    scale is [0] and no division takes place. *)
Definition normalize_minmax (src : fgray) (alpha beta : Q) : result fgray :=
  let '(smin, smax) := minMax src in
  let dmin := Qmin alpha beta in
  let dmax := Qmax alpha beta in
  inv <-r (if Qltb DBL_EPSILON (smax - smin) then truediv 1 (smax - smin)
           else Ok 0) ;;
  let scale := (dmax - dmin) * inv in
  let shift := dmin - smin * scale in
  Ok (amap (fun v => v * scale + shift) src).

Local Close Scope Q_scope.

Section Contracts.
Context `{Platform}.

(** The platform's [cv2.normalize] is the min-max stretch on every grid that
    is not empty. *)
Definition normalize_is_minmax : Prop :=
  forall src alpha beta,
    is_empty src = false ->
    of_cv2 (cv2_normalize src alpha beta NORM_MINMAX)
    = (out <-r normalize_minmax src alpha beta ;; Ok (Some out)).

(** On a grid without samples [cv2.normalize] raises nothing and returns
    [None]. *)
Definition normalize_none_on_empty : Prop :=
  forall src alpha beta,
    is_empty src = true ->
    cv2_normalize src alpha beta NORM_MINMAX = Some None.

(** OpenCV's filters accept every grid that is not empty and return a grid
    of the same shape; [cv2.resize] returns a grid of the requested size when
    that size is positive. *)
Record accepts_nonempty : Prop := {
  normalize_total : forall src alpha beta,
    is_empty src = false ->
    exists out, cv2_normalize src alpha beta NORM_MINMAX = Some (Some out)
                /\ shape out = shape src;
  clahe_total : forall clahe src,
    is_empty src = false ->
    exists out, CLAHE_apply clahe src = Some out /\ shape out = shape src;
  gaussian_total : forall src sigma,
    is_empty src = false ->
    exists out, cv2_GaussianBlur src (5, 5) sigma = Some out
                /\ shape out = shape src;
  median_total : forall src,
    is_empty src = false ->
    exists out, cv2_medianBlur src 3 = Some out /\ shape out = shape src;
  resize_total : forall src new_width new_height interpolation,
    is_empty src = false -> 0 < new_width -> 0 < new_height ->
    exists out, cv2_resize src (new_width, new_height) interpolation = Some out
                /\ shape out = (Z.to_nat new_height, Z.to_nat new_width)
}.

(** A perimeter is never negative. *)
Definition arcLength_nonneg : Prop :=
  forall c closed, (0 <= cv2_arcLength c closed)%Q.

End Contracts.
End OpenCV.

(** ** What the specification says, in its own words *)

Module Spec.
Local Open Scope Q_scope.
Section WithPlatform.
Context `{Platform}.

(** Circularity [4 pi area / perimeter^2] of a contour. *)
Definition contour_circularity (c : Contour) : Q :=
  4 * np_pi * cv2_contourArea c / (cv2_arcLength c true) ^ 2.

(** The contour detector retains a contour when [50 < area < 1000] and its
    circularity exceeds [0.5]. *)
Definition contour_retained (c : Contour) : bool :=
  Qltb 50 (cv2_contourArea c) && Qltb (cv2_contourArea c) 1000
  && Qltb 0.5 (contour_circularity c).


End WithPlatform.
End Spec.

(** The samples of a result, compared with expected rationals. *)
Definition fmap_samples_eq (r : result (option fgray)) (expected : list Q) : bool :=
  match r with
  | Ok (Some out) =>
      (length (samples out) =? length expected)%nat
      && forallb (fun p => Qeq_bool (fst p) (snd p)) (combine (samples out) expected)
  | _ => false
  end.

(** ** A small platform for running the program

    A file system with one category folder, three images of which one is
    unreadable, and the folder [data/results]; stand-ins for the OpenCV entry
    points: the measures of contours are those of rectilinear polygons, the
    filters keep the grid as it is, [normalize] returns [None] for a grid
    without samples, and [resize] returns a grid of the requested size
    filled with the number of the interpolation flag it received. *)

Module Fixture.

Definition covid_images : string := "data/covid_dataset/COVID/images".

Definition xray : gray := mk_ndarray (2, 2)%nat [[10; 20]; [30; 250]].
Definition flat : gray := mk_ndarray (2, 2)%nat [[7; 7]; [7; 7]].
Definition empty_grid : gray := mk_ndarray (0, 0)%nat [].
Definition wide : gray := mk_ndarray (4, 2048)%nat (repeat (repeat 7 2048) 4).
Definition tall : gray := mk_ndarray (27, 3)%nat (repeat (repeat 7 3) 27).

Definition exists_ (p : string) : bool :=
  existsb (String.eqb p)
    ["data/covid_dataset"; covid_images; "data/sample_images/xray.png";
     "data/sample_images/wide.png"; "data/results"]%string.

(** Listing a file, or a path that does not exist, raises. *)
Definition listdir (p : string) : option (list string) :=
  if String.eqb p covid_images
  then Some ["a.png"; "b.png"; "notes.txt"; "c.PNG"]%string
  else if String.eqb p "data/covid_dataset" then Some ["COVID"%string]
  else if String.eqb p "data/results" then Some []
  else None.

(** A file can be written into a folder that exists. *)
Definition to_csv (p : string) (rows : list analysis_result) : bool :=
  Str.startswith p "data/results/" && exists_ "data/results".

Definition imread (p : string) : option gray :=
  if existsb (String.eqb p)
       ["data/covid_dataset/COVID/images/a.png";
        "data/covid_dataset/COVID/images/c.PNG";
        "data/sample_images/xray.png"]%string
  then Some xray
  else if String.eqb p "data/sample_images/wide.png" then Some wide
  else None.

Definition flag_number (f : InterpolationFlags) : Z :=
  match f with
  | INTER_NEAREST => 0
  | INTER_LINEAR => 1
  | INTER_CUBIC => 2
  | INTER_AREA => 3
  end.

Definition resize (src : gray) (dsize : Z * Z) (f : InterpolationFlags)
  : option gray :=
  let '(new_width, new_height) := dsize in
  if negb (is_empty src) && (0 <? new_width) && (0 <? new_height) then
    Some (mk_ndarray (Z.to_nat new_height, Z.to_nat new_width)
            (repeat (repeat (flag_number f) (Z.to_nat new_width))
                    (Z.to_nat new_height)))
  else None.

Definition normalize (src : fgray) (alpha beta : Q) (norm_type : NormTypes)
  : option (option fgray) :=
  match norm_type with
  | NORM_MINMAX =>
      if is_empty src then Some None
      else match OpenCV.normalize_minmax src alpha beta with
           | Ok out => Some (Some out)
           | Raise _ => None
           end
  | _ => None
  end.

Definition keep_nonempty (src : gray) : option gray :=
  if is_empty src then None else Some src.

Definition components : list component :=
  [ mk_component (mk_KeyPoint (5, 5)%Q 12) 113 0.9 0.95;
    mk_component (mk_KeyPoint (40, 8)%Q 4) 12 0.9 0.95;
    mk_component (mk_KeyPoint (70, 70)%Q 16) 200 0.3 0.9;
    mk_component (mk_KeyPoint (6, 5)%Q 12) 110 0.8 0.95 ].

Definition rectangle (x y w h : Z) : Contour :=
  [(x, y); (x + w, y); (x + w, y + h); (x, y + h)].

Definition found_contours : list Contour :=
  [rectangle 0 0 10 10; rectangle 30 0 20 4; rectangle 60 0 2 2;
   rectangle 0 30 12 12].

(** Twice the signed area, by the shoelace formula. *)
Fixpoint shoelace (first prev : Z * Z) (rest : Contour) : Z :=
  match rest with
  | [] => fst prev * snd first - fst first * snd prev
  | p :: rest' => fst prev * snd p - fst p * snd prev + shoelace first p rest'
  end.

Definition contourArea (c : Contour) : Q :=
  match c with
  | [] => 0
  | p :: rest => Z.abs (shoelace p p rest) # 2
  end.

(** Length of a polygon whose sides are parallel to the axes. *)
Fixpoint path_length (prev : Z * Z) (rest : Contour) : Z :=
  match rest with
  | [] => 0
  | p :: rest' =>
      Z.abs (fst p - fst prev) + Z.abs (snd p - snd prev) + path_length p rest'
  end.

Definition arcLength (c : Contour) (closed : bool) : Q :=
  match c with
  | [] => 0
  | p :: rest =>
      inject_Z (path_length p rest
                + (if closed
                   then Z.abs (fst (last c p) - fst p) + Z.abs (snd (last c p) - snd p)
                   else 0))
  end.

Definition minEnclosingCircle (c : Contour) : Q * Q * Q :=
  let xs := map fst c in
  let ys := map snd c in
  let lo l := fold_right Z.min (hd 0 l) l in
  let hi l := fold_right Z.max (hd 0 l) l in
  (inject_Z (lo xs + hi xs) / 2, inject_Z (lo ys + hi ys) / 2,
   inject_Z ((hi xs - lo xs) + (hi ys - lo ys)) / 2)%Q.

Definition gray2bgr (src : gray) (code : ColorConversionCodes) : option bgr :=
  Some (amap (fun v => (v, v, v)) src).

Definition circle (img : bgr) (center : Z * Z) (radius : Z) (color : Z * Z * Z)
  (thickness : Z) : option bgr := Some img.

(** The machine, given what listing a folder and writing a CSV file do. *)
Definition machine (ls : string -> option (list string))
  (csv : string -> list analysis_result -> bool) : Platform :=
  {| os_path_exists := exists_;
     os_listdir := ls;
     df_to_csv := csv;
     cv2_imread := imread;
     cv2_imwrite := fun _ _ => true;
     cv2_resize := resize;
     cv2_normalize := normalize;
     CLAHE_apply := fun _ => keep_nonempty;
     cv2_GaussianBlur := fun src _ _ => keep_nonempty src;
     cv2_medianBlur := fun src _ => keep_nonempty src;
     blob_components := fun _ => Some components;
     cv2_adaptiveThreshold := fun src _ _ _ _ _ => keep_nonempty src;
     cv2_findContours := fun _ _ _ => Some found_contours;
     cv2_contourArea := contourArea;
     cv2_arcLength := arcLength;
     cv2_minEnclosingCircle := minEnclosingCircle;
     cv2_cvtColor := gray2bgr;
     cv2_circle := circle;
     plt_show := fun _ _ => true;
     plt_bar_charts := fun _ _ _ _ => true |}.

Definition platform : Platform := machine listdir to_csv.

(** The same machine when the images folders cannot be listed. *)
Definition unlistable : Platform := machine (fun _ => None) to_csv.

(** The same machine when the folder [data/results] is missing. *)
Definition without_results : Platform := machine listdir (fun _ _ => false).

End Fixture.

(** * Properties *)

(** ** The model runs *)

Example lower_example : Str.lower "Scan_01.PNG" = "scan_01.png"%string.
Proof. reflexivity. Qed.

Example endswith_example :
  Str.endswith_any "scan_01.png" CovidDatasetLoader.image_extensions = true.
Proof. reflexivity. Qed.

Example join_example :
  Str.join3 "data/covid_dataset" "normal" "images"
  = "data/covid_dataset/normal/images"%string.
Proof. reflexivity. Qed.

Example basename_example : Str.basename "data/x/images/a.png" = "a.png"%string.
Proof. reflexivity. Qed.

Example slice_examples :
  slice_to [1; 2; 3] 2 = [1; 2] /\ slice_to [1; 2; 3] 5 = [1; 2; 3]
  /\ slice_to [1; 2; 3] (-1) = [1; 2] /\ slice_to [1; 2; 3] (-7) = [].
Proof. repeat split. Qed.

(** ** Doubles: what rounding to nearest guarantees *)

Section Doubles.

Lemma digits2_pos_size (p : positive) : digits2_pos p = Pos.size p.
Proof. induction p as [p IH | p IH |]; simpl; now rewrite ?IH. Qed.

Lemma digits2_pos_bounds (p : positive) :
  2 ^ (Z.pos (digits2_pos p) - 1) <= Z.pos p < 2 ^ Z.pos (digits2_pos p).
Proof.
  rewrite digits2_pos_size.
  pose proof (Pos.size_gt p) as Hgt. pose proof (Pos.size_le p) as Hle.
  apply Pos2Z.pos_lt_pos in Hgt. apply Pos2Z.pos_le_pos in Hle.
  rewrite Pos2Z.inj_pow in Hgt, Hle.
  split; [| exact Hgt].
  replace (Z.pos (Pos.size p)) with (Z.succ (Z.pos (Pos.size p) - 1)) in Hle by lia.
  rewrite Z.pow_succ_r in Hle by lia. lia.
Qed.

Lemma digits2_pos_unique (p : positive) (d : Z) :
  2 ^ (d - 1) <= Z.pos p < 2 ^ d -> Z.pos (digits2_pos p) = d.
Proof.
  intros [Hlo Hhi]. destruct (digits2_pos_bounds p) as [Hlo' Hhi'].
  set (d' := Z.pos (digits2_pos p)) in *.
  assert (Hd : 0 < d).
  { destruct (Z_lt_le_dec 0 d) as [H | H]; [exact H |].
    destruct (Z.eq_dec d 0) as [-> | Hn]; [simpl in Hhi; lia |].
    rewrite Z.pow_neg_r in Hhi by lia. lia. }
  destruct (Z.lt_trichotomy d d') as [Hlt | [Heq | Hgt]]; [| symmetry; exact Heq |].
  - assert (2 ^ d <= 2 ^ (d' - 1)) by (apply Z.pow_le_mono_r; lia). lia.
  - assert (2 ^ d' <= 2 ^ (d - 1)) by (apply Z.pow_le_mono_r; lia). lia.
Qed.

Lemma located_bounds m l N D :
  0 < D -> Float.located m l N D -> m * D <= N < (m + 1) * D.
Proof.
  intros HD H. destruct l as [| []]; unfold Float.located in H; nia.
Qed.

Lemma shr_1_represents (mrs : shr_record) (N D : Z) :
  0 < D -> Float.represents mrs N D -> Float.represents (shr_1 mrs) N (2 * D).
Proof.
  intros HD [Hm Hl]. destruct mrs as [m r s].
  cbn [shr_m loc_of_shr_record] in Hm, Hl. unfold Float.represents.
  destruct m as [| p | p]; [| | lia].
  - destruct r, s; cbn [shr_1 shr_m loc_of_shr_record orb Float.located] in *;
      split; lia.
  - destruct p as [p | p |]; destruct r, s;
      cbn [shr_1 shr_m loc_of_shr_record orb Float.located] in *;
      split; try lia; nia.
Qed.

Lemma iter_shr_1_represents (p : positive) :
  forall (mrs : shr_record) (N D : Z),
    0 < D -> Float.represents mrs N D ->
    Float.represents (iter_pos shr_1 p mrs) N (D * 2 ^ Z.pos p).
Proof.
  induction p as [p IH | p IH |]; intros mrs N D HD H; simpl iter_pos.
  - replace (D * 2 ^ Z.pos p~1) with (2 * D * 2 ^ Z.pos p * 2 ^ Z.pos p).
    + assert (0 < 2 ^ Z.pos p) by (apply Z.pow_pos_nonneg; lia).
      apply IH; [nia |]. apply IH; [lia |]. apply shr_1_represents; assumption.
    + replace (Z.pos p~1) with (Z.pos p + Z.pos p + 1) by lia.
      rewrite !Z.pow_add_r, Z.pow_1_r by lia. ring.
  - replace (D * 2 ^ Z.pos p~0) with (D * 2 ^ Z.pos p * 2 ^ Z.pos p).
    + assert (0 < 2 ^ Z.pos p) by (apply Z.pow_pos_nonneg; lia).
      apply IH; [nia |]. apply IH; assumption.
    + replace (Z.pos p~0) with (Z.pos p + Z.pos p) by lia.
      rewrite Z.pow_add_r by lia. ring.
  - replace (D * 2 ^ 1) with (2 * D) by (rewrite Z.pow_1_r; ring).
    apply shr_1_represents; assumption.
Qed.

Lemma shr_represents (mrs : shr_record) (e n N D : Z) :
  0 < D -> 0 <= n -> Float.represents mrs N D ->
  Float.represents (fst (shr mrs e n)) N (D * 2 ^ n) /\ snd (shr mrs e n) = e + n.
Proof.
  intros HD Hn H. unfold shr. destruct n as [| p | p]; [| | lia].
  - simpl. rewrite Z.mul_1_r. split; [exact H | lia].
  - simpl fst. simpl snd. split; [| reflexivity].
    apply iter_shr_1_represents; assumption.
Qed.

Lemma loc_of_shr_record_of_loc m l :
  loc_of_shr_record (shr_record_of_loc m l) = l
  /\ shr_m (shr_record_of_loc m l) = m.
Proof. destruct l as [| []]; split; reflexivity. Qed.

Lemma round_nearest_even_located m l N D :
  0 < D -> Float.located m l N D ->
  let r := round_nearest_even m l in
  m <= r <= m + 1 /\ - D <= 2 * (r * D - N) <= D.
Proof.
  intros HD H. destruct l as [| []]; cbn [Float.located round_nearest_even] in *.
  - nia.
  - destruct (Z.even m); nia.
  - nia.
  - nia.
Qed.

Lemma fexp_normal (e : Z) :
  - 1074 <= e - Float.prec -> fexp Float.prec Float.emax e = e - Float.prec.
Proof. intros H. unfold fexp, emin, Float.prec, Float.emax in *. lia. Qed.

Lemma binary_round_aux_normal (s : bool) (mx ex : Z) (lx : location) (N D : Z) :
  0 < D -> 0 < mx -> Float.located mx lx N D ->
  let n := Zdigits2 mx - Float.prec in
  0 <= n -> - 1074 <= ex + n -> ex + n < Float.emax - Float.prec ->
  exists m1 : Z,
    2 ^ 52 <= m1 <= 2 ^ 53
    /\ - (D * 2 ^ n) <= 2 * (m1 * (D * 2 ^ n) - N) <= D * 2 ^ n
    /\ binary_round_aux Float.prec Float.emax s mx ex lx
       = if m1 <? 2 ^ 53 then S754_finite s (Z.to_pos m1) (ex + n)
         else S754_finite s (Z.to_pos (2 ^ 52)) (ex + n + 1).
Proof.
  intros HD Hmx Hloc n Hn Hlo Hhi.
  destruct mx as [| px | px]; try lia.
  cbn [Zdigits2] in n.
  pose proof (digits2_pos_bounds px) as Hdig.
  assert (Hd : Z.pos (digits2_pos px) = n + 53) by (unfold n, Float.prec; lia).
  rewrite Hd in Hdig. replace (n + 53 - 1) with (52 + n) in Hdig by lia.
  rewrite !Z.pow_add_r in Hdig by lia.
  assert (Hpow : 0 < 2 ^ n) by (apply Z.pow_pos_nonneg; lia).
  unfold binary_round_aux, shr_fexp. cbn [Zdigits2].
  rewrite fexp_normal by (unfold Float.prec in *; lia).
  replace (Z.pos (digits2_pos px) + ex - Float.prec - ex) with n by (unfold n; lia).
  assert (Hrep : Float.represents (shr_record_of_loc (Z.pos px) lx) N D).
  { destruct (loc_of_shr_record_of_loc (Z.pos px) lx) as [El Em].
    split; [rewrite Em; lia | rewrite El, Em; exact Hloc]. }
  destruct (shr_represents _ ex n N D HD Hn Hrep) as [[Hmn Hln] He'].
  destruct (shr (shr_record_of_loc (Z.pos px) lx) ex n) as [mrs' e'].
  cbn [fst snd] in Hmn, Hln, He'. subst e'.
  set (mn := shr_m mrs') in *. set (ln := loc_of_shr_record mrs') in *.
  assert (HT : 0 < D * 2 ^ n) by nia.
  pose proof (located_bounds _ _ _ _ HT Hln) as Hb.
  pose proof (located_bounds _ _ _ _ HD Hloc) as Hbx.
  assert (Hmn52 : 2 ^ 52 <= mn < 2 ^ 53).
  { set (T := D * 2 ^ n) in *.
    assert (2 ^ 52 * T <= Z.pos px * D) by (unfold T; nia).
    assert ((Z.pos px + 1) * D <= 2 ^ 53 * T) by (unfold T; nia).
    split; nia. }
  destruct (round_nearest_even_located _ _ _ _ HT Hln) as [Hr Herr].
  set (m1 := round_nearest_even mn ln) in *.
  exists m1. split; [lia |]. split; [exact Herr |].
  destruct (m1 <? 2 ^ 53) eqn:E53.
  - apply Z.ltb_lt in E53.
    destruct m1 as [| p1 | p1] eqn:Em1; try lia.
    cbn [Zdigits2].
    rewrite (digits2_pos_unique p1 53) by (change (53 - 1) with 52; lia).
    rewrite fexp_normal by (unfold Float.prec; lia).
    replace (53 + (ex + n) - Float.prec - (ex + n)) with 0 by (unfold Float.prec; lia).
    cbn [shr shr_record_of_loc shr_m].
    replace (ex + n <=? Float.emax - Float.prec) with true by (symmetry; apply Z.leb_le; lia).
    reflexivity.
  - apply Z.ltb_ge in E53.
    assert (Em1 : m1 = 2 ^ 53) by lia. rewrite Em1.
    change (2 ^ 53) with 9007199254740992. cbn [Zdigits2].
    change (Z.pos (digits2_pos 9007199254740992)) with 54.
    rewrite fexp_normal by (unfold Float.prec; lia).
    replace (54 + (ex + n) - Float.prec - (ex + n)) with 1 by (unfold Float.prec; lia).
    cbn [shr shr_record_of_loc iter_pos shr_1 shr_m].
    replace (ex + n + 1 <=? Float.emax - Float.prec) with true by (symmetry; apply Z.leb_le; lia).
    reflexivity.
Qed.

Lemma iter_xO_pow (p d : positive) :
  Z.pos (Pos.iter xO p d) = Z.pos p * 2 ^ Z.pos d.
Proof.
  induction d as [| d IH] using Pos.peano_ind.
  - simpl. lia.
  - rewrite Pos.iter_succ, Pos2Z.inj_xO, IH, Pos2Z.inj_succ, Z.pow_succ_r by lia.
    ring.
Qed.

Lemma shl_align_spec (mx : positive) (ex ex' : Z) :
  ex' <= ex ->
  snd (shl_align mx ex ex') = ex'
  /\ Z.pos (fst (shl_align mx ex ex')) = Z.pos mx * 2 ^ (ex - ex').
Proof.
  intros Hle. unfold shl_align.
  destruct (ex' - ex) as [| d | d] eqn:E; [| lia |]; cbn [fst snd].
  - replace (ex - ex') with 0 by lia. split; lia.
  - split; [reflexivity |]. rewrite iter_xO_pow. f_equal. f_equal. lia.
Qed.

(** An integer below [2^53] in magnitude is a double. *)
Lemma binary_round_int (s : bool) (p : positive) :
  Z.pos p < 2 ^ 53 ->
  exists m e,
    binary_round Float.prec Float.emax s p 0 = S754_finite s m e
    /\ 2 ^ 52 <= Z.pos m < 2 ^ 53
    /\ - 52 <= e <= 0
    /\ Z.pos m = Z.pos p * 2 ^ (- e).
Proof.
  intros Hp. pose proof (digits2_pos_bounds p) as Hdig.
  set (d := Z.pos (digits2_pos p)) in *.
  assert (Hd1 : 1 <= d) by (unfold d; lia).
  assert (Hd53 : d <= 53).
  { destruct (Z_le_gt_dec d 53) as [H | H]; [exact H |].
    assert (2 ^ 53 <= 2 ^ (d - 1)) by (apply Z.pow_le_mono_r; lia). lia. }
  unfold binary_round. rewrite Z.add_0_r. fold d.
  rewrite fexp_normal by (unfold Float.prec; lia).
  destruct (shl_align_spec p 0 (d - Float.prec)) as [He Hm]; [unfold Float.prec; lia |].
  destruct (shl_align p 0 (d - Float.prec)) as [mz ez]. cbn [fst snd] in He, Hm.
  subst ez. replace (0 - (d - Float.prec)) with (53 - d) in Hm by (unfold Float.prec; lia).
  assert (Hmz : 2 ^ 52 <= Z.pos mz < 2 ^ 53).
  { assert (E52 : 2 ^ 52 = 2 ^ (d - 1) * 2 ^ (53 - d))
      by (rewrite <- Z.pow_add_r by lia; f_equal; lia).
    assert (E53 : 2 ^ 53 = 2 ^ d * 2 ^ (53 - d))
      by (rewrite <- Z.pow_add_r by lia; f_equal; lia).
    assert (0 < 2 ^ (53 - d)) by (apply Z.pow_pos_nonneg; lia).
    rewrite Hm, E52, E53. split; nia. }
  assert (Hdz : Z.pos (digits2_pos mz) = 53)
    by (apply digits2_pos_unique; change (53 - 1) with 52; exact Hmz).
  assert (Hloc : Float.located (Z.pos mz) loc_Exact (Z.pos mz) 1)
    by (cbn [Float.located]; lia).
  pose proof (binary_round_aux_normal s (Z.pos mz) (d - Float.prec) loc_Exact
                (Z.pos mz) 1 ltac:(lia) ltac:(lia) Hloc) as Hbra.
  cbv zeta in Hbra. cbn [Zdigits2] in Hbra. rewrite Hdz in Hbra.
  change (53 - Float.prec) with 0 in Hbra.
  destruct Hbra as [m1 [Hm1 [Herr Hres]]]; try (unfold Float.prec, Float.emax; lia).
  rewrite Z.pow_0_r, Z.mul_1_r in Herr. rewrite Z.add_0_r in Hres.
  assert (Em1 : m1 = Z.pos mz) by lia. subst m1.
  replace (Z.pos mz <? 2 ^ 53) with true in Hres
    by (symmetry; apply Z.ltb_lt; lia).
  cbn [Z.to_pos] in Hres.
  exists mz, (d - Float.prec). split; [exact Hres |]. split; [exact Hmz |].
  split; [unfold Float.prec; lia |].
  rewrite Hm. f_equal. f_equal. unfold Float.prec. lia.
Qed.

Lemma new_location_located (b r q : Z) :
  0 < b -> 0 <= r < b -> Float.located q (new_location b r) (q * b + r) b.
Proof.
  intros Hb Hr. unfold new_location.
  destruct (Z.even b) eqn:Eb.
  - unfold new_location_even. destruct (r =? 0) eqn:E0.
    + apply Z.eqb_eq in E0. cbn [Float.located]. lia.
    + apply Z.eqb_neq in E0.
      destruct (Z.compare_spec (2 * r) b); cbn [Float.located]; nia.
  - unfold new_location_odd. destruct (r =? 0) eqn:E0.
    + apply Z.eqb_eq in E0. cbn [Float.located]. lia.
    + apply Z.eqb_neq in E0.
      assert (Hodd : Z.odd b = true) by (rewrite <- Z.negb_even, Eb; reflexivity).
      apply Z.odd_spec in Hodd. destruct Hodd as [k Hk].
      destruct (Z.compare_spec (2 * r + 1) b); cbn [Float.located]; nia.
Qed.

(** The quotient of two positive mantissas, [m1] of at most 53 bits. *)
Lemma SFdiv_core_binary_normal (m1 m2 : positive) (e1 e2 : Z) :
  let d1 := Z.pos (digits2_pos m1) in
  let d2 := Z.pos (digits2_pos m2) in
  d1 <= 53 ->
  - 1074 <= d1 + e1 - (d2 + e2) - Float.prec ->
  exists q l,
    SFdiv_core_binary Float.prec Float.emax (Z.pos m1) e1 (Z.pos m2) e2
    = (q, d1 + e1 - (d2 + e2) - Float.prec, l)
    /\ Float.located q l (Z.pos m1 * 2 ^ (53 + d2 - d1)) (Z.pos m2)
    /\ 2 ^ 52 <= q < 2 ^ 54.
Proof.
  intros d1 d2 Hd1 Hnorm.
  pose proof (digits2_pos_bounds m1) as Hb1.
  pose proof (digits2_pos_bounds m2) as Hb2. fold d1 in Hb1. fold d2 in Hb2.
  assert (Hd2 : 1 <= d2) by (unfold d2; lia).
  assert (Hd1' : 1 <= d1) by (unfold d1; lia).
  unfold SFdiv_core_binary. cbn [Zdigits2]. fold d1 d2.
  rewrite fexp_normal by exact Hnorm.
  rewrite Z.min_l by (unfold Float.prec; lia).
  replace (e1 - e2 - (d1 + e1 - (d2 + e2) - Float.prec)) with (53 + d2 - d1)
    by (unfold Float.prec; lia).
  set (s := 53 + d2 - d1) in *.
  assert (Hs : 0 < s) by (unfold s; lia).
  destruct s as [| ps | ps] eqn:Es; try lia. rewrite <- Es in *.
  rewrite Z.shiftl_mul_pow2 by lia.
  pose proof (Z_div_mod (Z.pos m1 * 2 ^ s) (Z.pos m2) ltac:(lia)) as Hdiv.
  destruct (Z.div_eucl (Z.pos m1 * 2 ^ s) (Z.pos m2)) as [q r].
  destruct Hdiv as [Hq Hr].
  exists q, (new_location (Z.pos m2) r). split; [reflexivity |]. split.
  - rewrite Hq. replace (Z.pos m2 * q + r) with (q * Z.pos m2 + r) by ring.
    apply new_location_located; lia.
  - assert (Hlow : 2 ^ 52 * 2 ^ d2 <= Z.pos m1 * 2 ^ s).
    { replace (2 ^ 52 * 2 ^ d2) with (2 ^ (d1 - 1) * 2 ^ s).
      - assert (0 < 2 ^ s) by (apply Z.pow_pos_nonneg; lia). nia.
      - rewrite <- !Z.pow_add_r by lia. f_equal. unfold s. lia. }
    assert (Hhigh : Z.pos m1 * 2 ^ s < 2 ^ 54 * 2 ^ (d2 - 1)).
    { replace (2 ^ 54 * 2 ^ (d2 - 1)) with (2 ^ d1 * 2 ^ s).
      - assert (0 < 2 ^ s) by (apply Z.pow_pos_nonneg; lia). nia.
      - rewrite <- !Z.pow_add_r by lia. f_equal. unfold s. lia. }
    assert (0 < 2 ^ 52) by reflexivity. assert (0 < 2 ^ 54) by reflexivity.
    split; nia.
Qed.

Local Open Scope Q_scope.

Lemma two_pow_pos (e : Z) : 0 < 2 ^ e.
Proof. apply Qpower_0_lt. reflexivity. Qed.

Lemma two_pow_add (a b : Z) : 2 ^ (a + b) == 2 ^ a * 2 ^ b.
Proof. apply Qpower_plus. discriminate. Qed.

Lemma two_pow_inject (n : Z) : (0 <= n)%Z -> inject_Z (2 ^ n) == 2 ^ n.
Proof. intros Hn. rewrite Zpower_Qpower by exact Hn. reflexivity. Qed.

Lemma inject_Z_pos (z : Z) : (0 < z)%Z -> 0 < inject_Z z.
Proof. intros H. change 0 with (inject_Z 0). rewrite <- Zlt_Qlt. exact H. Qed.

(** In the normal range [binary_round_aux] returns a double within half a
    unit in the last place of the ratio it was given. *)
Lemma binary_round_aux_near (s : bool) (mx ex : Z) (lx : location) (N D : Z) :
  (0 < D)%Z -> (0 < mx)%Z -> Float.located mx lx N D ->
  let n := (Zdigits2 mx - Float.prec)%Z in
  (0 <= n)%Z -> (- 1074 <= ex + n)%Z -> (ex + n < Float.emax - Float.prec)%Z ->
  exists m e,
    binary_round_aux Float.prec Float.emax s mx ex lx = S754_finite s m e
    /\ (2 ^ 52 <= Z.pos m < 2 ^ 53)%Z
    /\ (ex + n <= e <= ex + n + 1)%Z
    /\ Float.near (inject_Z (Z.pos m) * 2 ^ e)
         (inject_Z N / inject_Z D * 2 ^ ex).
Proof.
  intros HD Hmx Hloc n Hn Hlo Hhi.
  destruct (binary_round_aux_normal s mx ex lx N D HD Hmx Hloc Hn Hlo Hhi)
    as [m1 [Hm1 [Herr Hres]]]. fold n in Herr, Hres.
  assert (Hv : exists m e,
    binary_round_aux Float.prec Float.emax s mx ex lx = S754_finite s m e
    /\ (2 ^ 52 <= Z.pos m < 2 ^ 53)%Z
    /\ (ex + n <= e <= ex + n + 1)%Z
    /\ inject_Z (Z.pos m) * 2 ^ e == inject_Z m1 * (2 ^ ex * inject_Z (2 ^ n))).
  { destruct (m1 <? 2 ^ 53)%Z eqn:E.
    - apply Z.ltb_lt in E. exists (Z.to_pos m1), (ex + n)%Z.
      split; [exact Hres |]. rewrite Z2Pos.id by lia.
      split; [lia |]. split; [lia |].
      rewrite two_pow_add, (two_pow_inject n Hn). reflexivity.
    - apply Z.ltb_ge in E. exists (Z.to_pos (2 ^ 52)), (ex + n + 1)%Z.
      split; [exact Hres |]. split; [cbn; lia |]. split; [lia |].
      assert (Em1 : m1 = (2 ^ 53)%Z) by lia. rewrite Em1.
      rewrite !two_pow_add, (two_pow_inject n Hn).
      change (inject_Z (Z.pos (Z.to_pos (2 ^ 52)))) with (inject_Z (2 ^ 52)).
      change (2 ^ 1) with 2. change (inject_Z (2 ^ 53)) with (inject_Z (2 ^ 52) * 2).
      ring. }
  destruct Hv as [m [e [Hr [Hm [He Hval]]]]].
  exists m, e. split; [exact Hr |]. split; [exact Hm |]. split; [exact He |].
  unfold Float.near. rewrite Hval.
  assert (HP : 0 < inject_Z (2 ^ n)) by (apply inject_Z_pos, Z.pow_pos_nonneg; lia).
  assert (HB : 0 < 2 ^ ex) by apply two_pow_pos.
  assert (Hd : 0 < inject_Z D) by (apply inject_Z_pos; exact HD).
  assert (HM : 4503599627370496 <= inject_Z m1).
  { change 4503599627370496 with (inject_Z (2 ^ 52)). rewrite <- Zle_Qle. lia. }
  destruct Herr as [Herr1 Herr2].
  rewrite Zle_Qle in Herr1, Herr2.
  unfold Z.sub in Herr1, Herr2.
  repeat first [ rewrite inject_Z_plus in Herr1 | rewrite inject_Z_mult in Herr1
               | rewrite inject_Z_opp in Herr1 ].
  repeat first [ rewrite inject_Z_plus in Herr2 | rewrite inject_Z_mult in Herr2
               | rewrite inject_Z_opp in Herr2 ].
  change (inject_Z 2) with 2 in Herr1, Herr2.
  set (P := inject_Z (2 ^ n)) in *. set (B := 2 ^ ex) in *.
  set (d := inject_Z D) in *. set (M := inject_Z m1) in *.
  assert (E : inject_Z N == inject_Z N / d * d) by (field; lra).
  set (Y := inject_Z N / d) in *. clearbody Y P B d M.
  rewrite E in Herr1, Herr2.
  assert (HY : - P <= 2 * (M * P - Y) <= P) by nra.
  assert (HY2 : M * P * (1 - Float.unit_roundoff) <= Y
                <= M * P * (1 + Float.unit_roundoff))
    by (unfold Float.unit_roundoff; nra).
  destruct HY2 as [HY2 HY3]. split.
  - setoid_replace (M * (B * P) * (1 - Float.unit_roundoff))
      with (M * P * (1 - Float.unit_roundoff) * B) by ring.
    apply Qmult_le_compat_r; lra.
  - setoid_replace (M * (B * P) * (1 + Float.unit_roundoff))
      with (M * P * (1 + Float.unit_roundoff) * B) by ring.
    apply Qmult_le_compat_r; lra.
Qed.

Local Close Scope Q_scope.

Lemma value_int (m : positive) (e n : Z) :
  - 52 <= e <= 0 -> Z.pos m = n * 2 ^ (- e) ->
  (inject_Z (Z.pos m) * 2 ^ e == inject_Z n)%Q.
Proof.
  intros He Hm. rewrite Hm, inject_Z_mult, two_pow_inject by lia.
  rewrite <- Qmult_assoc, <- two_pow_add.
  replace (- e + e) with 0 by lia. change (2 ^ 0)%Q with 1%Q. ring.
Qed.

(** A positive integer below [2^53] converts without rounding. *)
Lemma of_int_exact (n : Z) :
  0 < n < 2 ^ 53 ->
  exists m e,
    Float.of_int n = Ok (S754_finite false m e)
    /\ 2 ^ 52 <= Z.pos m < 2 ^ 53
    /\ - 52 <= e <= 0
    /\ (inject_Z (Z.pos m) * 2 ^ e == inject_Z n)%Q.
Proof.
  intros Hn. destruct n as [| p | p]; try lia.
  destruct (binary_round_int false p ltac:(lia)) as [m [e [Hr [Hm [He Hv]]]]].
  exists m, e. unfold Float.of_int. cbn [binary_normalize]. rewrite Hr.
  split; [reflexivity |]. split; [exact Hm |]. split; [exact He |].
  apply value_int; assumption.
Qed.

(** Every integer below [2^53] in magnitude converts. *)
Lemma of_int_small (n : Z) :
  Z.abs n < 2 ^ 53 ->
  exists x, Float.of_int n = Ok x /\ Float.is_zero x = (n =? 0).
Proof.
  intros Hn. unfold Float.of_int. destruct n as [| p | p]; cbn [binary_normalize].
  - eexists. split; reflexivity.
  - destruct (binary_round_int false p ltac:(lia)) as [m [e [-> _]]].
    eexists. split; reflexivity.
  - destruct (binary_round_int true p ltac:(lia)) as [m [e [-> _]]].
    eexists. split; reflexivity.
Qed.

Lemma digits_at_most_53 (p : positive) :
  Z.pos p < 2 ^ 53 -> 1 <= Z.pos (digits2_pos p) <= 53.
Proof.
  intros Hp. pose proof (digits2_pos_bounds p) as Hb.
  split; [lia |].
  destruct (Z_le_gt_dec (Z.pos (digits2_pos p)) 53) as [H | H]; [exact H |].
  assert (2 ^ 53 <= 2 ^ (Z.pos (digits2_pos p) - 1))
    by (apply Z.pow_le_mono_r; lia).
  lia.
Qed.

Lemma digits_of_quotient (q : Z) :
  2 ^ 52 <= q < 2 ^ 54 -> 0 <= Zdigits2 q - Float.prec <= 1.
Proof.
  intros Hq. destruct q as [| p | p]; try lia. cbn [Zdigits2].
  destruct (Z_lt_le_dec (Z.pos p) (2 ^ 53)) as [H | H].
  - rewrite (digits2_pos_unique p 53) by (change (53 - 1) with 52; lia).
    unfold Float.prec. lia.
  - rewrite (digits2_pos_unique p 54) by (change (54 - 1) with 53; lia).
    unfold Float.prec. lia.
Qed.

Local Open Scope Q_scope.

(** The quotient of two positive integers below [2^53]. *)
Lemma int_truediv_near (a b : Z) :
  (0 < a < 2 ^ 53)%Z -> (0 < b < 2 ^ 53)%Z ->
  exists m e,
    Float.int_truediv a b = Ok (S754_finite false m e)
    /\ (2 ^ 52 <= Z.pos m < 2 ^ 53)%Z
    /\ (- 105 <= e <= 1)%Z
    /\ Float.near (inject_Z (Z.pos m) * 2 ^ e) (inject_Z a / inject_Z b).
Proof.
  intros Ha Hb. destruct a as [| pa | pa]; try lia.
  destruct b as [| pb | pb]; try lia.
  pose proof (digits_at_most_53 pa ltac:(lia)) as Hda.
  pose proof (digits_at_most_53 pb ltac:(lia)) as Hdb.
  destruct (SFdiv_core_binary_normal pa pb 0 0 ltac:(lia) ltac:(unfold Float.prec; lia))
    as [q [l [Hcore [Hloc Hq]]]].
  pose proof (digits_of_quotient q Hq) as Hn.
  assert (Hq0 : (0 < q)%Z) by (assert (0 < 2 ^ 52)%Z by reflexivity; lia).
  destruct (binary_round_aux_near false q
              (Z.pos (digits2_pos pa) + 0 - (Z.pos (digits2_pos pb) + 0) - Float.prec)
              l _ _ (Pos2Z.is_pos pb) Hq0 Hloc)
    as [m [e [Hr [Hm [He Hnear]]]]]; try (unfold Float.prec, Float.emax in *; lia).
  exists m, e. unfold Float.int_truediv.
  cbn [Z.eqb Z.abs Z.ltb Z.compare xorb]. rewrite Hcore, Hr.
  split; [reflexivity |]. split; [exact Hm |].
  split; [unfold Float.prec in *; lia |].
  unfold Float.near in *.
  assert (E : inject_Z (Z.pos pa * 2 ^ (53 + Z.pos (digits2_pos pb)
                                        - Z.pos (digits2_pos pa)))
              / inject_Z (Z.pos pb)
              * 2 ^ (Z.pos (digits2_pos pa) + 0
                     - (Z.pos (digits2_pos pb) + 0) - Float.prec)
              == inject_Z (Z.pos pa) / inject_Z (Z.pos pb)).
  { rewrite inject_Z_mult, two_pow_inject by lia.
    set (s := (53 + Z.pos (digits2_pos pb) - Z.pos (digits2_pos pa))%Z).
    replace (Z.pos (digits2_pos pa) + 0 - (Z.pos (digits2_pos pb) + 0) - Float.prec)%Z
      with (- s)%Z by (unfold s, Float.prec; lia).
    rewrite Qpower_opp.
    assert (0 < 2 ^ s) by apply two_pow_pos.
    assert (0 < inject_Z (Z.pos pb)) by (apply inject_Z_pos; lia).
    field. split; lra. }
  rewrite E in Hnear. exact Hnear.
Qed.

(** The quotient of two positive normal doubles. *)
Lemma truediv_near (mx my : positive) (ex ey : Z) :
  (2 ^ 52 <= Z.pos mx < 2 ^ 53)%Z -> (2 ^ 52 <= Z.pos my < 2 ^ 53)%Z ->
  (- 52 <= ex <= 0)%Z -> (- 52 <= ey <= 0)%Z ->
  exists m e,
    Float.truediv (S754_finite false mx ex) (S754_finite false my ey)
    = Ok (S754_finite false m e)
    /\ (2 ^ 52 <= Z.pos m < 2 ^ 53)%Z
    /\ (- 105 <= e <= 1)%Z
    /\ Float.near (inject_Z (Z.pos m) * 2 ^ e)
         (inject_Z (Z.pos mx) * 2 ^ ex / (inject_Z (Z.pos my) * 2 ^ ey)).
Proof.
  intros Hmx Hmy Hex Hey.
  assert (Hdx : Z.pos (digits2_pos mx) = 53%Z)
    by (apply digits2_pos_unique; change (53 - 1)%Z with 52%Z; exact Hmx).
  assert (Hdy : Z.pos (digits2_pos my) = 53%Z)
    by (apply digits2_pos_unique; change (53 - 1)%Z with 52%Z; exact Hmy).
  destruct (SFdiv_core_binary_normal mx my ex ey ltac:(lia)
              ltac:(unfold Float.prec; lia)) as [q [l [Hcore [Hloc Hq]]]].
  rewrite Hdx, Hdy in Hcore, Hloc.
  pose proof (digits_of_quotient q Hq) as Hn.
  assert (Hq0 : (0 < q)%Z) by (assert (0 < 2 ^ 52)%Z by reflexivity; lia).
  destruct (binary_round_aux_near false q (53 + ex - (53 + ey) - Float.prec)
              l _ _ (Pos2Z.is_pos my) Hq0 Hloc)
    as [m [e [Hr [Hm [He Hnear]]]]]; try (unfold Float.prec, Float.emax in *; lia).
  exists m, e. unfold Float.truediv. cbn [Float.is_zero SFdiv xorb].
  rewrite Hcore, Hr.
  split; [reflexivity |]. split; [exact Hm |].
  split; [unfold Float.prec in *; lia |].
  unfold Float.near in *.
  assert (E : inject_Z (Z.pos mx * 2 ^ (53 + 53 - 53)) / inject_Z (Z.pos my)
              * 2 ^ (53 + ex - (53 + ey) - Float.prec)
              == inject_Z (Z.pos mx) * 2 ^ ex / (inject_Z (Z.pos my) * 2 ^ ey)).
  { rewrite inject_Z_mult, two_pow_inject by lia.
    replace (53 + ex - (53 + ey) - Float.prec)%Z with (ex - ey - 53)%Z
      by (unfold Float.prec; lia).
    change (53 + 53 - 53)%Z with 53%Z.
    rewrite !Qpower_minus by discriminate.
    assert (HA : 0 < 2 ^ ey) by apply two_pow_pos.
    assert (HC : 0 < 2 ^ 53) by apply two_pow_pos.
    assert (0 < inject_Z (Z.pos my)) by (apply inject_Z_pos; lia).
    set (A := 2 ^ ey) in *. set (B := 2 ^ ex). set (C := 2 ^ 53) in *.
    clearbody A B C. field. repeat split; lra. }
  rewrite E in Hnear. exact Hnear.
Qed.

(** The product of two positive normal doubles. *)
Lemma mul_near (mx my : positive) (ex ey : Z) :
  (2 ^ 52 <= Z.pos mx < 2 ^ 53)%Z -> (2 ^ 52 <= Z.pos my < 2 ^ 53)%Z ->
  (- 52 <= ex <= 0)%Z -> (- 105 <= ey <= 1)%Z ->
  exists m e,
    Float.mul (S754_finite false mx ex) (S754_finite false my ey)
    = S754_finite false m e
    /\ (2 ^ 52 <= Z.pos m < 2 ^ 53)%Z
    /\ Float.near (inject_Z (Z.pos m) * 2 ^ e)
         (inject_Z (Z.pos mx) * 2 ^ ex * (inject_Z (Z.pos my) * 2 ^ ey)).
Proof.
  intros Hmx Hmy Hex Hey.
  assert (Hprod : (2 ^ 104 <= Z.pos (mx * my) < 2 ^ 106)%Z).
  { rewrite Pos2Z.inj_mul.
    change (2 ^ 104)%Z with (2 ^ 52 * 2 ^ 52)%Z.
    change (2 ^ 106)%Z with (2 ^ 53 * 2 ^ 53)%Z.
    assert (0 < 2 ^ 52)%Z by reflexivity. assert (0 < 2 ^ 53)%Z by reflexivity.
    split; nia. }
  assert (Hn : (52 <= Zdigits2 (Z.pos (mx * my)) - Float.prec <= 53)%Z).
  { cbn [Zdigits2].
    destruct (Z_lt_le_dec (Z.pos (mx * my)) (2 ^ 105)) as [H | H].
    - rewrite (digits2_pos_unique (mx * my) 105)
        by (change (105 - 1)%Z with 104%Z; lia).
      unfold Float.prec. lia.
    - rewrite (digits2_pos_unique (mx * my) 106)
        by (change (106 - 1)%Z with 105%Z; lia).
      unfold Float.prec. lia. }
  assert (Hloc : Float.located (Z.pos (mx * my)) loc_Exact (Z.pos (mx * my)) 1)
    by (cbn [Float.located]; lia).
  destruct (binary_round_aux_near false (Z.pos (mx * my)) (ex + ey) loc_Exact
              _ _ Z.lt_0_1 (Pos2Z.is_pos (mx * my)) Hloc)
    as [m [e [Hr [Hm [He Hnear]]]]]; try (unfold Float.prec, Float.emax in *; lia).
  exists m, e. unfold Float.mul. cbn [SFmul xorb]. rewrite Hr.
  split; [reflexivity |]. split; [exact Hm |].
  unfold Float.near in *.
  assert (E : inject_Z (Z.pos (mx * my)) / inject_Z 1 * 2 ^ (ex + ey)
              == inject_Z (Z.pos mx) * 2 ^ ex * (inject_Z (Z.pos my) * 2 ^ ey)).
  { rewrite Pos2Z.inj_mul, inject_Z_mult, two_pow_add.
    change (inject_Z 1) with 1.
    set (A := 2 ^ ex). set (B := 2 ^ ey). clearbody A B. field. }
  rewrite E in Hnear. exact Hnear.
Qed.

(** [int] of a positive double is the integer part of its value. *)
Lemma int_floor (m : positive) (e : Z) :
  exists k,
    Float.int (S754_finite false m e) = Ok k
    /\ inject_Z k <= inject_Z (Z.pos m) * 2 ^ e < inject_Z k + 1.
Proof.
  unfold Float.int. destruct (0 <=? e)%Z eqn:E.
  - apply Z.leb_le in E. eexists. split; [reflexivity |].
    rewrite inject_Z_mult, two_pow_inject by exact E. split; lra.
  - apply Z.leb_gt in E. eexists. split; [reflexivity |].
    assert (Hp : (0 < 2 ^ (- e))%Z) by (apply Z.pow_pos_nonneg; lia).
    pose proof (Z.div_mod (Z.pos m) (2 ^ (- e)) ltac:(lia)) as Hdm.
    pose proof (Z.mod_pos_bound (Z.pos m) (2 ^ (- e)) Hp) as Hmod.
    set (k := (Z.pos m / 2 ^ (- e))%Z) in *.
    assert (H1 : (k * 2 ^ (- e) <= Z.pos m)%Z) by lia.
    assert (H2 : (Z.pos m < (k + 1) * 2 ^ (- e))%Z) by lia.
    rewrite Zle_Qle in H1. rewrite Zlt_Qlt in H2.
    rewrite inject_Z_mult, two_pow_inject in H1, H2 by lia.
    rewrite inject_Z_plus in H2. change (inject_Z 1) with 1 in H2.
    assert (Epow : 2 ^ e == / 2 ^ (- e))
      by (rewrite <- Qpower_opp; replace (- - e)%Z with e by lia; reflexivity).
    rewrite Epow.
    assert (HP : 0 < 2 ^ (- e)) by apply two_pow_pos.
    set (P := 2 ^ (- e)) in *. clearbody P.
    change (inject_Z (Z.pos m) * / P) with (inject_Z (Z.pos m) / P).
    split.
    + apply Qle_shift_div_l; [exact HP | exact H1].
    + apply Qlt_shift_div_r; [exact HP | exact H2].
Qed.

Local Close Scope Q_scope.

(** Two roundings and a truncation: the integer part of the float product
    [a * (c / b)] is the integer part of [a * c / b] or one less, and it
    is one less only when [b] divides [a * c]. *)
Lemma scaled_floor (a b c nh : Z) (vs vp : Q) :
  0 < a -> 0 < b -> 0 < c -> a * c <= 2 ^ 51 ->
  Float.near vs (inject_Z c / inject_Z b) ->
  Float.near vp (inject_Z a * vs) ->
  (inject_Z nh <= vp < inject_Z nh + 1)%Q ->
  nh * b <= a * c <= (nh + 1) * b.
Proof.
  intros Ha Hb Hc Hac [Hs1 Hs2] [Hp1 Hp2] [Hn1 Hn2].
  unfold Float.unit_roundoff in *.
  assert (HA : (0 < inject_Z a)%Q) by (apply inject_Z_pos; exact Ha).
  assert (HB : (0 < inject_Z b)%Q) by (apply inject_Z_pos; exact Hb).
  assert (HY : (inject_Z a * inject_Z c <= 2251799813685248)%Q).
  { rewrite <- inject_Z_mult. change 2251799813685248%Q with (inject_Z (2 ^ 51)).
    rewrite <- Zle_Qle. exact Hac. }
  assert (HY0 : (0 < inject_Z a * inject_Z c)%Q).
  { rewrite <- inject_Z_mult. apply inject_Z_pos. nia. }
  assert (E : (inject_Z c == inject_Z c / inject_Z b * inject_Z b)%Q)
    by (field; lra).
  set (A := inject_Z a) in *. set (B := inject_Z b) in *.
  set (Cb := (inject_Z c / B)%Q) in *. set (C := inject_Z c) in *.
  set (K := inject_Z nh) in *.
  split.
  - destruct (Z_le_gt_dec (nh * b) (a * c)) as [H | H]; [exact H | exfalso].
    assert (H' : a * c + 1 <= nh * b) by lia.
    rewrite Zle_Qle in H'.
    rewrite inject_Z_plus, !inject_Z_mult in H'. fold A B C K in H'.
    change (inject_Z 1) with 1%Q in H'.
    assert (G1 : (K * (1 - (1 # 9007199254740992)) <= A * vs)%Q) by nra.
    assert (G2 : (A * vs * (1 - (1 # 9007199254740992)) * B <= A * C)%Q).
    { rewrite E.
      setoid_replace (A * vs * (1 - (1 # 9007199254740992)) * B)%Q
        with (vs * (1 - (1 # 9007199254740992)) * (A * B))%Q by ring.
      setoid_replace (A * (Cb * B))%Q with (Cb * (A * B))%Q by ring.
      apply Qmult_le_compat_r; [exact Hs1 | nra]. }
    assert (G3 : (K * B * (1 - (1 # 9007199254740992))
                  * (1 - (1 # 9007199254740992)) <= A * C)%Q).
    { apply Qle_trans with (A * vs * (1 - (1 # 9007199254740992)) * B)%Q;
        [| exact G2].
      setoid_replace (K * B * (1 - (1 # 9007199254740992))
                      * (1 - (1 # 9007199254740992)))%Q
        with (K * (1 - (1 # 9007199254740992))
              * ((1 - (1 # 9007199254740992)) * B))%Q by ring.
      setoid_replace (A * vs * (1 - (1 # 9007199254740992)) * B)%Q
        with (A * vs * ((1 - (1 # 9007199254740992)) * B))%Q by ring.
      apply Qmult_le_compat_r; [exact G1 | nra]. }
    set (X := (K * B)%Q) in *. set (Y := (A * C)%Q) in *.
    clearbody X Y. lra.
  - destruct (Z_le_gt_dec (a * c) ((nh + 1) * b)) as [H | H]; [exact H | exfalso].
    assert (H' : (nh + 1) * b + 1 <= a * c) by lia.
    rewrite Zle_Qle in H'.
    rewrite !inject_Z_plus, !inject_Z_mult, inject_Z_plus in H'.
    fold A B C K in H'. change (inject_Z 1) with 1%Q in H'.
    assert (G1 : (A * vs <= (K + 1) * (1 + (1 # 9007199254740992)))%Q) by nra.
    assert (G2 : (A * C <= A * vs * (1 + (1 # 9007199254740992)) * B)%Q).
    { rewrite E.
      setoid_replace (A * vs * (1 + (1 # 9007199254740992)) * B)%Q
        with (vs * (1 + (1 # 9007199254740992)) * (A * B))%Q by ring.
      setoid_replace (A * (Cb * B))%Q with (Cb * (A * B))%Q by ring.
      apply Qmult_le_compat_r; [exact Hs2 | nra]. }
    assert (G3 : (A * C <= (K + 1) * B * (1 + (1 # 9007199254740992))
                            * (1 + (1 # 9007199254740992)))%Q).
    { apply Qle_trans with (A * vs * (1 + (1 # 9007199254740992)) * B)%Q;
        [exact G2 |].
      setoid_replace ((K + 1) * B * (1 + (1 # 9007199254740992))
                      * (1 + (1 # 9007199254740992)))%Q
        with ((K + 1) * (1 + (1 # 9007199254740992))
              * ((1 + (1 # 9007199254740992)) * B))%Q by ring.
      setoid_replace (A * vs * (1 + (1 # 9007199254740992)) * B)%Q
        with (A * vs * ((1 + (1 # 9007199254740992)) * B))%Q by ring.
      apply Qmult_le_compat_r; [exact G1 | nra]. }
    set (X := ((K + 1) * B)%Q) in *. set (Y := (A * C)%Q) in *.
    clearbody X Y. lra.
Qed.

(** [int(a * (c / b))] with an integer quotient, as in [h * (1024 / w)]. *)
Lemma scaled_int_truediv (a b c : Z) :
  0 < a -> 0 < b < 2 ^ 53 -> 0 < c -> a * c <= 2 ^ 51 ->
  exists nh,
    (scale <-r Float.int_truediv c b ;;
     product <-r Float.int_mul a scale ;;
     Float.int product) = Ok nh
    /\ nh * b <= a * c <= (nh + 1) * b.
Proof.
  intros Ha Hb Hc Hac.
  assert (H51 : 2 ^ 51 < 2 ^ 53) by reflexivity.
  assert (Ha53 : a < 2 ^ 53) by nia.
  assert (Hc53 : c < 2 ^ 53) by nia.
  destruct (int_truediv_near c b ltac:(lia) Hb) as [ms [es [Es [Hms [Hes Hs]]]]].
  destruct (of_int_exact a ltac:(lia)) as [ma [ea [Ea [Hma [Hea Hva]]]]].
  destruct (mul_near ma ms ea es Hma Hms Hea Hes) as [mp [ep [Ep [Hmp Hp]]]].
  destruct (int_floor mp ep) as [nh [Eint Hfloor]].
  exists nh. rewrite Es. cbn [rbind]. unfold Float.int_mul. rewrite Ea.
  cbn [rbind]. rewrite Ep. split; [exact Eint |].
  unfold Float.near in Hp, Hs. rewrite Hva in Hp.
  exact (scaled_floor a b c nh _ _ Ha ltac:(lia) Hc Hac Hs Hp Hfloor).
Qed.

(** [int(a * (c / float(b)))], as in [h * (width / float(w))]. *)
Lemma scaled_int_div (a b c : Z) :
  0 < a -> 0 < b < 2 ^ 53 -> 0 < c -> a * c <= 2 ^ 51 ->
  exists nh,
    (fb <-r Float.of_int b ;;
     ratio <-r Float.int_div c fb ;;
     product <-r Float.int_mul a ratio ;;
     Float.int product) = Ok nh
    /\ nh * b <= a * c <= (nh + 1) * b.
Proof.
  intros Ha Hb Hc Hac.
  assert (H51 : 2 ^ 51 < 2 ^ 53) by reflexivity.
  assert (Ha53 : a < 2 ^ 53) by nia.
  assert (Hc53 : c < 2 ^ 53) by nia.
  destruct (of_int_exact b Hb) as [mb [eb [Eb [Hmb [Heb Hvb]]]]].
  destruct (of_int_exact c ltac:(lia)) as [mc [ec [Ec [Hmc [Hec Hvc]]]]].
  destruct (truediv_near mc mb ec eb Hmc Hmb Hec Heb)
    as [ms [es [Es [Hms [Hes Hs]]]]].
  destruct (of_int_exact a ltac:(lia)) as [ma [ea [Ea [Hma [Hea Hva]]]]].
  destruct (mul_near ma ms ea es Hma Hms Hea Hes) as [mp [ep [Ep [Hmp Hp]]]].
  destruct (int_floor mp ep) as [nh [Eint Hfloor]].
  exists nh. rewrite Eb. cbn [rbind]. unfold Float.int_div. rewrite Ec.
  cbn [rbind]. rewrite Es. cbn [rbind]. unfold Float.int_mul. rewrite Ea.
  cbn [rbind]. rewrite Ep. split; [exact Eint |].
  unfold Float.near in Hp, Hs. rewrite Hva in Hp. rewrite Hvb, Hvc in Hs.
  exact (scaled_floor a b c nh _ _ Ha ltac:(lia) Hc Hac Hs Hp Hfloor).
Qed.

Example scaled_examples :
  (scale <-r Float.int_truediv 1024 1122 ;;
   product <-r Float.int_mul 1122 scale ;; Float.int product) = Ok 1023
  /\ (scale <-r Float.int_truediv 1024 1568 ;;
      product <-r Float.int_mul 49 scale ;; Float.int product) = Ok 31
  /\ (scale <-r Float.int_truediv 1024 50176 ;;
      product <-r Float.int_mul 49 scale ;; Float.int product) = Ok 0
  /\ (fb <-r Float.of_int 3 ;; ratio <-r Float.int_div 13 fb ;;
      product <-r Float.int_mul 27 ratio ;; Float.int product) = Ok 116.
Proof. repeat split; vm_compute; reflexivity. Qed.

(** An integer below [2^1023] in magnitude rounds to a finite double. *)
Lemma binary_round_finite (s : bool) (p : positive) :
  Z.pos p < 2 ^ 1023 ->
  exists m e, binary_round Float.prec Float.emax s p 0 = S754_finite s m e.
Proof.
  intros Hp. destruct (Z_lt_le_dec (Z.pos p) (2 ^ 53)) as [Hsmall | Hbig].
  - destruct (binary_round_int s p Hsmall) as [m [e [Hr _]]]. eauto.
  - pose proof (digits2_pos_bounds p) as Hdig.
    set (d := Z.pos (digits2_pos p)) in *.
    assert (Hd54 : 54 <= d).
    { destruct (Z_le_gt_dec 54 d) as [H | H]; [exact H |].
      assert (2 ^ d <= 2 ^ 53) by (apply Z.pow_le_mono_r; lia). lia. }
    assert (Hd1023 : d <= 1023).
    { destruct (Z_le_gt_dec d 1023) as [H | H]; [exact H |].
      assert (2 ^ 1023 <= 2 ^ (d - 1)) by (apply Z.pow_le_mono_r; lia). lia. }
    unfold binary_round. rewrite Z.add_0_r. fold d.
    rewrite fexp_normal by (unfold Float.prec; lia).
    unfold shl_align.
    destruct (d - Float.prec - 0) as [| q | q] eqn:E; try (unfold Float.prec in E; lia).
    assert (Hloc : Float.located (Z.pos p) loc_Exact (Z.pos p) 1)
      by (cbn [Float.located]; lia).
    pose proof (binary_round_aux_normal s (Z.pos p) 0 loc_Exact (Z.pos p) 1
                  Z.lt_0_1 (Pos2Z.is_pos p) Hloc) as Hbra.
    cbv zeta in Hbra. cbn [Zdigits2] in Hbra. fold d in Hbra.
    destruct Hbra as [m1 [_ [_ Hres]]]; try (unfold Float.prec, Float.emax; lia).
    rewrite Hres. destruct (m1 <? 2 ^ 53); eauto.
Qed.

Lemma of_int_converts (n : Z) :
  Z.abs n < 2 ^ 1023 ->
  exists x, Float.of_int n = Ok x /\ Float.is_zero x = (n =? 0).
Proof.
  intros Hn. unfold Float.of_int. destruct n as [| p | p]; cbn [binary_normalize].
  - eexists. split; reflexivity.
  - destruct (binary_round_finite false p ltac:(lia)) as [m [e ->]].
    eexists. split; reflexivity.
  - destruct (binary_round_finite true p ltac:(lia)) as [m [e ->]].
    eexists. split; reflexivity.
Qed.

Lemma checked_raise (x : Float.float) (e : exn) :
  Float.checked x = Raise e -> e = OverflowError.
Proof. destruct x; cbn [Float.checked]; congruence. Qed.

Lemma of_int_raise (n : Z) (e : exn) :
  Float.of_int n = Raise e -> e = OverflowError.
Proof. apply checked_raise. Qed.

Lemma int_mul_raise (n : Z) (x : Float.float) (e : exn) :
  Float.int_mul n x = Raise e -> e = OverflowError.
Proof.
  unfold Float.int_mul. destruct (Float.of_int n) eqn:E; cbn [rbind].
  - discriminate.
  - intros [= <-]. exact (of_int_raise _ _ E).
Qed.

Lemma int_truediv_raise (a b : Z) (e : exn) :
  b <> 0 -> Float.int_truediv a b = Raise e -> e = OverflowError.
Proof.
  intros Hb. unfold Float.int_truediv.
  destruct (b =? 0) eqn:E0; [apply Z.eqb_eq in E0; contradiction |].
  destruct (a =? 0); [discriminate |].
  destruct (SFdiv_core_binary _ _ _ _ _ _) as [[q e'] l].
  apply checked_raise.
Qed.

Lemma int_raise (x : Float.float) (e : exn) :
  Float.int x = Raise e -> e = OverflowError \/ exists msg, e = ValueError msg.
Proof.
  destruct x; cbn [Float.int]; try discriminate; intros [= <-]; eauto.
Qed.

Example of_int_overflow :
  Float.of_int (2 ^ 1024) = Raise OverflowError
  /\ Float.of_int (2 ^ 1024 - 2 ^ 970) = Raise OverflowError
  /\ exists x, Float.of_int (2 ^ 1024 - 2 ^ 970 - 1) = Ok x.
Proof.
  split; [vm_compute; reflexivity |]. split; [vm_compute; reflexivity |].
  eexists. vm_compute. reflexivity.
Qed.

End Doubles.

(** ** covid_loader.py: the limit on the number of images *)

Lemma firstn_min {A} (l : list A) (n : nat) :
  firstn n l = firstn (Nat.min n (length l)) l.
Proof.
  destruct (Nat.le_ge_cases n (length l)) as [Hle | Hge].
  - now rewrite Nat.min_l.
  - rewrite Nat.min_r by assumption.
    now rewrite firstn_all, firstn_all2.
Qed.

Lemma slice_to_positive {A} (l : list A) (n : Z) :
  0 < n -> slice_to l n = firstn (Z.to_nat (Z.min n (len l))) l.
Proof.
  intros Hn. unfold slice_to, len.
  destruct (0 <=? n) eqn:E; [| apply Z.leb_gt in E; lia].
  rewrite firstn_min. f_equal.
  rewrite Z2Nat.inj_min, Nat2Z.id. reflexivity.
Qed.

Lemma length_slice_to_positive {A} (l : list A) (n : Z) :
  0 < n -> len (slice_to l n) = Z.min n (len l).
Proof.
  intros Hn. rewrite slice_to_positive by assumption.
  unfold len. rewrite length_firstn. lia.
Qed.

Lemma dict_get_nonempty {V} (d : dict V) (k : string) (v : V) :
  dict_get d k = Some v -> d <> [].
Proof. destruct d; [discriminate | discriminate]. Qed.

Lemma dict_get_set {V} (d : dict V) (k k' : string) (v : V) :
  dict_get (dict_set d k v) k'
  = if String.eqb k k' then Some v else dict_get d k'.
Proof.
  induction d as [| [k0 v0] d IH]; simpl; [reflexivity |].
  destruct (String.eqb k0 k) eqn:E0; simpl.
  - apply String.eqb_eq in E0. subst k0.
    destruct (String.eqb k k'); reflexivity.
  - rewrite IH. destruct (String.eqb k0 k') eqn:E1; [| reflexivity].
    destruct (String.eqb k k') eqn:E2; [| reflexivity].
    apply String.eqb_eq in E1, E2. subst. rewrite String.eqb_refl in E0.
    discriminate.
Qed.

(** A property of the accumulator that every turn of a loop preserves holds
    when the loop ends. *)
Lemma for_each_invariant {A B} (I : B -> Prop) (body : B -> A -> M B)
  (l : list A) :
  (forall b x s b' s', In x l -> I b -> body b x s = (Ok b', s') -> I b') ->
  forall acc s acc' s',
    I acc -> for_each l acc body s = (Ok acc', s') -> I acc'.
Proof.
  induction l as [| x l IH]; intros Hbody acc s acc' s' Hacc; simpl.
  - unfold ret. now intros [= <- _].
  - unfold bind. destruct (body acc x s) as [[b | e] s1] eqn:E; [| discriminate].
    apply IH.
    + intros b0 y s0 b' s0' Hy. apply Hbody. now right.
    + apply (Hbody acc x s b s1); [now left | exact Hacc | exact E].
Qed.

Section LoaderFacts.
Context `{Platform}.
Import CovidDatasetLoader.

Lemma scan_category_listed (acc acc' : dict category_entry * Z)
  (item : string * string) (s s' : session) :
  In item categories ->
  (forall k e, dict_get (fst acc) k = Some e -> listed k e) ->
  scan_category acc item s = (Ok acc', s') ->
  forall k e, dict_get (fst acc') k = Some e -> listed k e.
Proof.
  intros Hitem Hacc. unfold scan_category.
  destruct acc as [category_info total_images].
  destruct item as [display_name folder].
  destruct (os_path_exists (Str.join3 dataset_path folder "images")) eqn:Ex.
  - unfold bind, lift.
    destruct (os_listdir _) as [listing |] eqn:Els; cbn [of_os];
      [| discriminate].
    unfold print, emit, ret. intros [= <- _]. cbn [fst].
    intros k e. rewrite dict_get_set.
    destruct (String.eqb display_name k) eqn:Ek; [| apply Hacc].
    apply String.eqb_eq in Ek. subst k. intros [= <-].
    exists folder, listing. simpl. repeat split; assumption.
  - unfold bind, print, emit, ret. intros [= <- _]. exact Hacc.
Qed.

(** Every entry that [get_dataset_info] returns describes a folder of the
    dataset. *)
Lemma get_dataset_info_listed (s s1 : session) (info : dict category_entry) :
  get_dataset_info s = (Ok (Some info), s1) ->
  forall k e, dict_get info k = Some e -> listed k e.
Proof.
  unfold get_dataset_info, bind at 1, print at 1, emit at 1.
  destruct (negb (os_path_exists dataset_path)).
  - unfold bind, print, emit, ret. discriminate.
  - unfold bind at 1.
    destruct (for_each categories ([], 0) scan_category _)
      as [[[category_info total_images] | e] s2] eqn:Eloop; [| discriminate].
    unfold bind, print, emit, ret. intros [= <- _].
    refine (for_each_invariant
              (fun acc => forall k e, dict_get (fst acc) k = Some e -> listed k e)
              scan_category categories _ _ _ _ _ _ Eloop).
    + intros b x s0 b' s0' Hx Hb Hstep.
      exact (scan_category_listed b b' x s0 s0' Hx Hb Hstep).
    + intros k e. discriminate.
Qed.

(** What [get_all_category_images] returns once the dataset has been
    scanned. *)
Lemma get_all_category_images_found (category : string) (max_images : option Z)
  (s s1 : session) (info : dict category_entry) (entry : category_entry) :
  get_dataset_info s = (Ok (Some info), s1) ->
  dict_get info category = Some entry ->
  get_all_category_images category max_images s
  = (Ok (map (Str.join (path entry))
           (match max_images with
            | Some n => if truthy max_images then slice_to (images entry) n
                        else images entry
            | None => images entry
            end)), s1).
Proof.
  intros Hinfo Hget.
  unfold get_all_category_images, bind. rewrite Hinfo.
  destruct info as [| kv info']; [discriminate |].
  rewrite Hget. reflexivity.
Qed.

(** C10: with a positive [max_images = n] the loader returns the paths of the
    first [min(n, total)] images of the category's listing; with
    [max_images = 0] or [None] the truthiness guard skips the limit and every
    image of the category is returned.  The listing is that of the category's
    images folder, restricted to the image extensions. *)
Theorem get_all_category_images_limit (category : string) (s s1 : session)
  (info : dict category_entry) (entry : category_entry) :
  get_dataset_info s = (Ok (Some info), s1) ->
  dict_get info category = Some entry ->
  (forall n, 0 < n ->
     exists paths,
       get_all_category_images category (Some n) s = (Ok paths, s1)
       /\ paths = map (Str.join (path entry))
                    (firstn (Z.to_nat (Z.min n (len (images entry)))) (images entry))
       /\ len paths = Z.min n (len (images entry)))
  /\ get_all_category_images category (Some 0) s
     = (Ok (map (Str.join (path entry)) (images entry)), s1)
  /\ get_all_category_images category None s
     = (Ok (map (Str.join (path entry)) (images entry)), s1)
  /\ listed category entry.
Proof.
  intros Hinfo Hget. split; [| split; [| split]].
  - intros n Hn. eexists. split; [| split].
    + rewrite (get_all_category_images_found _ _ _ _ _ _ Hinfo Hget).
      unfold truthy. destruct (n =? 0) eqn:E; [apply Z.eqb_eq in E; lia |].
      simpl. rewrite slice_to_positive by assumption. reflexivity.
    + reflexivity.
    + unfold len at 1. rewrite length_map.
      rewrite <- slice_to_positive by assumption.
      apply length_slice_to_positive; assumption.
  - exact (get_all_category_images_found category (Some 0) _ _ _ _ Hinfo Hget).
  - exact (get_all_category_images_found category None _ _ _ _ Hinfo Hget).
  - exact (get_dataset_info_listed s s1 info Hinfo category entry Hget).
Qed.

End LoaderFacts.

(** On the fixture, asking for no image returns the three images of the
    category. *)
Lemma get_all_category_images_limit_witness :
  exists s1 info entry,
    @CovidDatasetLoader.get_dataset_info Fixture.platform new_session
    = (Ok (Some info), s1)
    /\ dict_get info "COVID" = Some entry
    /\ @CovidDatasetLoader.get_all_category_images Fixture.platform "COVID"
         (Some 0) new_session
       = (Ok ["data/covid_dataset/COVID/images/a.png";
              "data/covid_dataset/COVID/images/b.png";
              "data/covid_dataset/COVID/images/c.PNG"]%string, s1).
Proof.
  do 3 eexists. split; [vm_compute; reflexivity |]. split; [reflexivity |].
  apply (@get_all_category_images_limit Fixture.platform "COVID" new_session
           _ _ _ eq_refl eq_refl).
Defined.

(** ** utils.py: normalisation *)

Section Normalisation.
Import OpenCV.
Local Open Scope Q_scope.

Lemma Qleb_true (a b : Q) : Qleb a b = true <-> a <= b.
Proof. apply Qle_bool_iff. Qed.

Lemma Qleb_false (a b : Q) : Qleb a b = false <-> b < a.
Proof.
  unfold Qleb. split.
  - intros E. apply Qnot_le_lt. intros Hle.
    apply Qle_bool_iff in Hle. congruence.
  - intros Hlt. destruct (Qle_bool a b) eqn:E; [| reflexivity].
    apply Qle_bool_iff in E. exfalso. exact (Qlt_not_le _ _ Hlt E).
Qed.

Lemma Qltb_true (a b : Q) : Qltb a b = true <-> a < b.
Proof.
  unfold Qltb. rewrite negb_true_iff. apply (Qleb_false b a).
Qed.

Lemma Qltb_false (a b : Q) : Qltb a b = false <-> b <= a.
Proof.
  unfold Qltb. rewrite negb_false_iff. apply (Qleb_true b a).
Qed.

Lemma Qmin_cases (a b : Q) :
  (Qmin a b = a /\ a <= b) \/ (Qmin a b = b /\ b <= a).
Proof.
  unfold Qmin. destruct (Qleb a b) eqn:E.
  - left. split; [reflexivity | now apply Qleb_true].
  - right. split; [reflexivity | apply Qlt_le_weak; now apply Qleb_false].
Qed.

Lemma Qmax_cases (a b : Q) :
  (Qmax a b = b /\ a <= b) \/ (Qmax a b = a /\ b <= a).
Proof.
  unfold Qmax. destruct (Qleb a b) eqn:E.
  - left. split; [reflexivity | now apply Qleb_true].
  - right. split; [reflexivity | apply Qlt_le_weak; now apply Qleb_false].
Qed.

(** The running minimum is below its seed and below every sample, and it
    is one of them. *)
Lemma fold_Qmin_spec (vs : list Q) (v : Q) :
  In (fold_left Qmin vs v) (v :: vs)
  /\ forall x, In x (v :: vs) -> fold_left Qmin vs v <= x.
Proof.
  revert v. induction vs as [| w vs IH]; intros v; simpl.
  - split; [now left |]. intros x [<- | []]. apply Qle_refl.
  - destruct (IH (Qmin v w)) as [Hin Hle]. split.
    + destruct Hin as [Hin | Hin]; [| now right; right].
      rewrite <- Hin. destruct (Qmin_cases v w) as [[-> _] | [-> _]]; auto.
    + intros x Hx.
      assert (Hseed : fold_left Qmin vs (Qmin v w) <= Qmin v w)
        by (apply Hle; now left).
      destruct Hx as [<- | [<- | Hx]].
      * eapply Qle_trans; [exact Hseed |].
        destruct (Qmin_cases v w) as [[-> _] | [-> ?]];
          [apply Qle_refl | assumption].
      * eapply Qle_trans; [exact Hseed |].
        destruct (Qmin_cases v w) as [[-> ?] | [-> _]];
          [assumption | apply Qle_refl].
      * apply Hle. now right.
Qed.

Lemma fold_Qmax_spec (vs : list Q) (v : Q) :
  In (fold_left Qmax vs v) (v :: vs)
  /\ forall x, In x (v :: vs) -> x <= fold_left Qmax vs v.
Proof.
  revert v. induction vs as [| w vs IH]; intros v; simpl.
  - split; [now left |]. intros x [<- | []]. apply Qle_refl.
  - destruct (IH (Qmax v w)) as [Hin Hle]. split.
    + destruct Hin as [Hin | Hin]; [| now right; right].
      rewrite <- Hin. destruct (Qmax_cases v w) as [[-> _] | [-> _]]; auto.
    + intros x Hx.
      assert (Hseed : Qmax v w <= fold_left Qmax vs (Qmax v w))
        by (apply Hle; now left).
      destruct Hx as [<- | [<- | Hx]].
      * eapply Qle_trans; [| exact Hseed].
        destruct (Qmax_cases v w) as [[-> ?] | [-> _]];
          [assumption | apply Qle_refl].
      * eapply Qle_trans; [| exact Hseed].
        destruct (Qmax_cases v w) as [[-> _] | [-> ?]];
          [apply Qle_refl | assumption].
      * apply Hle. now right.
Qed.

Lemma minMax_bounds (src : fgray) (v : Q) :
  In v (samples src) -> fst (minMax src) <= v /\ v <= snd (minMax src).
Proof.
  unfold minMax. destruct (samples src) as [| w vs]; [intros [] |].
  intros Hin. simpl. split.
  - now apply fold_Qmin_spec.
  - now apply fold_Qmax_spec.
Qed.

Lemma minMax_attained (src : fgray) :
  samples src <> [] ->
  In (fst (minMax src)) (samples src) /\ In (snd (minMax src)) (samples src).
Proof.
  unfold minMax. destruct (samples src) as [| w vs]; [congruence |].
  intros _. simpl. split.
  - apply fold_Qmin_spec.
  - apply fold_Qmax_spec.
Qed.

Lemma samples_amap {A B} (f : A -> B) (a : ndarray A) :
  samples (amap f a) = map f (samples a).
Proof. unfold samples, amap. simpl. symmetry. apply concat_map. Qed.

(** On integer samples a positive spread is at least one, so it exceeds
    [DBL_EPSILON]. *)
Lemma integer_spread (image : gray) :
  let '(smin, smax) := minMax (astype_float image) in
  smin < smax -> DBL_EPSILON < smax - smin.
Proof.
  destruct (minMax (astype_float image)) as [smin smax] eqn:E.
  intros Hlt.
  assert (Hne : samples (astype_float image) <> []).
  { intros Hnil. unfold minMax in E. rewrite Hnil in E.
    inversion E; subst. exact (Qlt_irrefl _ Hlt). }
  destruct (minMax_attained _ Hne) as [Hmin Hmax].
  rewrite E in Hmin, Hmax. simpl in Hmin, Hmax.
  unfold astype_float in Hmin, Hmax. rewrite samples_amap in Hmin, Hmax.
  apply in_map_iff in Hmin. destruct Hmin as [a [<- _]].
  apply in_map_iff in Hmax. destruct Hmax as [b [<- _]].
  rewrite <- Zlt_Qlt in Hlt.
  apply Qlt_le_trans with (y := 1); [reflexivity |].
  unfold Qminus. rewrite <- inject_Z_opp, <- inject_Z_plus.
  change 1 with (inject_Z 1). rewrite <- Zle_Qle. lia.
Qed.

Lemma Forall2_map_right {A B} (R : A -> B -> Prop) (f : A -> B) (l : list A) :
  (forall x, In x l -> R x (f x)) -> Forall2 R l (map f l).
Proof.
  induction l as [| x l IH]; intros HR; simpl; constructor.
  - apply HR. now left.
  - apply IH. intros y Hy. apply HR. now right.
Qed.

(** The stretch of [normalize_minmax] to [[0, 1]]: it never divides by
    zero, its values lie in [[0, 1]], they are zero on a flat grid and
    [(v - min) / (max - min)] on a grid of integer samples that is not
    flat. *)
Lemma normalize_minmax_unit (image : gray) :
  exists out,
    normalize_minmax (astype_float image) 0 1 = Ok out
    /\ shape out = shape image
    /\ Forall (fun o => 0 <= o /\ o <= 1) (samples out)
    /\ (let '(smin, smax) := minMax (astype_float image) in
        (smin == smax -> Forall (fun o => o == 0) (samples out))
        /\ (smin < smax ->
            Forall2 (fun v o => o == (v - smin) / (smax - smin))
              (samples (astype_float image)) (samples out))).
Proof.
  pose proof (integer_spread image) as Hspread.
  pose proof (minMax_bounds (astype_float image)) as Hbounds.
  unfold normalize_minmax.
  destruct (minMax (astype_float image)) as [smin smax]. simpl in Hbounds.
  change (Qmin 0 1) with 0. change (Qmax 0 1) with 1.
  destruct (Qltb DBL_EPSILON (smax - smin)) eqn:Eeps.
  - apply Qltb_true in Eeps.
    assert (Hpos : 0 < smax - smin)
      by (eapply Qlt_trans; [| exact Eeps]; reflexivity).
    assert (Hne : ~ smax - smin == 0)
      by (intros Hz; rewrite Hz in Hpos; exact (Qlt_irrefl _ Hpos)).
    unfold truediv. destruct (Qeq_bool (smax - smin) 0) eqn:Ez;
      [apply Qeq_bool_iff in Ez; contradiction |].
    simpl. eexists. split; [reflexivity |]. split; [reflexivity |].
    rewrite samples_amap.
    assert (Hform : forall v,
      v * ((1 - 0) * (1 / (smax - smin))) + (0 - smin * ((1 - 0) * (1 / (smax - smin))))
      == (v - smin) / (smax - smin)) by (intros v; field; exact Hne).
    split; [| split].
    + apply Forall_forall. intros o Ho. apply in_map_iff in Ho.
      destruct Ho as [v [<- Hv]]. destruct (Hbounds v Hv) as [Hlo Hhi].
      rewrite Hform. split.
      * apply Qle_shift_div_l; [exact Hpos |]. rewrite Qmult_0_l.
        unfold Qminus. rewrite <- Qle_minus_iff. exact Hlo.
      * apply Qle_shift_div_r; [exact Hpos |]. rewrite Qmult_1_l.
        unfold Qminus. apply Qplus_le_l. exact Hhi.
    + intros Heq. rewrite Heq in Hpos. exfalso.
      unfold Qminus in Hpos. rewrite Qplus_opp_r in Hpos.
      exact (Qlt_irrefl _ Hpos).
    + intros _. apply Forall2_map_right. intros v _. apply Hform.
  - apply Qltb_false in Eeps.
    simpl. eexists. split; [reflexivity |]. split; [reflexivity |].
    rewrite samples_amap.
    assert (Hzero : forall v,
      v * ((1 - 0) * 0) + (0 - smin * ((1 - 0) * 0)) == 0) by (intros v; ring).
    split; [| split].
    + apply Forall_forall. intros o Ho. apply in_map_iff in Ho.
      destruct Ho as [v [<- _]]. rewrite Hzero. split; discriminate.
    + intros _. apply Forall_forall. intros o Ho. apply in_map_iff in Ho.
      destruct Ho as [v [<- _]]. apply Hzero.
    + intros Hlt. exfalso. apply Hspread in Hlt.
      exact (Qlt_not_le _ _ Hlt Eeps).
Qed.

End Normalisation.

Lemma normalize_minmax_total (src : fgray) (alpha beta : Q) :
  exists scale shift,
    OpenCV.normalize_minmax src alpha beta
    = Ok (amap (fun v => v * scale + shift)%Q src).
Proof.
  unfold OpenCV.normalize_minmax.
  destruct (OpenCV.minMax src) as [smin smax].
  destruct (Qltb OpenCV.DBL_EPSILON (smax - smin)) eqn:Eeps.
  - apply Qltb_true in Eeps. unfold truediv.
    destruct (Qeq_bool (smax - smin) 0) eqn:Ez.
    + apply Qeq_bool_iff in Ez. rewrite Ez in Eeps. discriminate.
    + simpl. eauto.
  - simpl. eauto.
Qed.

(** The least and the greatest sample of the float copy of an image are
    its least and its greatest pixel. *)
Lemma Qmin_inject_Z (a b : Z) :
  OpenCV.Qmin (inject_Z a) (inject_Z b) = inject_Z (Z.min a b).
Proof.
  unfold OpenCV.Qmin. destruct (Qleb (inject_Z a) (inject_Z b)) eqn:E.
  - apply Qleb_true in E. rewrite <- Zle_Qle in E. now rewrite Z.min_l.
  - apply Qleb_false in E. rewrite <- Zlt_Qlt in E. now rewrite Z.min_r by lia.
Qed.

Lemma Qmax_inject_Z (a b : Z) :
  OpenCV.Qmax (inject_Z a) (inject_Z b) = inject_Z (Z.max a b).
Proof.
  unfold OpenCV.Qmax. destruct (Qleb (inject_Z a) (inject_Z b)) eqn:E.
  - apply Qleb_true in E. rewrite <- Zle_Qle in E. now rewrite Z.max_r.
  - apply Qleb_false in E. rewrite <- Zlt_Qlt in E. now rewrite Z.max_l by lia.
Qed.

Lemma fold_Qmin_inject_Z (vs : list Z) (v : Z) :
  fold_left OpenCV.Qmin (map inject_Z vs) (inject_Z v)
  = inject_Z (fold_left Z.min vs v).
Proof.
  revert v. induction vs as [| w vs IH]; intros v; simpl; [reflexivity |].
  rewrite Qmin_inject_Z. apply IH.
Qed.

Lemma fold_Qmax_inject_Z (vs : list Z) (v : Z) :
  fold_left OpenCV.Qmax (map inject_Z vs) (inject_Z v)
  = inject_Z (fold_left Z.max vs v).
Proof.
  revert v. induction vs as [| w vs IH]; intros v; simpl; [reflexivity |].
  rewrite Qmax_inject_Z. apply IH.
Qed.

Lemma minMax_astype_float (image : gray) (lo hi : Z) :
  CovidDatasetLoader.np_min image = Ok lo ->
  CovidDatasetLoader.np_max image = Ok hi ->
  OpenCV.minMax (astype_float image) = (inject_Z lo, inject_Z hi).
Proof.
  unfold CovidDatasetLoader.np_min, CovidDatasetLoader.np_max, OpenCV.minMax,
    astype_float.
  rewrite samples_amap. destruct (samples image) as [| v vs]; [discriminate |].
  intros [= <-] [= <-]. cbn [map].
  now rewrite fold_Qmin_inject_Z, fold_Qmax_inject_Z.
Qed.

Lemma Forall2_map_left {A B C} (R : B -> C -> Prop) (f : A -> B) (l : list A)
  (l' : list C) :
  Forall2 R (map f l) l' -> Forall2 (fun a c => R (f a) c) l l'.
Proof.
  revert l'. induction l as [| a l IH]; intros l' H; simpl in H.
  - inversion H. constructor.
  - inversion H as [| b c lb lc Hbc Hrest]; subst. constructor; [exact Hbc |].
    apply IH. exact Hrest.
Qed.

Section NormalizeImage.
Context `{Platform}.

(** C7: the normalisation step returns values in [[0, 1]] by a linear
    min-max stretch of the pixels of its input: a pixel [p] becomes
    [(p - min) / (max - min)], where [min] and [max] are the least and the
    greatest pixel; on a flat grid the output is all zero, and the step
    returns: it does not divide by zero.  The output has the shape of the
    input.  The grid is one that the data model allows (not empty), and
    [cv2.normalize] is the min-max stretch of OpenCV. *)
Theorem normalize_image_unit_range (image : gray) :
  OpenCV.normalize_is_minmax ->
  is_empty image = false ->
  exists out,
    Utils.normalize_image image = Ok (Some out)
    /\ shape out = shape image
    /\ Forall (fun o => 0 <= o /\ o <= 1)%Q (samples out)
    /\ forall lo hi,
         CovidDatasetLoader.np_min image = Ok lo ->
         CovidDatasetLoader.np_max image = Ok hi ->
         (lo = hi -> Forall (fun o => o == 0)%Q (samples out))
         /\ (lo < hi ->
             Forall2 (fun p o =>
                        o == (inject_Z p - inject_Z lo)
                             / (inject_Z hi - inject_Z lo))%Q
               (samples image) (samples out)).
Proof.
  intros Hcv Hne.
  destruct (normalize_minmax_unit image) as [out [Hout [Hshape [Hrange Hcases]]]].
  exists out. split.
  { unfold Utils.normalize_image. rewrite Hcv by exact Hne.
    rewrite Hout. reflexivity. }
  split; [exact Hshape |]. split; [exact Hrange |].
  intros lo hi Hlo Hhi.
  rewrite (minMax_astype_float image lo hi Hlo Hhi) in Hcases.
  destruct Hcases as [Hflat Hstretch]. split.
  - intros ->. apply Hflat. reflexivity.
  - intros Hlt.
    apply (Forall2_map_left
             (fun v o => o == (v - inject_Z lo) / (inject_Z hi - inject_Z lo))%Q
             inject_Z).
    unfold astype_float in Hstretch. rewrite samples_amap in Hstretch.
    apply Hstretch. rewrite <- Zlt_Qlt. exact Hlt.
Qed.

(** Both preprocessors normalise with the same call as [normalize_image]. *)
Lemma preprocess_image_normalizes (image : gray) :
  LungImageProcessor.preprocess_image image
  = (normalized <-r Utils.normalize_image image ;;
     scaled <-r times255_uint8_of normalized ;;
     enhanced <-r of_cv2 (CLAHE_apply (createCLAHE 2 (8, 8)) scaled) ;;
     of_cv2 (cv2_GaussianBlur enhanced (5, 5) 0)).
Proof.
  unfold LungImageProcessor.preprocess_image, Utils.normalize_image.
  destruct (of_cv2 (cv2_normalize (astype_float image) 0 1 NORM_MINMAX)); simpl;
    [| reflexivity].
  destruct (times255_uint8_of _); simpl; [| reflexivity].
  destruct (of_cv2 (CLAHE_apply _ _)); simpl; [| reflexivity].
  destruct (of_cv2 (cv2_GaussianBlur _ _ _)); reflexivity.
Qed.

Lemma enhanced_covid_preprocessing_normalizes (image resized : gray) :
  CovidImageAnalyzer.resize_if_too_large image = Ok resized ->
  CovidImageAnalyzer.enhanced_covid_preprocessing image
  = (normalized <-r Utils.normalize_image resized ;;
     scaled <-r times255_uint8_of normalized ;;
     enhanced <-r of_cv2 (CLAHE_apply (createCLAHE 2.5 (8, 8)) scaled) ;;
     of_cv2 (cv2_medianBlur enhanced 3)).
Proof.
  intros Hstep.
  unfold CovidImageAnalyzer.enhanced_covid_preprocessing, Utils.normalize_image.
  rewrite Hstep. simpl.
  destruct (of_cv2 (cv2_normalize (astype_float resized) 0 1 NORM_MINMAX)); simpl;
    [| reflexivity].
  destruct (times255_uint8_of _); simpl; [| reflexivity].
  destruct (of_cv2 (CLAHE_apply _ _)); simpl; [| reflexivity].
  destruct (of_cv2 (cv2_medianBlur _ _)); reflexivity.
Qed.

End NormalizeImage.

Lemma fixture_normalize_is_minmax :
  @OpenCV.normalize_is_minmax Fixture.platform.
Proof.
  intros src alpha beta Hne. simpl. unfold Fixture.normalize. rewrite Hne.
  destruct (normalize_minmax_total src alpha beta) as [scale [shift ->]].
  reflexivity.
Qed.

Lemma fixture_normalize_none_on_empty :
  @OpenCV.normalize_none_on_empty Fixture.platform.
Proof.
  intros src alpha beta He. simpl. unfold Fixture.normalize. now rewrite He.
Qed.

(** On the fixture the pixels 10, 20, 30 and 250 are stretched between the
    least, 10, and the greatest, 250, and the flat grid is normalised to
    zeros. *)
Lemma normalize_image_unit_range_witness :
  @OpenCV.normalize_is_minmax Fixture.platform
  /\ is_empty Fixture.xray = false
  /\ is_empty Fixture.flat = false
  /\ (exists out,
        @Utils.normalize_image Fixture.platform Fixture.xray = Ok (Some out)
        /\ Forall (fun o => 0 <= o /\ o <= 1)%Q (samples out)
        /\ Forall2 (fun p o => o == (inject_Z p - 10) / (250 - 10))%Q
             [10; 20; 30; 250] (samples out))
  /\ (exists out,
        @Utils.normalize_image Fixture.platform Fixture.flat = Ok (Some out)
        /\ Forall (fun o => o == 0)%Q (samples out)).
Proof.
  split; [exact fixture_normalize_is_minmax |]. split; [reflexivity |].
  split; [reflexivity |]. split.
  - destruct (@normalize_image_unit_range Fixture.platform Fixture.xray
                fixture_normalize_is_minmax eq_refl)
      as [out [Hrun [_ [Hrange Hcases]]]].
    exists out. split; [exact Hrun |]. split; [exact Hrange |].
    exact (proj2 (Hcases 10 250 eq_refl eq_refl) eq_refl).
  - destruct (@normalize_image_unit_range Fixture.platform Fixture.flat
                fixture_normalize_is_minmax eq_refl)
      as [out [Hrun [_ [_ Hcases]]]].
    exists out. split; [exact Hrun |].
    exact (proj1 (Hcases 7 7 eq_refl eq_refl) eq_refl).
Defined.

Example normalize_flat_example :
  @Utils.normalize_image Fixture.platform Fixture.flat
  = Ok (Some (mk_ndarray (2, 2)%nat [[0; 0]; [0; 0]]%Q))
  /\ fmap_samples_eq
       (@Utils.normalize_image Fixture.platform Fixture.xray)
       [0; 1 # 24; 1 # 12; 1]%Q = true.
Proof. split; vm_compute; reflexivity. Qed.

(** ** covid_analyzer.py: the downscale step *)

Lemma truediv_nonzero (a b : Q) :
  ~ (b == 0)%Q -> truediv a b = Ok (a / b)%Q.
Proof.
  intros Hb. unfold truediv.
  destruct (Qeq_bool b 0) eqn:E; [| reflexivity].
  apply Qeq_bool_iff in E. contradiction.
Qed.

Lemma inject_Z_of_nat_nonzero (w : nat) :
  (0 < w)%nat -> ~ (inject_Z (Z.of_nat w) == 0)%Q.
Proof.
  intros Hw Hz. unfold Qeq in Hz. simpl in Hz. lia.
Qed.

Lemma is_empty_false {A} (a : ndarray A) :
  is_empty a = false <-> (0 < height a)%nat /\ (0 < width a)%nat.
Proof.
  unfold is_empty. rewrite orb_false_iff, !Nat.eqb_neq. lia.
Qed.

Lemma is_empty_shape {A B} (a : ndarray A) (b : ndarray B) :
  shape b = shape a -> is_empty b = is_empty a.
Proof. unfold is_empty, height, width. now intros ->. Qed.

Section Preprocessing.
Context `{Platform}.
Import CovidImageAnalyzer.

(** The resize that step 1 asks for when the image is wider than 1024: the
    height [int(h * (1024 / w))] is the integer part of [h * 1024 / w], or
    one less than the whole number [h * 1024 / w]. *)
Lemma resize_if_too_large_wide (image : gray) :
  let h := Z.of_nat (height image) in
  let w := Z.of_nat (width image) in
  1024 < w < 2 ^ 53 -> h * 1024 <= 2 ^ 51 ->
  exists new_height,
    resize_if_too_large image
    = of_cv2 (cv2_resize image (1024, new_height) INTER_LINEAR)
    /\ new_height * w <= h * 1024 <= (new_height + 1) * w.
Proof.
  unfold resize_if_too_large, height, width.
  destruct (shape image) as [h w]. cbn [fst snd]. intros Hw Hh.
  destruct (1024 <? w)%nat eqn:E; [| apply Nat.ltb_ge in E; lia].
  destruct h as [| h'].
  - destruct (int_truediv_near 1024 (Z.of_nat w)) as [m [e [-> _]]];
      [split; [lia | reflexivity] | lia |].
    exists 0. split; [reflexivity | lia].
  - destruct (scaled_int_truediv (Z.of_nat (S h')) (Z.of_nat w) 1024)
      as [new_height [Hrun Hbounds]]; try lia.
    exists new_height. split; [| exact Hbounds].
    destruct (Float.int_truediv 1024 (Z.of_nat w)) as [scale | e1];
      cbn [rbind] in *; [| discriminate].
    destruct (Float.int_mul (Z.of_nat (S h')) scale) as [product | e2];
      cbn [rbind] in *; [| discriminate].
    rewrite Hrun. reflexivity.
Qed.

Lemma resize_if_too_large_narrow (image : gray) :
  (width image <= 1024)%nat -> resize_if_too_large image = Ok image.
Proof.
  unfold resize_if_too_large, width.
  destruct (shape image) as [h w]. simpl. intros Hw.
  destruct (1024 <? w)%nat eqn:E; [apply Nat.ltb_lt in E; lia | reflexivity].
Qed.

(** Where the two roundings show: a grid of 1122 x 1122 is asked to become
    1023 rows high, not 1024, one of 49 x 1568 to become 31 rows high, not
    32, and one of 49 x 50176 to become 0 rows high, not 1. *)
Lemma resize_if_too_large_rounding (image : gray) :
  (shape image = (1122, 1122)%nat ->
   resize_if_too_large image
   = of_cv2 (cv2_resize image (1024, 1023) INTER_LINEAR))
  /\ (shape image = (49, 1568)%nat ->
      resize_if_too_large image
      = of_cv2 (cv2_resize image (1024, 31) INTER_LINEAR))
  /\ (shape image = (49%nat, Z.to_nat 50176) ->
      resize_if_too_large image
      = of_cv2 (cv2_resize image (1024, 0) INTER_LINEAR)).
Proof.
  unfold resize_if_too_large.
  repeat split; intros ->; vm_compute; reflexivity.
Qed.

(** After step 1 the remaining steps keep the shape. *)
Lemma enhanced_after_resize (image resized : gray) :
  OpenCV.accepts_nonempty ->
  resize_if_too_large image = Ok resized ->
  is_empty resized = false ->
  exists out,
    enhanced_covid_preprocessing image = Ok out /\ shape out = shape resized.
Proof.
  intros Hcv Hstep Hne. unfold enhanced_covid_preprocessing.
  rewrite Hstep. simpl.
  destruct (OpenCV.normalize_total Hcv (astype_float resized) 0 1)
    as [normalized [-> Hs1]]; [exact Hne |].
  simpl.
  destruct (OpenCV.clahe_total Hcv (createCLAHE 2.5 (8, 8))
              (times255_uint8 normalized)) as [enhanced [-> Hs2]].
  { rewrite (is_empty_shape resized); [exact Hne | exact Hs1]. }
  simpl.
  destruct (OpenCV.median_total Hcv enhanced) as [denoised [-> Hs3]].
  { rewrite (is_empty_shape resized); [exact Hne |].
    rewrite Hs2. exact Hs1. }
  simpl. exists denoised. split; [reflexivity |].
  rewrite Hs3, Hs2. exact Hs1.
Qed.

(** The dataset preprocessor returns on every grid that is not empty and is
    either at most 1024 columns wide or less than 1024 times as wide as it
    is high, so that its downscaled height is at least one pixel; what it
    returns is not empty and at most 1024 columns wide. *)
Lemma enhanced_covid_preprocessing_total (image : gray) :
  OpenCV.accepts_nonempty ->
  is_empty image = false ->
  (width image <= 1024)%nat
  \/ Z.of_nat (width image) < 1024 * Z.of_nat (height image) <= 2 ^ 51 ->
  exists out,
    enhanced_covid_preprocessing image = Ok out
    /\ (width out <= 1024)%nat /\ is_empty out = false.
Proof.
  intros Hcv Hne Hsize.
  destruct (Nat.lt_ge_cases 1024 (width image)) as [Hw | Hw].
  - assert (Hs : Z.of_nat (width image) < 1024 * Z.of_nat (height image) <= 2 ^ 51)
      by (destruct Hsize as [Hn | Hs]; [lia | exact Hs]).
    assert (H51 : 2 ^ 51 < 2 ^ 53) by reflexivity.
    destruct (resize_if_too_large_wide image) as [new_height [Hstep Hb]];
      [lia | lia |].
    assert (Hpos : 0 < new_height) by nia.
    destruct (OpenCV.resize_total Hcv image 1024 new_height INTER_LINEAR)
      as [resized [Hres Hshape]]; [exact Hne | lia | exact Hpos |].
    rewrite Hres in Hstep. simpl in Hstep.
    assert (Hre : is_empty resized = false).
    { apply is_empty_false. unfold height, width. rewrite Hshape. simpl. lia. }
    destruct (enhanced_after_resize image resized Hcv Hstep Hre)
      as [out [Hrun Hso]].
    exists out. split; [exact Hrun |]. split.
    + unfold width. rewrite Hso, Hshape. simpl. lia.
    + rewrite (is_empty_shape resized out Hso). exact Hre.
  - pose proof (resize_if_too_large_narrow image Hw) as Hstep.
    destruct (enhanced_after_resize image image Hcv Hstep Hne)
      as [out [Hrun Hso]].
    exists out. split; [exact Hrun |]. split.
    + unfold width in *. rewrite Hso. exact Hw.
    + rewrite (is_empty_shape image out Hso). exact Hne.
Qed.


End Preprocessing.

Lemma fixture_accepts_nonempty : @OpenCV.accepts_nonempty Fixture.platform.
Proof.
  constructor; simpl.
  - intros src alpha beta Hne. unfold Fixture.normalize. rewrite Hne.
    destruct (normalize_minmax_total src alpha beta) as [scale [shift ->]].
    eexists. split; reflexivity.
  - intros _ src Hne. unfold Fixture.keep_nonempty. rewrite Hne. eauto.
  - intros src _ Hne. unfold Fixture.keep_nonempty. rewrite Hne. eauto.
  - intros src Hne. unfold Fixture.keep_nonempty. rewrite Hne. eauto.
  - intros src new_width new_height interpolation Hne Hw Hh.
    unfold Fixture.resize. rewrite Hne.
    apply Z.ltb_lt in Hw, Hh. rewrite Hw, Hh. simpl. eauto.
Qed.



(** ** Preprocessing and errors *)

Section PreprocessingErrors.
Context `{Platform}.
Import CovidImageAnalyzer LungImageProcessor.

Lemma of_cv2_raise {A} (o : option A) (e : exn) :
  of_cv2 o = Raise e -> e = Cv2Error.
Proof. destruct o; simpl; congruence. Qed.

Lemma times255_uint8_of_raise (normalized : option fgray) (e : exn) :
  times255_uint8_of normalized = Raise e -> e = TypeError.
Proof. destruct normalized; simpl; congruence. Qed.

(** What can leave the downscale step: the [cv2.error] of [cv2.resize], or
    an exception of the float arithmetic on sizes that no array has. *)
Lemma resize_if_too_large_raise (image : gray) (e : exn) :
  resize_if_too_large image = Raise e ->
  e = Cv2Error \/ e = OverflowError \/ exists msg, e = ValueError msg.
Proof.
  unfold resize_if_too_large. destruct (shape image) as [h w].
  destruct (1024 <? w)%nat eqn:E; [| discriminate].
  apply Nat.ltb_lt in E.
  destruct (Float.int_truediv 1024 (Z.of_nat w)) as [scale | e1] eqn:E1;
    cbn [rbind].
  - destruct (Float.int_mul (Z.of_nat h) scale) as [product | e2] eqn:E2;
      cbn [rbind].
    + destruct (Float.int product) as [new_height | e3] eqn:E3; cbn [rbind].
      * intros Hr. left. exact (of_cv2_raise _ _ Hr).
      * intros [= <-]. right. exact (int_raise _ _ E3).
    + intros [= <-]. right. left. exact (int_mul_raise _ _ _ E2).
  - intros [= <-]. right. left.
    apply (int_truediv_raise 1024 (Z.of_nat w)); [lia | exact E1].
Qed.

Lemma preprocess_image_raise (image : gray) (e : exn) :
  preprocess_image image = Raise e -> e = Cv2Error \/ e = TypeError.
Proof.
  unfold preprocess_image.
  destruct (of_cv2 (cv2_normalize _ _ _ _)) eqn:E1; simpl;
    [| intros [= <-]; left; exact (of_cv2_raise _ _ E1)].
  destruct (times255_uint8_of _) eqn:E2; simpl;
    [| intros [= <-]; right; exact (times255_uint8_of_raise _ _ E2)].
  destruct (of_cv2 (CLAHE_apply _ _)) eqn:E3; simpl;
    [| intros [= <-]; left; exact (of_cv2_raise _ _ E3)].
  destruct (of_cv2 (cv2_GaussianBlur _ _ _)) eqn:E4; simpl;
    [discriminate | intros [= <-]; left; exact (of_cv2_raise _ _ E4)].
Qed.

Lemma enhanced_covid_preprocessing_raise (image : gray) (e : exn) :
  enhanced_covid_preprocessing image = Raise e ->
  e = Cv2Error \/ e = TypeError \/ e = OverflowError
  \/ exists msg, e = ValueError msg.
Proof.
  unfold enhanced_covid_preprocessing.
  destruct (resize_if_too_large image) eqn:E0; simpl.
  - destruct (of_cv2 (cv2_normalize _ _ _ _)) eqn:E1; simpl;
      [| intros [= <-]; left; exact (of_cv2_raise _ _ E1)].
    destruct (times255_uint8_of _) eqn:E2; simpl;
      [| intros [= <-]; right; left; exact (times255_uint8_of_raise _ _ E2)].
    destruct (of_cv2 (CLAHE_apply _ _)) eqn:E3; simpl;
      [| intros [= <-]; left; exact (of_cv2_raise _ _ E3)].
    destruct (of_cv2 (cv2_medianBlur _ _)) eqn:E4; simpl;
      [discriminate | intros [= <-]; left; exact (of_cv2_raise _ _ E4)].
  - intros [= <-].
    destruct (resize_if_too_large_raise _ _ E0) as [-> | [-> | Hv]]; auto.
Qed.

Lemma preprocess_image_total (image : gray) :
  OpenCV.accepts_nonempty ->
  is_empty image = false ->
  exists out, preprocess_image image = Ok out /\ shape out = shape image.
Proof.
  intros Hcv Hne. unfold preprocess_image.
  destruct (OpenCV.normalize_total Hcv (astype_float image) 0 1)
    as [normalized [-> Hs1]]; [exact Hne |].
  simpl.
  destruct (OpenCV.clahe_total Hcv (createCLAHE 2 (8, 8))
              (times255_uint8 normalized)) as [enhanced [-> Hs2]].
  { rewrite (is_empty_shape image); [exact Hne | exact Hs1]. }
  simpl.
  destruct (OpenCV.gaussian_total Hcv enhanced 0) as [blurred [-> Hs3]].
  { rewrite (is_empty_shape image); [exact Hne |]. rewrite Hs2. exact Hs1. }
  simpl. exists blurred. split; [reflexivity |].
  rewrite Hs3, Hs2. exact Hs1.
Qed.

(** On a grid without samples [cv2.normalize] returns [None], and the
    product [normalized * 255] raises [TypeError]. *)
Lemma preprocess_image_empty (image : gray) :
  OpenCV.normalize_none_on_empty ->
  is_empty image = true ->
  preprocess_image image = Raise TypeError
  /\ ((width image <= 1024)%nat ->
      enhanced_covid_preprocessing image = Raise TypeError).
Proof.
  intros Hnone He.
  assert (Hnorm : cv2_normalize (astype_float image) 0 1 NORM_MINMAX = Some None)
    by (apply Hnone; rewrite (is_empty_shape image); [exact He | reflexivity]).
  split.
  - unfold preprocess_image. rewrite Hnorm. reflexivity.
  - intros Hw. unfold enhanced_covid_preprocessing.
    rewrite (resize_if_too_large_narrow image Hw). cbn [rbind].
    rewrite Hnorm. reflexivity.
Qed.

(** C3, as the code has it: neither preprocessor guards against an empty
    grid and neither ever raises [InvalidImageError].  An empty grid is
    handed to [cv2.normalize], which returns [None] for it, and the next
    line, [normalized * 255], raises [TypeError]; apart from that only the
    [cv2.error] of an OpenCV call leaves the general preprocessor.  On every
    grid that is not empty (for the dataset preprocessor: whose downscaled
    height is at least one pixel) they raise no exception, OpenCV accepting
    such grids. *)
Theorem preprocessing_never_raises_InvalidImageError (image : gray) :
  (forall e, preprocess_image image = Raise e -> e = Cv2Error \/ e = TypeError)
  /\ preprocess_image image <> Raise InvalidImageError
  /\ enhanced_covid_preprocessing image <> Raise InvalidImageError
  /\ (OpenCV.normalize_none_on_empty -> is_empty image = true ->
      preprocess_image image = Raise TypeError
      /\ ((width image <= 1024)%nat ->
          enhanced_covid_preprocessing image = Raise TypeError))
  /\ (OpenCV.accepts_nonempty -> is_empty image = false ->
      (exists out, preprocess_image image = Ok out)
      /\ ((width image <= 1024)%nat
          \/ Z.of_nat (width image) < 1024 * Z.of_nat (height image) <= 2 ^ 51 ->
          exists out, enhanced_covid_preprocessing image = Ok out)).
Proof.
  split; [exact (preprocess_image_raise image) |].
  split.
  { intros Hr. apply preprocess_image_raise in Hr.
    destruct Hr; discriminate. }
  split.
  { intros Hr. apply enhanced_covid_preprocessing_raise in Hr.
    destruct Hr as [Hr | [Hr | [Hr | [msg Hr]]]]; discriminate. }
  split; [exact (preprocess_image_empty image) |].
  intros Hcv Hne. split.
  - destruct (preprocess_image_total image Hcv Hne) as [out [Hout _]]. eauto.
  - intros Hsize.
    destruct (enhanced_covid_preprocessing_total image Hcv Hne Hsize)
      as [out [Hout _]].
    eauto.
Qed.

End PreprocessingErrors.

(** On the fixture the 2 x 2 grid is preprocessed without an exception, and
    the empty grid raises [TypeError]. *)
Lemma preprocessing_never_raises_InvalidImageError_witness :
  @OpenCV.accepts_nonempty Fixture.platform
  /\ @OpenCV.normalize_none_on_empty Fixture.platform
  /\ is_empty Fixture.xray = false
  /\ is_empty Fixture.empty_grid = true
  /\ (exists out,
        @LungImageProcessor.preprocess_image Fixture.platform Fixture.xray = Ok out)
  /\ @LungImageProcessor.preprocess_image Fixture.platform Fixture.empty_grid
     = Raise TypeError.
Proof.
  split; [exact fixture_accepts_nonempty |].
  split; [exact fixture_normalize_none_on_empty |].
  split; [reflexivity |]. split; [reflexivity |]. split.
  - destruct (@preprocessing_never_raises_InvalidImageError Fixture.platform
                Fixture.xray) as [_ [_ [_ [_ Htotal]]]].
    exact (proj1 (Htotal fixture_accepts_nonempty eq_refl)).
  - destruct (@preprocessing_never_raises_InvalidImageError Fixture.platform
                Fixture.empty_grid) as [_ [_ [_ [Hempty _]]]].
    exact (proj1 (Hempty fixture_normalize_none_on_empty eq_refl)).
Defined.

(** An empty grid does not raise [InvalidImageError]: on the fixture, whose
    [normalize] returns [None] for it as OpenCV's does, both preprocessors
    raise [TypeError]. *)
Lemma preprocess_empty_not_InvalidImageError :
  is_empty Fixture.empty_grid = true
  /\ @LungImageProcessor.preprocess_image Fixture.platform Fixture.empty_grid
     = Raise TypeError
  /\ @LungImageProcessor.preprocess_image Fixture.platform Fixture.empty_grid
     <> Raise InvalidImageError
  /\ @CovidImageAnalyzer.enhanced_covid_preprocessing Fixture.platform
       Fixture.empty_grid
     = Raise TypeError
  /\ @CovidImageAnalyzer.enhanced_covid_preprocessing Fixture.platform
       Fixture.empty_grid
     <> Raise InvalidImageError.
Proof.
  split; [reflexivity |]. split; [reflexivity |].
  split; [vm_compute; discriminate |]. split; [reflexivity |].
  vm_compute; discriminate.
Qed.

(** ** image_processor.py: the contour detector *)

Section ContourDetector.
Context `{Platform}.
Import LungImageProcessor.
Local Open Scope Q_scope.

Lemma Qsquare_pos (p : Q) : 0 < p -> 0 < p ^ 2.
Proof.
  intros Hp. change (p ^ 2) with (p * p).
  rewrite <- (Qmult_0_l p). apply Qmult_lt_compat_r; assumption.
Qed.

Lemma Qdiv_square_zero (a p : Q) : p == 0 -> a / p ^ 2 == 0.
Proof.
  intros Hp. change (p ^ 2) with (p * p). rewrite Hp.
  unfold Qdiv. change (/ (0 * 0)) with 0. ring.
Qed.

(** One turn of the loop keeps the contour exactly when the specification
    retains it. *)
Lemma keep_contour_spec (acc : list Contour) (c : Contour) :
  OpenCV.arcLength_nonneg ->
  keep_contour acc c
  = Ok (if Spec.contour_retained c then (acc ++ [c])%list else acc).
Proof.
  intros Hlen. unfold keep_contour, Spec.contour_retained, Spec.contour_circularity.
  destruct (Qltb 50 (cv2_contourArea c) && Qltb (cv2_contourArea c) 1000)%bool;
    cbn [andb]; [| reflexivity].
  destruct (Qltb 0 (cv2_arcLength c true)) eqn:Ep.
  - apply Qltb_true in Ep.
    rewrite truediv_nonzero.
    + cbn [rbind]. destruct (Qltb 0.5 _); reflexivity.
    + intros Hz. apply Qsquare_pos in Ep. rewrite Hz in Ep.
      exact (Qlt_irrefl _ Ep).
  - apply Qltb_false in Ep.
    assert (Hz : cv2_arcLength c true == 0)
      by (apply Qle_antisym; [exact Ep | apply Hlen]).
    assert (Hc : Qltb 0.5 (4 * np_pi * cv2_contourArea c / cv2_arcLength c true ^ 2)
                 = false).
    { apply Qltb_false. rewrite (Qdiv_square_zero _ _ Hz). discriminate. }
    rewrite Hc. reflexivity.
Qed.

Lemma keep_contours_spec (contours acc : list Contour) :
  OpenCV.arcLength_nonneg ->
  rfor_each contours acc keep_contour
  = Ok (acc ++ filter Spec.contour_retained contours)%list.
Proof.
  intros Hlen. revert acc.
  induction contours as [| c contours IH]; intros acc; simpl.
  - now rewrite app_nil_r.
  - rewrite keep_contour_spec by assumption. simpl. rewrite IH.
    destruct (Spec.contour_retained c); [| reflexivity].
    now rewrite <- app_assoc.
Qed.

Lemma contour_retained_iff (c : Contour) :
  Spec.contour_retained c = true
  <-> 50 < cv2_contourArea c /\ cv2_contourArea c < 1000
      /\ 0.5 < Spec.contour_circularity c.
Proof.
  unfold Spec.contour_retained.
  rewrite !andb_true_iff, !Qltb_true. tauto.
Qed.

(** C4: the contour detector binarises with [cv2.adaptiveThreshold] on a
    window of 11 pixels with offset 2, asks [cv2.findContours] for external
    contours only, and returns, in their order, exactly the contours whose
    area is strictly between 50 and 1000 and whose circularity
    [4 pi area / perimeter^2] is strictly greater than 0.5 (a contour of
    perimeter zero, for which the quotient is taken to be zero, is not
    returned). *)
Theorem analyze_regions_retains (image binary : gray) (contours : list Contour) :
  OpenCV.arcLength_nonneg ->
  cv2_adaptiveThreshold image 255 ADAPTIVE_THRESH_GAUSSIAN_C THRESH_BINARY 11 2
  = Some binary ->
  cv2_findContours binary RETR_EXTERNAL CHAIN_APPROX_SIMPLE = Some contours ->
  exists kept,
    analyze_regions image = Ok kept
    /\ kept = filter Spec.contour_retained contours
    /\ forall c,
         In c kept
         <-> In c contours
             /\ 50 < cv2_contourArea c /\ cv2_contourArea c < 1000
             /\ 0.5 < 4 * np_pi * cv2_contourArea c / cv2_arcLength c true ^ 2.
Proof.
  intros Hlen Hbin Hfind. eexists. split; [| split].
  - unfold analyze_regions. rewrite Hbin. simpl. rewrite Hfind. simpl.
    rewrite keep_contours_spec by assumption. reflexivity.
  - reflexivity.
  - intros c. simpl. rewrite filter_In, contour_retained_iff. reflexivity.
Qed.

End ContourDetector.

Lemma fixture_path_length_nonneg (rest : Contour) (prev : Z * Z) :
  0 <= Fixture.path_length prev rest.
Proof.
  revert prev. induction rest as [| p rest IH]; intros prev; simpl; [lia |].
  specialize (IH p). lia.
Qed.

Lemma fixture_arcLength_nonneg : @OpenCV.arcLength_nonneg Fixture.platform.
Proof.
  intros c closed. simpl. unfold Fixture.arcLength.
  destruct c as [| p rest]; [discriminate |].
  change 0%Q with (inject_Z 0). rewrite <- Zle_Qle.
  pose proof (fixture_path_length_nonneg rest p).
  destruct closed; lia.
Qed.

(** On the fixture two of the four contours are retained. *)
Lemma analyze_regions_retains_witness :
  @OpenCV.arcLength_nonneg Fixture.platform
  /\ exists kept,
       @LungImageProcessor.analyze_regions Fixture.platform Fixture.xray = Ok kept
       /\ kept = [Fixture.rectangle 0 0 10 10; Fixture.rectangle 0 30 12 12].
Proof.
  split; [exact fixture_arcLength_nonneg |].
  destruct (@analyze_regions_retains Fixture.platform Fixture.xray Fixture.xray
              Fixture.found_contours fixture_arcLength_nonneg eq_refl eq_refl)
    as [kept [Hrun [Hkept _]]].
  exists kept. split; [exact Hrun |]. rewrite Hkept. reflexivity.
Defined.

(** ** image_processor.py: the blob detector *)

Section BlobDetectorFacts.
Import BlobDetector.

Lemma merge_into_subset (kept : list component) (c x : component) :
  In x (merge_into kept c) -> In x kept \/ x = c.
Proof.
  induction kept as [| k kept IH]; simpl.
  - intros [<- | []]. now right.
  - destruct (duplicates k c).
    + destruct (Qltb (circularity k) (circularity c)); simpl.
      * intros [<- | Hin]; [now right | now left; right].
      * intros [<- | Hin]; [now left; left | now left; right].
    + simpl. intros [<- | Hin]; [now left; left |].
      destruct (IH Hin) as [Hk | ->]; [now left; right | now right].
Qed.

Lemma fold_merge_subset (l acc : list component) (x : component) :
  In x (fold_left merge_into l acc) -> In x acc \/ In x l.
Proof.
  revert acc. induction l as [| c l IH]; intros acc; simpl.
  - now left.
  - intros Hin. destruct (IH _ Hin) as [Hacc | Hl]; [| now right; right].
    destruct (merge_into_subset _ _ _ Hacc) as [Hk | ->];
      [now left | now right; left].
Qed.

Lemma merge_duplicates_subset (l : list component) (x : component) :
  In x (merge_duplicates l) -> In x l.
Proof.
  unfold merge_duplicates. intros Hin.
  destruct (fold_merge_subset _ _ _ Hin) as [[] | Hl]. exact Hl.
Qed.

End BlobDetectorFacts.

Section BlobDetection.
Context `{Platform}.
Import LungImageProcessor.
Local Open Scope Q_scope.

(** What the detector returns was measured on the image and passed the
    filter built from [min_radius] and [max_radius]. *)
Lemma detect_nodules_components_retained (image : gray)
  (min_radius max_radius : Z) (candidates : list component) :
  detect_nodules_components image min_radius max_radius = Ok candidates ->
  exists components,
    blob_components image = Some components
    /\ forall c, In c candidates ->
         In c components
         /\ np_pi * inject_Z (min_radius ^ 2) <= area c
         /\ area c <= np_pi * inject_Z (max_radius ^ 2)
         /\ 0.5 <= circularity c
         /\ 0.8 <= convexity c.
Proof.
  unfold detect_nodules_components, BlobDetector.detect.
  destruct (blob_components image) as [components |]; simpl; [| discriminate].
  intros [= <-]. exists components. split; [reflexivity |].
  intros c Hc.
  apply merge_duplicates_subset in Hc. apply filter_In in Hc.
  destruct Hc as [Hin Hret]. split; [exact Hin |].
  unfold BlobDetector.retained, nodule_params in Hret. simpl in Hret.
  rewrite !andb_true_iff in Hret. rewrite !Qleb_true in Hret. tauto.
Qed.

(** C5: every candidate that the blob detector returns for [min_radius] and
    [max_radius] is one of the components of the image, its area lies in
    [[pi min_radius^2, pi max_radius^2]], its circularity is at least 0.5
    and its convexity at least 0.8; with the defaults 3 and 20 the area lies
    in [[9 pi, 400 pi]]. *)
Theorem detect_nodules_bounds (image : gray) (min_radius max_radius : Z)
  (candidates : list component) :
  detect_nodules_components image min_radius max_radius = Ok candidates ->
  detect_nodules image min_radius max_radius = Ok (map keypoint candidates)
  /\ (exists components,
        blob_components image = Some components
        /\ forall c, In c candidates -> In c components)
  /\ (forall c, In c candidates ->
        np_pi * inject_Z (min_radius ^ 2) <= area c
        /\ area c <= np_pi * inject_Z (max_radius ^ 2)
        /\ 0.5 <= circularity c
        /\ 0.8 <= convexity c)
  /\ (min_radius = 3%Z -> max_radius = 20%Z ->
      forall c, In c candidates -> np_pi * 9 <= area c /\ area c <= np_pi * 400).
Proof.
  intros Hrun.
  destruct (detect_nodules_components_retained _ _ _ _ Hrun)
    as [components [Hcomp Hbounds]].
  split; [| split; [| split]].
  - unfold detect_nodules. rewrite Hrun. reflexivity.
  - exists components. split; [exact Hcomp |].
    intros c Hc. apply (Hbounds c Hc).
  - intros c Hc. apply (Hbounds c Hc).
  - intros -> -> c Hc. destruct (Hbounds c Hc) as [_ [Hlo [Hhi _]]].
    split; assumption.
Qed.

(** The detector fails only when OpenCV does. *)
Lemma detect_nodules_total (image : gray) (min_radius max_radius : Z)
  (components : list component) :
  blob_components image = Some components ->
  exists candidates,
    detect_nodules_components image min_radius max_radius = Ok candidates.
Proof.
  intros E. unfold detect_nodules_components, BlobDetector.detect.
  rewrite E. simpl. eauto.
Qed.

End BlobDetection.

(** On the fixture one component of four is returned, with area 113. *)
Lemma detect_nodules_bounds_witness :
  exists candidates,
    @LungImageProcessor.detect_nodules_components Fixture.platform Fixture.xray 3 20
    = Ok candidates
    /\ @LungImageProcessor.detect_nodules Fixture.platform Fixture.xray 3 20
       = Ok [mk_KeyPoint (5, 5)%Q 12]
    /\ forall c, In c candidates ->
         (np_pi * 9 <= area c /\ area c <= np_pi * 400)%Q.
Proof.
  eexists. split; [vm_compute; reflexivity |].
  destruct (@detect_nodules_bounds Fixture.platform Fixture.xray 3 20 _ eq_refl)
    as [Hkp [_ [_ Hdefault]]].
  split; [exact Hkp | exact (Hdefault eq_refl eq_refl)].
Defined.

(** ** Effects: code that only prints *)

Lemma quiet_ret {A} (a : A) : quiet (ret a).
Proof. intros s. exists a, s. split; reflexivity. Qed.

Lemma quiet_emit (ev : event) : quiet (emit ev).
Proof. intros s. eexists. eexists. split; reflexivity. Qed.

Lemma quiet_print (m : message) : quiet (print m).
Proof. apply quiet_emit. Qed.

Lemma quiet_bind {A B} (m : M A) (k : A -> M B) :
  quiet m -> (forall a, quiet (k a)) -> quiet (bind m k).
Proof.
  intros Hm Hk s. destruct (Hm s) as [a [s1 [E1 R1]]].
  destruct (Hk a s1) as [b [s2 [E2 R2]]].
  exists b, s2. unfold bind. rewrite E1. split; [exact E2 | congruence].
Qed.

Lemma quiet_for_each {A B} (l : list A) (body : B -> A -> M B) (acc : B) :
  (forall acc x, quiet (body acc x)) -> quiet (for_each l acc body).
Proof.
  intros Hbody. revert acc. induction l as [| x l IH]; intros acc; simpl.
  - apply quiet_ret.
  - apply quiet_bind; [apply Hbody | intros acc'; apply IH].
Qed.

Lemma quiet_for_each_in {A B} (l : list A) (body : B -> A -> M B) (acc : B) :
  (forall acc x, In x l -> quiet (body acc x)) -> quiet (for_each l acc body).
Proof.
  revert acc. induction l as [| x l IH]; intros acc Hbody; simpl.
  - apply quiet_ret.
  - apply quiet_bind; [apply Hbody; now left |].
    intros acc'. apply IH. intros acc0 y Hy. apply Hbody. now right.
Qed.

(** ** Effects: code that leaves the results alone *)

Lemma preserving_ret {A} (a : A) : preserving (ret a).
Proof. intros s. reflexivity. Qed.

Lemma preserving_lift {A} (r : result A) : preserving (lift r).
Proof. intros s. reflexivity. Qed.

Lemma preserving_emit (ev : event) : preserving (emit ev).
Proof. intros s. reflexivity. Qed.

Lemma preserving_print (m : message) : preserving (print m).
Proof. apply preserving_emit. Qed.

Lemma preserving_bind {A B} (m : M A) (k : A -> M B) :
  preserving m -> (forall a, preserving (k a)) -> preserving (bind m k).
Proof.
  intros Hm Hk s. unfold bind. specialize (Hm s).
  destruct (m s) as [[a | e] s1]; cbn [snd] in *; [| exact Hm].
  rewrite Hk. exact Hm.
Qed.

Lemma preserving_for_each {A B} (l : list A) (body : B -> A -> M B) (acc : B) :
  (forall acc x, preserving (body acc x)) -> preserving (for_each l acc body).
Proof.
  intros Hbody. revert acc. induction l as [| x l IH]; intros acc; simpl.
  - apply preserving_ret.
  - apply preserving_bind; [apply Hbody | intros acc'; apply IH].
Qed.

(** The exceptions that leave a loop are those that leave its body. *)
Lemma for_each_raise {A B} (P : exn -> Prop) (l : list A)
  (body : B -> A -> M B) :
  (forall acc x s e s', body acc x s = (Raise e, s') -> P e) ->
  forall acc s e s', for_each l acc body s = (Raise e, s') -> P e.
Proof.
  intros Hbody. induction l as [| x l IH]; intros acc s e s'; simpl.
  - discriminate.
  - unfold bind. destruct (body acc x s) as [[acc' | e'] s1] eqn:E.
    + apply IH.
    + intros [= <- _]. exact (Hbody _ _ _ _ _ E).
Qed.

Section LoaderEffects.
Context `{Platform}.
Import CovidDatasetLoader.

Lemma preserving_scan_category acc item : preserving (scan_category acc item).
Proof.
  unfold scan_category. destruct acc as [category_info total_images].
  destruct item as [display_name folder].
  destruct (os_path_exists _).
  - apply preserving_bind; [apply preserving_lift | intros listing].
    apply preserving_bind; [apply preserving_print | intros _].
    apply preserving_ret.
  - apply preserving_bind; [apply preserving_print | intros _].
    apply preserving_ret.
Qed.

Lemma preserving_get_dataset_info : preserving get_dataset_info.
Proof.
  unfold get_dataset_info.
  apply preserving_bind; [apply preserving_print | intros _].
  destruct (negb _).
  - apply preserving_bind; [apply preserving_print | intros _].
    apply preserving_bind; [apply preserving_print | intros _].
    apply preserving_ret.
  - apply preserving_bind.
    + apply preserving_for_each. intros acc x. apply preserving_scan_category.
    + intros [category_info total_images].
      apply preserving_bind; [apply preserving_print | intros _].
      apply preserving_ret.
Qed.

(** The loader never touches [self.results]. *)
Lemma preserving_get_all_category_images (category : string)
  (max_images : option Z) :
  preserving (get_all_category_images category max_images).
Proof.
  unfold get_all_category_images.
  apply preserving_bind; [apply preserving_get_dataset_info |].
  intros [info |]; [| apply preserving_ret].
  destruct info as [| kv info']; [apply preserving_ret |].
  destruct (dict_get _ _); apply preserving_ret.
Qed.

(** The only exception that leaves the loader is the [OSError] of
    [os.listdir]. *)
Lemma scan_category_raise acc item (s : session) (e : exn) (s' : session) :
  scan_category acc item s = (Raise e, s') -> e = OSError.
Proof.
  unfold scan_category. destruct acc as [category_info total_images].
  destruct item as [display_name folder].
  destruct (os_path_exists _).
  - unfold bind, lift. destruct (os_listdir _) as [listing |]; cbn [of_os].
    + unfold print, emit, ret. discriminate.
    + now intros [= <- _].
  - unfold bind, print, emit, ret. discriminate.
Qed.

Lemma get_dataset_info_raise (s : session) (e : exn) (s' : session) :
  get_dataset_info s = (Raise e, s') -> e = OSError.
Proof.
  unfold get_dataset_info, bind at 1, print at 1, emit at 1.
  destruct (negb _).
  - unfold bind, print, emit, ret. discriminate.
  - unfold bind at 1.
    destruct (for_each categories ([], 0) scan_category _)
      as [[[category_info total_images] | e0] s1] eqn:Eloop.
    + unfold bind, print, emit, ret. discriminate.
    + intros [= <- _].
      refine (for_each_raise (fun e => e = OSError) categories scan_category
                _ _ _ _ _ Eloop).
      intros acc x s0 e1 s2. apply scan_category_raise.
Qed.

Lemma get_all_category_images_raise (category : string) (max_images : option Z)
  (s : session) (e : exn) (s' : session) :
  get_all_category_images category max_images s = (Raise e, s') -> e = OSError.
Proof.
  unfold get_all_category_images, bind.
  destruct (get_dataset_info s) as [[info | e0] s1] eqn:E.
  - destruct info as [info |]; [| unfold ret; discriminate].
    destruct info as [| kv info']; [unfold ret; discriminate |].
    destruct (dict_get _ _); unfold ret; discriminate.
  - intros [= <- _]. exact (get_dataset_info_raise _ _ _ E).
Qed.

(** When the images folders can be listed the loader returns. *)
Lemma quiet_scan_category acc item :
  listable -> In item categories -> quiet (scan_category acc item).
Proof.
  intros Hls Hin. unfold scan_category.
  destruct acc as [category_info total_images].
  destruct item as [display_name folder].
  destruct (os_path_exists _) eqn:Ex.
  - destruct (Hls display_name folder Hin Ex) as [listing Els].
    rewrite Els. intros s. unfold bind, lift, print, emit, ret. cbn [of_os].
    do 2 eexists. split; reflexivity.
  - apply quiet_bind; [apply quiet_print | intros _; apply quiet_ret].
Qed.

Lemma quiet_get_dataset_info : listable -> quiet get_dataset_info.
Proof.
  intros Hls. unfold get_dataset_info.
  apply quiet_bind; [apply quiet_print | intros _].
  destruct (negb _).
  - apply quiet_bind; [apply quiet_print | intros _].
    apply quiet_bind; [apply quiet_print | intros _; apply quiet_ret].
  - apply quiet_bind.
    + apply quiet_for_each_in. intros acc x Hx.
      apply quiet_scan_category; assumption.
    + intros [category_info total_images].
      apply quiet_bind; [apply quiet_print | intros _; apply quiet_ret].
Qed.

Lemma quiet_get_all_category_images (category : string) (max_images : option Z) :
  listable -> quiet (get_all_category_images category max_images).
Proof.
  intros Hls. unfold get_all_category_images.
  apply quiet_bind; [apply quiet_get_dataset_info; exact Hls |].
  intros [info |]; [| apply quiet_ret].
  destruct info as [| kv info']; [apply quiet_ret |].
  destruct (dict_get _ _); apply quiet_ret.
Qed.

(** With a positive limit the loader returns at most that many paths. *)
Lemma get_all_category_images_at_most (category : string) (n : Z)
  (s s1 : session) (paths : list string) :
  0 < n ->
  get_all_category_images category (Some n) s = (Ok paths, s1) ->
  len paths <= n.
Proof.
  intros Hn. unfold get_all_category_images, bind.
  destruct (get_dataset_info s) as [[info | e] s'] eqn:E; [| discriminate].
  destruct info as [info |]; [| intros [= <- _]; unfold len; simpl; lia].
  destruct info as [| kv info']; [intros [= <- _]; unfold len; simpl; lia |].
  destruct (dict_get _ _) as [entry |];
    [| intros [= <- _]; unfold len; simpl; lia].
  unfold ret. intros [= <- _].
  unfold truthy. destruct (n =? 0) eqn:E0; [apply Z.eqb_eq in E0; lia |].
  simpl negb. cbv iota.
  unfold len. rewrite length_map. fold (len (slice_to (images entry) n)).
  rewrite length_slice_to_positive by assumption. lia.
Qed.

End LoaderEffects.

(** ** covid_analyzer.py: one image *)

Section SingleImage.
Context `{Platform}.
Import CovidImageAnalyzer.

(** A stage raised: the block stops there, with the state it has reached. *)
Ltac stage_raises := right; do 2 eexists; split; reflexivity.

(** The [try] block either runs to its end, appending one record whose
    counts it returns, or raises with [self.results] untouched. *)
Lemma analyze_body_cases (p c : string) (s : session) :
  (exists result_image r s',
      analyze_body p c s
      = (Ok (Some result_image, blob_detections r, contour_detections r), s')
      /\ results s' = results s ++ [r]
      /\ total_findings r = blob_detections r + contour_detections r
      /\ category r = c
      /\ image_path r = p)
  \/ (exists e s',
        analyze_body p c s = (Raise e, s')
        /\ results s' = results s).
Proof.
  unfold analyze_body, bind, lift, print, emit.
  destruct (Utils.load_image p) as [original | e]; [| stage_raises].
  destruct (enhanced_covid_preprocessing original) as [processed | e];
    [| stage_raises].
  destruct (LungImageProcessor.detect_nodules processed 3 20) as [keypoints | e];
    [| stage_raises].
  destruct (LungImageProcessor.analyze_regions processed) as [contours | e];
    [| stage_raises].
  destruct (LungImageProcessor.draw_detections original keypoints contours)
    as [result_image | e]; [| stage_raises].
  unfold Utils.display_images.
  destruct (plt_show original result_image); [| stage_raises].
  left. unfold emit, results_append, print_analysis_report, print, emit, ret.
  simpl.
  exists result_image,
    (mk_analysis_result c (Str.basename p) (shape original)
       (len keypoints) (len contours) (len keypoints + len contours) p).
  eexists. split; [reflexivity |]. simpl. repeat split.
Qed.

Lemma analyze_single_image_cases (image_path category : string) (s : session) :
  (exists result_image r s',
      analyze_single_image image_path category s
      = (Ok (Some result_image, blob_detections r, contour_detections r), s')
      /\ results s' = results s ++ [r]
      /\ total_findings r = blob_detections r + contour_detections r)
  \/ (exists e s_fail,
        analyze_body image_path category (announced image_path category s)
        = (Raise e, s_fail)
        /\ results s_fail = results s
        /\ analyze_single_image image_path category s
           = (Ok (None, 0, 0),
              mk_session (results s)
                (console s_fail ++ [Print (ErrorAnalyzing image_path e)]))).
Proof.
  unfold analyze_single_image, bind, print, emit, try_except.
  fold (announced image_path category s).
  destruct (analyze_body_cases image_path category
              (announced image_path category s))
    as [[img [r [s' [E [R [T _]]]]]] | [e [s' [E R]]]].
  - left. rewrite E. exists img, r, s'. repeat split; assumption.
  - right. rewrite E. exists e, s'. simpl in R. rewrite R.
    repeat split; reflexivity.
Qed.

Lemma app_one_neq {A} (l : list A) (x : A) : l ++ [x] <> l.
Proof.
  intros E. apply (f_equal (@length A)) in E.
  rewrite length_app in E. simpl in E. lia.
Qed.

(** C9: when the analysis of an image fails at whatever stage of the [try]
    block, nothing is appended to [self.results], the image adds zero to
    both batch totals, and the failure is flagged: an error line naming the
    image and the exception is printed and the returned image is [None].  A
    successful analysis is never mistaken for it: whatever the outcome, the
    returned image is [None] exactly when no record was appended. *)
Theorem analyze_single_image_atomic (image_path category : string)
  (s s_fail : session) (e : exn) :
  analyze_body image_path category (announced image_path category s)
  = (Raise e, s_fail) ->
  (exists s',
     analyze_single_image image_path category s = (Ok (None, 0, 0), s')
     /\ results s' = results s
     /\ console s' = console s_fail ++ [Print (ErrorAnalyzing image_path e)]
     /\ forall total_blobs total_contours,
          add_image category (total_blobs, total_contours) image_path s
          = (Ok (total_blobs, total_contours), s'))
  /\ (forall p c s1 image blobs contours s2,
        analyze_single_image p c s1 = (Ok (image, blobs, contours), s2) ->
        (image = None <-> results s2 = results s1)).
Proof.
  intros Hfail. split.
  - destruct (analyze_single_image_cases image_path category s)
      as [[img [r [s' [E _]]]] | [e' [s_fail' [Hbody [_ E]]]]].
    + exfalso. unfold analyze_single_image, bind, print, emit, try_except in E.
      fold (announced image_path category s) in E.
      rewrite Hfail in E. discriminate.
    + rewrite Hfail in Hbody. injection Hbody as <- <-.
      eexists. split; [exact E |]. repeat split.
      intros total_blobs total_contours.
      unfold add_image, bind. rewrite E. unfold ret.
      now rewrite !Z.add_0_r.
  - intros p c s1 image blobs contours s2 E.
    destruct (analyze_single_image_cases p c s1)
      as [[img [r [s' [E' [R _]]]]] | [e' [s_fail' [_ [_ E']]]]];
      rewrite E' in E; injection E as <- <- <- <-.
    + split; [discriminate |]. rewrite R. intros Habs.
      exfalso. exact (app_one_neq _ _ Habs).
    + split; reflexivity.
Qed.

(** The analyzer's record carries the sum of the two counts. *)
Lemma analyze_single_image_total (image_path category : string)
  (s s' : session) (image : bgr) (blobs contours : Z) :
  analyze_single_image image_path category s = (Ok (Some image, blobs, contours), s') ->
  exists r,
    results s' = results s ++ [r]
    /\ blob_detections r = blobs /\ contour_detections r = contours
    /\ total_findings r = blobs + contours.
Proof.
  intros E.
  destruct (analyze_single_image_cases image_path category s)
    as [[img [r [s1 [E' [R T]]]]] | [e' [s_fail' [_ [_ E']]]]];
    rewrite E' in E; [| discriminate].
  injection E as <- <- <- <-. exists r. repeat split; assumption.
Qed.

End SingleImage.

(** On the fixture the second image of the category cannot be read. *)
Lemma analyze_single_image_atomic_witness :
  exists s_fail s',
    @CovidImageAnalyzer.analyze_body Fixture.platform
      "data/covid_dataset/COVID/images/b.png" "COVID"
      (CovidImageAnalyzer.announced "data/covid_dataset/COVID/images/b.png"
         "COVID" new_session)
    = (Raise (ValueError
                "Could not load image from data/covid_dataset/COVID/images/b.png"),
       s_fail)
    /\ @CovidImageAnalyzer.analyze_single_image Fixture.platform
         "data/covid_dataset/COVID/images/b.png" "COVID" new_session
       = (Ok (None, 0, 0), s')
    /\ results s' = [].
Proof.
  eexists.
  destruct (@analyze_single_image_atomic Fixture.platform
              "data/covid_dataset/COVID/images/b.png" "COVID" new_session
              _ _ eq_refl) as [[s' [Hrun [Hres _]]] _].
  exists s'. split; [reflexivity |]. split; [exact Hrun | exact Hres].
Defined.

(** ** covid_analyzer.py: a batch *)

Section Batch.
Context `{Platform}.
Import CovidImageAnalyzer.

Lemma sum_app (l1 l2 : list Z) : Py.sum (l1 ++ l2) = Py.sum l1 + Py.sum l2.
Proof.
  unfold Py.sum. induction l1 as [| x l1 IH]; simpl; [reflexivity | lia].
Qed.

(** One turn of the loop: a record and its counts, or nothing at all. *)
Lemma add_image_cases (category p : string) (s : session)
  (total_blobs total_contours : Z) :
  (exists r s1,
      add_image category (total_blobs, total_contours) p s
      = (Ok (total_blobs + blob_detections r,
             total_contours + contour_detections r), s1)
      /\ results s1 = results s ++ [r])
  \/ (exists s1,
        add_image category (total_blobs, total_contours) p s
        = (Ok (total_blobs, total_contours), s1)
        /\ results s1 = results s).
Proof.
  unfold add_image, bind.
  destruct (analyze_single_image_cases p category s)
    as [[img [r [s1 [E [R _]]]]] | [e [s_fail [_ [_ E]]]]]; rewrite E; unfold ret.
  - left. exists r, s1. split; [reflexivity | exact R].
  - right. eexists. rewrite !Z.add_0_r. split; reflexivity.
Qed.

(** The loop of [analyze_category] never raises; it appends one record per
    image that could be analysed and adds up their counts. *)
Lemma batch_totals (category : string) (paths : list string) :
  forall (s : session) (total_blobs total_contours : Z),
  exists new total_blobs' total_contours' s',
    for_each paths (total_blobs, total_contours) (add_image category) s
    = (Ok (total_blobs', total_contours'), s')
    /\ results s' = results s ++ new
    /\ (length new <= length paths)%nat
    /\ total_blobs' = total_blobs + sum_blobs new
    /\ total_contours' = total_contours + sum_contours new.
Proof.
  induction paths as [| p paths IH]; intros s total_blobs total_contours.
  - exists [], total_blobs, total_contours, s. simpl. unfold ret.
    rewrite app_nil_r. unfold sum_blobs, sum_contours. simpl.
    repeat split; lia.
  - change (for_each (p :: paths) (total_blobs, total_contours)
              (add_image category) s)
      with (bind (add_image category (total_blobs, total_contours) p)
              (fun acc => for_each paths acc (add_image category)) s).
    unfold bind.
    destruct (add_image_cases category p s total_blobs total_contours)
      as [[r [s1 [E R]]] | [s1 [E R]]]; rewrite E.
    + destruct (IH s1 (total_blobs + blob_detections r)
                  (total_contours + contour_detections r))
        as [new [tb [tc [s2 [E2 [R2 [L2 [B2 C2]]]]]]]].
      exists (r :: new), tb, tc, s2. split; [exact E2 |].
      split; [rewrite R2, R, <- app_assoc; reflexivity |].
      split; [simpl; lia |].
      unfold sum_blobs, sum_contours in *. simpl. unfold Py.sum in *. simpl. lia.
    + destruct (IH s1 total_blobs total_contours)
        as [new [tb [tc [s2 [E2 [R2 [L2 [B2 C2]]]]]]]].
      exists new, tb, tc, s2. split; [exact E2 |].
      split; [rewrite R2, R; reflexivity |]. split; [simpl; lia |]. lia.
Qed.

(** C1, as the code has it: [analyze_category] reports as "images analyzed"
    the number of paths that the loader returned, which is at most the
    requested count, and divides the total findings by that same number.  An
    image that fails to load adds no finding and no record, and it is still
    counted: the records appended may be fewer than the images reported. *)
Theorem analyze_category_summary (category : string) (max_images : Z)
  (s s1 : session) (image_paths : list string) :
  CovidDatasetLoader.get_all_category_images category (Some max_images)
    (mk_session (results s) (console s ++ [Print (CategoryHeader category)]))
  = (Ok image_paths, s1) ->
  image_paths <> [] ->
  exists new total_blobs total_contours average s2 s3,
    for_each image_paths (0, 0) (add_image category) s1
    = (Ok (total_blobs, total_contours), s2)
    /\ analyze_category category max_images s = (Ok (total_blobs, total_contours), s3)
    /\ results s3 = results s ++ new
    /\ (length new <= length image_paths)%nat
    /\ total_blobs = sum_blobs new
    /\ total_contours = sum_contours new
    /\ console s3
       = console s2
         ++ [Print (SummaryHeader category);
             Print (ImagesAnalyzed (len image_paths));
             Print (TotalBlobDetections total_blobs);
             Print (TotalContourDetections total_contours);
             Print (AverageFindings average)]
    /\ (average == inject_Z (total_blobs + total_contours)
                   / inject_Z (len image_paths))%Q
    /\ (0 < max_images -> len image_paths <= max_images).
Proof.
  intros Hload Hne.
  destruct (batch_totals category image_paths s1 0 0)
    as [new [tb [tc [s2 [Eloop [R2 [L2 [B2 C2]]]]]]]].
  assert (Rs1 : results s1 = results s).
  { pose proof (preserving_get_all_category_images category (Some max_images)
                  (mk_session (results s)
                     (console s ++ [Print (CategoryHeader category)]))) as R.
    rewrite Hload in R. exact R. }
  assert (Hlen : ~ (inject_Z (len image_paths) == 0)%Q).
  { unfold len. apply inject_Z_of_nat_nonzero.
    destruct image_paths; [congruence | simpl; lia]. }
  exists new, tb, tc,
    (inject_Z (tb + tc) / inject_Z (len image_paths))%Q, s2.
  eexists. split; [exact Eloop |]. split.
  - unfold analyze_category, bind at 1, print at 1, emit at 1.
    unfold bind at 1. rewrite Hload.
    destruct image_paths as [| p rest]; [congruence |].
    unfold bind at 1. rewrite Eloop.
    unfold bind, print, emit, lift. rewrite truediv_nonzero by exact Hlen.
    unfold ret. reflexivity.
  - simpl. split; [rewrite R2, Rs1; reflexivity |].
    split; [exact L2 |]. split; [lia |]. split; [lia |].
    split; [rewrite <- !app_assoc; reflexivity |].
    split; [reflexivity |].
    intros Hpos.
    eapply get_all_category_images_at_most; [exact Hpos | exact Hload].
Qed.

End Batch.

(** On the fixture three images are found and one of them cannot be read:
    two records are appended, three images are reported. *)
Lemma analyze_category_summary_witness :
  exists s1 new total_blobs total_contours s3,
    @CovidDatasetLoader.get_all_category_images Fixture.platform "COVID" (Some 3)
      (mk_session [] [Print (CategoryHeader "COVID")])
    = (Ok ["data/covid_dataset/COVID/images/a.png";
           "data/covid_dataset/COVID/images/b.png";
           "data/covid_dataset/COVID/images/c.PNG"]%string, s1)
    /\ @CovidImageAnalyzer.analyze_category Fixture.platform "COVID" 3 new_session
       = (Ok (total_blobs, total_contours), s3)
    /\ results s3 = new
    /\ (length new <= 3)%nat.
Proof.
  eexists.
  destruct (@analyze_category_summary Fixture.platform "COVID" 3 new_session _
              ["data/covid_dataset/COVID/images/a.png";
               "data/covid_dataset/COVID/images/b.png";
               "data/covid_dataset/COVID/images/c.PNG"]%string eq_refl
              ltac:(discriminate))
    as [new [tb [tc [average [s2 [s3 [_ [Hrun [Hres [Hlen _]]]]]]]]]].
  exists new, tb, tc, s3. split; [reflexivity |].
  split; [exact Hrun |]. split; [exact Hres | exact Hlen].
Defined.

(** Scenario C on the fixture: of the three images of the category one fails
    to load and two are processed, yet the summary reports three images and
    divides the six findings by three. *)
Lemma summary_counts_failed_image :
  let s := snd (@CovidImageAnalyzer.analyze_category Fixture.platform "COVID" 3
                  new_session) in
  length (results s) = 2%nat
  /\ In (Print (ErrorAnalyzing "data/covid_dataset/COVID/images/b.png"
                  (ValueError
                     "Could not load image from data/covid_dataset/COVID/images/b.png")))
        (console s)
  /\ In (Print (ImagesAnalyzed 3)) (console s)
  /\ ~ In (Print (ImagesAnalyzed 2)) (console s)
  /\ last (console s) (Print TableHeader) = Print (AverageFindings (6 # 3))
  /\ ~ (6 # 3 == 6 # 2)%Q.
Proof.
  vm_compute. repeat split.
  - do 12 right. now left.
  - do 18 right. now left.
  - intros Hin. repeat (destruct Hin as [Hin | Hin]; [discriminate |]).
    exact Hin.
  - discriminate.
Qed.


(** ** main.py: the total of one image *)

Section ProcessSingleImage.
Context `{Platform}.
Import Main.

Lemma contections_undefined :
  load_global "contections" = Raise (NameError "contections").
Proof. reflexivity. Qed.

(** The [try] block of [process_single_image] never reaches its [return]:
    the name [contections] is bound nowhere. *)
Lemma process_body_raises (image_path : string) (s : session) :
  exists e s', process_body image_path s = (Raise e, s').
Proof.
  unfold process_body, bind, lift, logger, emit.
  destruct (LungImageProcessor.load_image image_path) as [original | e];
    [| eauto].
  destruct (LungImageProcessor.preprocess_image original) as [processed | e];
    [| eauto].
  destruct (LungImageProcessor.detect_nodules processed 3 20) as [keypoints | e];
    [| eauto].
  destruct (LungImageProcessor.analyze_regions processed) as [contours | e];
    [| eauto].
  destruct (LungImageProcessor.draw_detections original keypoints contours)
    as [result_image | e]; [| eauto].
  destruct (cv2_imwrite _ result_image); unfold ret, Utils.display_images, emit;
    destruct (plt_show original result_image); simpl; eauto.
Qed.

(** Whatever the image and whatever is detected in it,
    [process_single_image] returns no image and a total of zero. *)
Lemma process_single_image_returns_zero (image_path : string) (s : session) :
  fst (process_single_image image_path s) = Ok (None, 0).
Proof.
  unfold process_single_image, bind, logger, emit.
  destruct (negb (os_path_exists image_path)); [reflexivity |].
  unfold try_except.
  destruct (process_body_raises image_path
              (mk_session (results s)
                 (console s ++ [Log INFO (StartingProcessing image_path)])))
    as [e [s' ->]].
  reflexivity.
Qed.

(** When every stage up to the display succeeds, the total that was shown in
    the title is lost: the function logs the [NameError] and returns zero. *)
Lemma process_single_image_name_error (image_path : string) (s : session)
  (original processed : gray) (keypoints : list KeyPoint)
  (contours : list Contour) (result_image : bgr) :
  os_path_exists image_path = true ->
  LungImageProcessor.load_image image_path = Ok original ->
  LungImageProcessor.preprocess_image original = Ok processed ->
  LungImageProcessor.detect_nodules processed 3 20 = Ok keypoints ->
  LungImageProcessor.analyze_regions processed = Ok contours ->
  LungImageProcessor.draw_detections original keypoints contours = Ok result_image ->
  plt_show original result_image = true ->
  let '(r, s') := process_single_image image_path s in
  r = Ok (None, 0)
  /\ In (Displayed (TitleOriginal (Str.basename image_path))
           (TitleFound (len keypoints + len contours))) (console s')
  /\ last (console s') (Log INFO (StartingProcessing image_path))
     = Log ERROR (ErrorProcessing image_path (NameError "contections")).
Proof.
  intros Hex Hload Hpre Hkp Hct Hdraw Hshow.
  unfold process_single_image, bind, logger, emit. rewrite Hex. simpl negb.
  cbv iota. unfold try_except, process_body, bind, lift, logger, emit.
  rewrite Hload, Hpre, Hkp, Hct, Hdraw.
  unfold Utils.display_images. rewrite Hshow.
  destruct (cv2_imwrite _ result_image); unfold ret, emit; simpl;
    (split; [reflexivity |]); rewrite last_last;
    (split; [| reflexivity]); rewrite !in_app_iff; simpl; tauto.
Qed.

End ProcessSingleImage.

(** C2 fails in [main.py]: on the fixture the title that is displayed
    announces the 3 findings of the image, [len(keypoints) + len(contours)],
    and [process_single_image] then returns no image and a total of 0, after
    logging the [NameError] for [contections]. *)
Theorem process_single_image_loses_total :
  let '(r, s) := @Main.process_single_image Fixture.platform
                   "data/sample_images/xray.png" new_session in
  In (Displayed (TitleOriginal "xray.png") (TitleFound 3)) (console s)
  /\ r = Ok (None, 0)
  /\ last (console s) (Print TableHeader)
     = Log ERROR (ErrorProcessing "data/sample_images/xray.png"
                    (NameError "contections")).
Proof.
  vm_compute. repeat split. do 3 right. now left.
Qed.

(** * Further properties of the sources *)

(** ** The results of a session only grow *)

Lemma grows_refl (s : session) : grows s s.
Proof. exists []. rewrite app_nil_r. split; [reflexivity | constructor]. Qed.

Lemma grows_trans (s1 s2 s3 : session) :
  grows s1 s2 -> grows s2 s3 -> grows s1 s3.
Proof.
  intros [n1 [R1 F1]] [n2 [R2 F2]]. exists (n1 ++ n2). split.
  - rewrite R2, R1, app_assoc. reflexivity.
  - apply Forall_app. split; assumption.
Qed.

Lemma growing_ret {A} (a : A) : growing (ret a).
Proof. intros s. apply grows_refl. Qed.

Lemma growing_lift {A} (r : result A) : growing (lift r).
Proof. intros s. apply grows_refl. Qed.

Lemma growing_raise {A} (e : exn) : growing (@raise A e).
Proof. intros s. apply grows_refl. Qed.

Lemma growing_emit (ev : event) : growing (emit ev).
Proof. intros s. simpl. exists []. rewrite app_nil_r. split; [reflexivity | constructor]. Qed.

Lemma growing_print (m : message) : growing (print m).
Proof. apply growing_emit. Qed.

Lemma growing_get_results : growing get_results.
Proof. intros s. apply grows_refl. Qed.

Lemma growing_append (r : analysis_result) :
  consistent r -> growing (results_append r).
Proof.
  intros Hr s. simpl. exists [r]. split; [reflexivity |].
  constructor; [exact Hr | constructor].
Qed.

Lemma growing_bind {A B} (m : M A) (k : A -> M B) :
  growing m -> (forall a, growing (k a)) -> growing (bind m k).
Proof.
  intros Hm Hk s. unfold bind. specialize (Hm s).
  destruct (m s) as [[a | e] s1]; simpl in *.
  - eapply grows_trans; [exact Hm | apply Hk].
  - exact Hm.
Qed.

Lemma growing_try_except {A} (body : M A) (handler : exn -> M A) :
  growing body -> (forall e, growing (handler e)) ->
  growing (try_except body handler).
Proof.
  intros Hb Hh s. unfold try_except. specialize (Hb s).
  destruct (body s) as [[a | e] s1]; simpl in *.
  - exact Hb.
  - eapply grows_trans; [exact Hb | apply Hh].
Qed.

Lemma growing_for_each {A B} (l : list A) (body : B -> A -> M B) (acc : B) :
  (forall acc x, growing (body acc x)) -> growing (for_each l acc body).
Proof.
  intros Hbody. revert acc. induction l as [| x l IH]; intros acc; simpl.
  - apply growing_ret.
  - apply growing_bind; [apply Hbody | intros acc'; apply IH].
Qed.

Lemma preserving_growing {A} (m : M A) : preserving m -> growing m.
Proof.
  intros Hp s. exists []. rewrite app_nil_r. split; [apply Hp | constructor].
Qed.

Lemma len_nonneg {A} (l : list A) : 0 <= len l.
Proof. unfold len. lia. Qed.

Section Growth.
Context `{Platform}.
Import CovidImageAnalyzer.

Lemma growing_display (original : gray) (processed : bgr) (t1 t2 : title) :
  growing (Utils.display_images original processed t1 t2).
Proof.
  unfold Utils.display_images.
  destruct (plt_show original processed);
    [apply growing_emit | apply growing_raise].
Qed.

Lemma growing_analyze_body (p c : string) : growing (analyze_body p c).
Proof.
  unfold analyze_body.
  apply growing_bind; [apply growing_lift | intros original].
  apply growing_bind; [apply growing_print | intros _].
  apply growing_bind; [apply growing_lift | intros processed].
  apply growing_bind; [apply growing_lift | intros keypoints].
  apply growing_bind; [apply growing_lift | intros contours].
  apply growing_bind; [apply growing_lift | intros result_image].
  apply growing_bind; [apply growing_display | intros _].
  apply growing_bind.
  - apply growing_append. unfold consistent. simpl.
    repeat split; try reflexivity; apply len_nonneg.
  - intros _. apply growing_bind; [apply growing_print | intros _].
    apply growing_ret.
Qed.

Lemma growing_analyze_single_image (p c : string) :
  growing (analyze_single_image p c).
Proof.
  unfold analyze_single_image.
  apply growing_bind; [apply growing_print | intros _].
  apply growing_try_except; [apply growing_analyze_body |].
  intros e. apply growing_bind; [apply growing_print | intros _].
  apply growing_ret.
Qed.

Lemma growing_add_image (c : string) (acc : Z * Z) (p : string) :
  growing (add_image c acc p).
Proof.
  unfold add_image. destruct acc as [total_blobs total_contours].
  apply growing_bind; [apply growing_analyze_single_image |].
  intros [[result blobs] contours]. apply growing_ret.
Qed.

Lemma growing_analyze_category (c : string) (max_images : Z) :
  growing (analyze_category c max_images).
Proof.
  unfold analyze_category.
  apply growing_bind; [apply growing_print | intros _].
  apply growing_bind;
    [apply preserving_growing, preserving_get_all_category_images
    | intros image_paths].
  destruct image_paths as [| p rest].
  - apply growing_bind; [apply growing_print | intros _; apply growing_ret].
  - apply growing_bind.
    + apply growing_for_each. intros acc x. apply growing_add_image.
    + intros [total_blobs total_contours].
      repeat (apply growing_bind; [apply growing_print | intros _]).
      apply growing_bind; [apply growing_lift | intros average].
      apply growing_bind; [apply growing_print | intros _].
      apply growing_ret.
Qed.

Lemma growing_save_results_to_csv : growing save_results_to_csv.
Proof.
  unfold save_results_to_csv.
  apply growing_bind; [apply growing_get_results | intros rows].
  destruct rows; [apply growing_ret |].
  apply growing_bind; [| intros _; apply growing_print].
  destruct (df_to_csv _ _); [apply growing_emit | apply growing_raise].
Qed.

Lemma growing_create_comparison_report (category_results : dict category_result)
  (images_per_category : Z) :
  growing (create_comparison_report category_results images_per_category).
Proof.
  unfold create_comparison_report.
  apply growing_bind; [apply growing_print | intros _].
  apply growing_bind; [apply growing_print | intros _].
  apply growing_bind.
  - apply growing_for_each. intros [] [category r]. unfold print_row.
    apply growing_bind; [apply growing_lift | intros avg; apply growing_print].
  - intros _. apply growing_bind.
    + destruct (plt_bar_charts _ _ _ _); [apply growing_emit | apply growing_raise].
    + intros _. apply growing_save_results_to_csv.
Qed.

(** X1: whatever the analyzer does with a session, be it one image, a
    category or the comparison of all categories, and whether it returns or
    raises, [self.results] is only appended to, and every record appended
    carries [total_findings = blob_detections + contour_detections],
    non-negative counts and the base name of its path as file name. *)
Theorem analyzer_results_grow (s : session) (p c : string) (n : Z) :
  grows s (snd (analyze_single_image p c s))
  /\ grows s (snd (analyze_category c n s))
  /\ grows s (snd (compare_all_categories n s)).
Proof.
  split; [apply growing_analyze_single_image |].
  split; [apply growing_analyze_category |].
  unfold compare_all_categories. revert s.
  change (growing (print ComparingHeader ;;
                   category_results <-
                     for_each category_names [] (compare_category n) ;;
                   create_comparison_report category_results n)).
  apply growing_bind; [apply growing_print | intros _].
  apply growing_bind.
  - apply growing_for_each. intros acc x. unfold compare_category.
    apply growing_bind; [apply growing_analyze_category |].
    intros [blobs contours]. apply growing_ret.
  - intros category_results. apply growing_create_comparison_report.
Qed.

End Growth.

(** ** covid_analyzer.py: a batch ends unless the listing fails *)


Lemma dict_get_In {V} (d : dict V) (k : string) (v : V) :
  In (k, v) d -> dict_get d k <> None.
Proof.
  induction d as [| [k0 v0] d IH]; simpl; [intros [] |].
  intros [[= -> ->] | Hin].
  - rewrite String.eqb_refl. discriminate.
  - destruct (String.eqb k0 k); [discriminate | exact (IH Hin)].
Qed.

Section BatchRuns.
Context `{Platform}.
Import CovidImageAnalyzer.

(** Once the loader has returned, [analyze_category] returns, with the sums
    of the counts of the records it appended. *)
Lemma analyze_category_loaded (c : string) (n : Z) (s s1 : session)
  (paths : list string) :
  CovidDatasetLoader.get_all_category_images c (Some n) (headed c s)
  = (Ok paths, s1) ->
  exists total_blobs total_contours new s',
    analyze_category c n s = (Ok (total_blobs, total_contours), s')
    /\ results s' = results s ++ new
    /\ total_blobs = sum_blobs new
    /\ total_contours = sum_contours new
    /\ (paths = [] ->
        total_blobs = 0 /\ total_contours = 0 /\ new = []
        /\ last (console s') (Print (CategoryHeader c)) = Print (NoImagesFound c)).
Proof.
  intros Eload.
  assert (R1 : results s1 = results s).
  { pose proof (preserving_get_all_category_images c (Some n) (headed c s)) as R.
    rewrite Eload in R. exact R. }
  unfold analyze_category, bind at 1, print at 1, emit at 1.
  unfold bind at 1. fold (headed c s). rewrite Eload.
  destruct paths as [| p rest].
  - unfold bind, print, emit, ret. simpl.
    exists 0, 0, []. eexists. split; [reflexivity |]. simpl.
    rewrite app_nil_r. split; [exact R1 |]. split; [reflexivity |].
    split; [reflexivity |]. intros _. repeat split. apply last_last.
  - destruct (batch_totals c (p :: rest) s1 0 0)
      as [new [tb [tc [s2 [Eloop [R2 [_ [B2 C2]]]]]]]].
    unfold bind at 1. rewrite Eloop.
    unfold bind, print, emit, lift.
    rewrite truediv_nonzero
      by (unfold len; apply inject_Z_of_nat_nonzero; simpl; lia).
    unfold ret. exists tb, tc, new. eexists. split; [reflexivity |]. simpl.
    split; [rewrite R2, R1; reflexivity |]. split; [lia |]. split; [lia |].
    discriminate.
Qed.

(** When the loader raises, so does [analyze_category], before it has
    analysed an image. *)
Lemma analyze_category_unloaded (c : string) (n : Z) (s s1 : session)
  (e : exn) :
  CovidDatasetLoader.get_all_category_images c (Some n) (headed c s)
  = (Raise e, s1) ->
  analyze_category c n s = (Raise e, s1)
  /\ e = OSError /\ results s1 = results s.
Proof.
  intros Eload. split; [| split].
  - unfold analyze_category, bind at 1, print at 1, emit at 1.
    unfold bind at 1. fold (headed c s). rewrite Eload. reflexivity.
  - exact (get_all_category_images_raise _ _ _ _ _ Eload).
  - pose proof (preserving_get_all_category_images c (Some n) (headed c s)) as R.
    rewrite Eload in R. exact R.
Qed.

(** When the images folders can be listed, [analyze_category] returns. *)
Lemma analyze_category_runs (c : string) (n : Z) (s : session) :
  CovidDatasetLoader.listable ->
  exists total_blobs total_contours new s',
    analyze_category c n s = (Ok (total_blobs, total_contours), s')
    /\ results s' = results s ++ new
    /\ total_blobs = sum_blobs new
    /\ total_contours = sum_contours new.
Proof.
  intros Hls.
  destruct (quiet_get_all_category_images c (Some n) Hls (headed c s))
    as [paths [s1 [Eload _]]].
  destruct (analyze_category_loaded c n s s1 paths Eload)
    as [tb [tc [new [s' [E [R [B [C _]]]]]]]].
  exists tb, tc, new, s'. repeat split; assumption.
Qed.


(** No entry of the dataset information bears an unknown name. *)
Lemma unknown_category_no_paths (c : string) (max_images : option Z)
  (s s1 : session) (paths : list string) :
  dict_get CovidDatasetLoader.categories c = None ->
  CovidDatasetLoader.get_all_category_images c max_images s = (Ok paths, s1) ->
  paths = [].
Proof.
  intros Hunknown.
  unfold CovidDatasetLoader.get_all_category_images, bind.
  destruct (CovidDatasetLoader.get_dataset_info s) as [[info | e] s0] eqn:E;
    [| discriminate].
  destruct info as [info |]; [| unfold ret; now intros [= <- _]].
  destruct (dict_get info c) as [entry |] eqn:Eget.
  - exfalso.
    destruct (get_dataset_info_listed s s0 info E c entry Eget)
      as [folder [listing [Hin _]]].
    exact (dict_get_In _ _ _ Hin Hunknown).
  - destruct info; [| rewrite Eget]; unfold ret; now intros [= <- _].
Qed.

(** X3: for a category that is not one of the four names of the loader,
    [analyze_category] analyses no image whatever the file system holds.
    The data set is scanned all the same: if [os.listdir] raises on one of
    its folders the call raises [OSError]; otherwise it finds no image,
    returns [(0, 0)] and ends by printing that no images were found.  Either
    way nothing is appended to [self.results]. *)
Theorem analyze_category_unknown (c : string) (n : Z) (s : session) :
  dict_get CovidDatasetLoader.categories c = None ->
  (forall r s',
     analyze_category c n s = (r, s') ->
     results s' = results s
     /\ (r = Raise OSError
         \/ (r = Ok (0, 0)
             /\ last (console s') (Print (CategoryHeader c))
                = Print (NoImagesFound c))))
  /\ (CovidDatasetLoader.listable ->
      exists s', analyze_category c n s = (Ok (0, 0), s')).
Proof.
  intros Hunknown.
  assert (Hcases : forall r s',
    analyze_category c n s = (r, s') ->
    results s' = results s
    /\ (r = Raise OSError
        \/ (r = Ok (0, 0)
            /\ last (console s') (Print (CategoryHeader c))
               = Print (NoImagesFound c)))).
  { intros r s' Erun.
    destruct (CovidDatasetLoader.get_all_category_images c (Some n) (headed c s))
      as [[paths | e] s1] eqn:Eload.
    - pose proof (unknown_category_no_paths c (Some n) _ _ _ Hunknown Eload)
        as Hnil.
      destruct (analyze_category_loaded c n s s1 paths Eload)
        as [tb [tc [new [s2 [E [R [_ [_ Hempty]]]]]]]].
      destruct (Hempty Hnil) as [-> [-> [-> Hlast]]].
      rewrite E in Erun. injection Erun as <- <-.
      rewrite app_nil_r in R. split; [exact R |]. right. split; [reflexivity |].
      exact Hlast.
    - destruct (analyze_category_unloaded c n s s1 e Eload) as [E [He R]].
      rewrite E in Erun. injection Erun as <- <-. subst e.
      split; [exact R |]. now left. }
  split; [exact Hcases |].
  intros Hls.
  destruct (analyze_category_runs c n s Hls) as [tb [tc [new [s' [E _]]]]].
  destruct (Hcases _ _ E) as [_ [Hr | [Hr _]]]; [discriminate |].
  exists s'. rewrite E, Hr. reflexivity.
Qed.

End BatchRuns.

Lemma fixture_listable : @CovidDatasetLoader.listable Fixture.platform.
Proof.
  intros display_name folder Hin Hex. simpl in *.
  destruct Hin as [[= <- <-] | [[= <- <-] | [[= <- <-] | [[= <- <-] | []]]]];
    try discriminate Hex.
  eexists. reflexivity.
Qed.


(** When the images folder cannot be listed the batch raises [OSError]
    before any image is analysed. *)
Example analyze_category_unlistable :
  exists s',
    @CovidImageAnalyzer.analyze_category Fixture.unlistable "COVID" 3 new_session
    = (Raise OSError, s')
    /\ results s' = [].
Proof. eexists. split; [vm_compute; reflexivity | reflexivity]. Qed.

(** The fixture knows no category called [Tuberculosis]. *)
Lemma analyze_category_unknown_witness :
  dict_get CovidDatasetLoader.categories "Tuberculosis" = None
  /\ @CovidDatasetLoader.listable Fixture.platform
  /\ exists s',
       @CovidImageAnalyzer.analyze_category Fixture.platform "Tuberculosis" 3
         new_session = (Ok (0, 0), s')
       /\ results s' = [].
Proof.
  split; [reflexivity |]. split; [exact fixture_listable |].
  destruct (@analyze_category_unknown Fixture.platform "Tuberculosis" 3
              new_session eq_refl) as [Hcases Hruns].
  destruct (Hruns fixture_listable) as [s' E].
  exists s'. split; [exact E |]. exact (proj1 (Hcases _ _ E)).
Defined.

(** ** covid_analyzer.py: the comparison of all categories *)

Section Comparison.
Context `{Platform}.
Import CovidImageAnalyzer.






End Comparison.



(** When the folder [data/results] is missing the comparison raises
    [OSError] after the chart has been drawn. *)
Example compare_all_categories_without_results :
  exists s',
    @CovidImageAnalyzer.compare_all_categories Fixture.without_results 2
      new_session = (Raise OSError, s')
    /\ length (results s') = 1%nat
    /\ forall rows, ~ In (SavedCsv CovidImageAnalyzer.csv_path rows) (console s').
Proof.
  eexists. split; [vm_compute; reflexivity |]. split; [reflexivity |].
  intros rows Hin. vm_compute in Hin.
  repeat (destruct Hin as [Hin | Hin]; [discriminate |]). exact Hin.
Qed.

(** ** covid_loader.py: what the loader returns *)

Lemma slice_to_negative {A} (l : list A) (n : Z) :
  n < 0 -> slice_to l n = firstn (Z.to_nat (len l + n)) l.
Proof.
  intros Hn. unfold slice_to, len.
  destruct (0 <=? n) eqn:E; [apply Z.leb_le in E; lia | reflexivity].
Qed.

Lemma In_firstn {A} (l : list A) (n : nat) (x : A) :
  In x (firstn n l) -> In x l.
Proof.
  revert n. induction l as [| y l IH]; intros [| n]; simpl; try tauto.
  intros [-> | Hin]; [now left | right; exact (IH n Hin)].
Qed.

Lemma In_slice_to {A} (l : list A) (n : Z) (x : A) :
  In x (slice_to l n) -> In x l.
Proof. unfold slice_to. destruct (0 <=? n); apply In_firstn. Qed.

Section LoaderResults.
Context `{Platform}.
Import CovidDatasetLoader.

(** X6: a negative [max_images = n] is not rejected: the slice [images[:n]]
    drops the last [-n] images of the category, and returns nothing once
    [-n] reaches the number of images. *)
Theorem get_all_category_images_negative (category : string) (n : Z)
  (s s1 : session) (info : dict category_entry) (entry : category_entry) :
  get_dataset_info s = (Ok (Some info), s1) ->
  dict_get info category = Some entry ->
  n < 0 ->
  exists paths,
    get_all_category_images category (Some n) s = (Ok paths, s1)
    /\ paths = map (Str.join (path entry))
                 (firstn (Z.to_nat (len (images entry) + n)) (images entry))
    /\ len paths = Z.max 0 (len (images entry) + n)
    /\ (len (images entry) <= - n -> paths = []).
Proof.
  intros Hinfo Hget Hn. eexists. split; [| split; [| split]].
  - rewrite (get_all_category_images_found _ _ _ _ _ _ Hinfo Hget).
    unfold truthy. destruct (n =? 0) eqn:E; [apply Z.eqb_eq in E; lia |].
    simpl. rewrite slice_to_negative by assumption. reflexivity.
  - reflexivity.
  - unfold len. rewrite length_map, length_firstn. lia.
  - intros Hall. replace (Z.to_nat (len (images entry) + n)) with 0%nat by lia.
    reflexivity.
Qed.

(** The paths that the loader returns come from the listing of the
    category's images folder. *)
Lemma returned_paths_listed (category : string) (max_images : option Z)
  (s s1 : session) (paths : list string) :
  get_all_category_images category max_images s = (Ok paths, s1) ->
  Forall (fun p =>
    exists folder listing f,
      In (category, folder) categories
      /\ os_listdir (Str.join3 dataset_path folder "images") = Some listing
      /\ In f listing
      /\ Str.endswith_any (Str.lower f) image_extensions = true
      /\ p = Str.join (Str.join3 dataset_path folder "images") f) paths.
Proof.
  intros E. unfold get_all_category_images, bind in E.
  destruct (get_dataset_info s) as [[info | e] s0] eqn:Einfo; [| discriminate].
  destruct info as [info |]; [| injection E as <- _; constructor].
  destruct (dict_get info category) as [entry |] eqn:Eget.
  - destruct (get_dataset_info_listed s s0 info Einfo category entry Eget)
      as [folder [listing [Hin [Hpath [_ [Hls [Himages _]]]]]]].
    destruct info as [| kv info']; [discriminate |].
    rewrite Eget in E. unfold ret in E. injection E as <- _.
    apply Forall_forall. intros p Hp. apply in_map_iff in Hp.
    destruct Hp as [f [<- Hf]].
    assert (Hlisted : In f (images entry)).
    { destruct max_images as [n |]; [| exact Hf].
      destruct (truthy (Some n)); [exact (In_slice_to _ _ _ Hf) | exact Hf]. }
    rewrite Himages in Hlisted. apply filter_In in Hlisted.
    destruct Hlisted as [Hdir Hext]. rewrite Hpath in Hls.
    exists folder, listing, f. rewrite Hpath. repeat split; assumption.
  - destruct info as [| kv info']; [| rewrite Eget in E];
      injection E as <- _; constructor.
Qed.

(** X7: whatever the category, the limit and the state of the file system,
    [get_all_category_images] leaves [self.results] alone, and the only
    exception that leaves it is the [OSError] of [os.listdir]; when every
    images folder that exists can be listed it returns.  Every path it
    returns is the images folder of that category joined with a name that
    the folder lists and whose lower-case form ends in [.png], [.jpg],
    [.jpeg] or [.bmp]. *)
Theorem get_all_category_images_image_files (category : string)
  (max_images : option Z) (s : session) :
  results (snd (get_all_category_images category max_images s)) = results s
  /\ (forall e s1,
        get_all_category_images category max_images s = (Raise e, s1) ->
        e = OSError)
  /\ (forall paths s1,
        get_all_category_images category max_images s = (Ok paths, s1) ->
        Forall (fun p =>
          exists folder listing f,
            In (category, folder) categories
            /\ os_listdir (Str.join3 dataset_path folder "images") = Some listing
            /\ In f listing
            /\ Str.endswith_any (Str.lower f) image_extensions = true
            /\ p = Str.join (Str.join3 dataset_path folder "images") f) paths)
  /\ (listable ->
      exists paths s1,
        get_all_category_images category max_images s = (Ok paths, s1)).
Proof.
  split; [apply preserving_get_all_category_images |].
  split; [intros e s1; apply get_all_category_images_raise |].
  split; [intros paths s1; apply returned_paths_listed |].
  intros Hls.
  destruct (quiet_get_all_category_images category max_images Hls s)
    as [paths [s1 [E _]]].
  eauto.
Qed.

End LoaderResults.

(** On the fixture the loader returns the three images of the category. *)
Lemma get_all_category_images_image_files_witness :
  @CovidDatasetLoader.listable Fixture.platform
  /\ exists paths s1,
       @CovidDatasetLoader.get_all_category_images Fixture.platform "COVID" None
         new_session = (Ok paths, s1)
       /\ length paths = 3%nat.
Proof.
  split; [exact fixture_listable |].
  destruct (@get_all_category_images_image_files Fixture.platform "COVID" None
              new_session) as [_ [_ [_ Hruns]]].
  destruct (Hruns fixture_listable) as [paths [s1 E]].
  exists paths, s1. split; [exact E |].
  assert (E' : (Ok paths, s1)
               = @CovidDatasetLoader.get_all_category_images Fixture.platform
                   "COVID" None new_session)
    by (symmetry; exact E).
  vm_compute in E'. injection E' as -> _. reflexivity.
Defined.

(** On the fixture, asking for [-1] images of the category leaves the last
    of the three out. *)
Lemma get_all_category_images_negative_witness :
  exists s1 info entry,
    @CovidDatasetLoader.get_dataset_info Fixture.platform new_session
    = (Ok (Some info), s1)
    /\ dict_get info "COVID" = Some entry
    /\ -1 < 0
    /\ @CovidDatasetLoader.get_all_category_images Fixture.platform "COVID"
         (Some (-1)) new_session
       = (Ok ["data/covid_dataset/COVID/images/a.png";
              "data/covid_dataset/COVID/images/b.png"]%string, s1).
Proof.
  do 3 eexists. split; [vm_compute; reflexivity |]. split; [reflexivity |].
  split; [reflexivity |].
  destruct (@get_all_category_images_negative Fixture.platform "COVID" (-1)
              new_session _ _ _ eq_refl eq_refl eq_refl)
    as [paths [Hrun [Hpaths _]]].
  rewrite Hrun, Hpaths. reflexivity.
Defined.

(** ** Paths: joining a folder and a name, and taking the name back *)

Section Paths.
Import Str.

Lemma append_nil_right (s : string) : (s ++ "")%string = s.
Proof. induction s as [| c s IH]; simpl; [reflexivity | now rewrite IH]. Qed.

Lemma append_assoc_string (a b c : string) :
  ((a ++ b) ++ c)%string = (a ++ (b ++ c))%string.
Proof. induction a as [| x a IH]; simpl; [reflexivity | now rewrite IH]. Qed.

Lemma rev_acc_twice (b acc acc' : string) :
  rev_acc (rev_acc b acc) acc' = rev_acc acc (b ++ acc')%string.
Proof.
  revert acc acc'. induction b as [| c b IH]; intros acc acc'; simpl.
  - reflexivity.
  - rewrite IH. reflexivity.
Qed.

Lemma rev_involutive_string (s : string) : rev (rev s) = s.
Proof. unfold rev. rewrite rev_acc_twice. simpl. apply append_nil_right. Qed.

Lemma rev_acc_append (y acc : string) :
  rev_acc y acc = (rev_acc y "" ++ acc)%string.
Proof.
  revert acc. induction y as [| c y IH]; intros acc; simpl; [reflexivity |].
  rewrite IH, (IH (String c "")), append_assoc_string. reflexivity.
Qed.

Lemma basename_acc_plain (b acc : string) :
  no_slash b = true -> basename_acc b acc = rev (rev_acc b acc).
Proof.
  revert acc. induction b as [| c b IH]; intros acc; simpl; [reflexivity |].
  intros Hb. apply andb_true_iff in Hb. destruct Hb as [Hc Hb].
  apply negb_true_iff in Hc. rewrite Hc. apply IH. exact Hb.
Qed.

Lemma basename_plain (b : string) : no_slash b = true -> basename b = b.
Proof.
  intros Hb. unfold basename. rewrite basename_acc_plain by assumption.
  unfold rev. rewrite rev_acc_twice. simpl. apply append_nil_right.
Qed.

Lemma basename_acc_after_slash (a b acc : string) :
  basename_acc (a ++ String "/" b) acc = basename_acc b "".
Proof.
  revert acc. induction a as [| c a IH]; intros acc; simpl; [reflexivity |].
  destruct (Ascii.eqb c "/"); apply IH.
Qed.

Lemma plain_not_absolute (name : string) :
  no_slash name = true -> startswith name "/" = false.
Proof.
  unfold startswith. destruct name as [| c name]; [reflexivity |].
  cbn [no_slash String.prefix].
  intros Hn. apply andb_true_iff in Hn. destruct Hn as [Hc _].
  apply negb_true_iff in Hc.
  destruct (ascii_dec "/" c) as [<- | _]; [discriminate | reflexivity].
Qed.

Lemma endswith_slash (dir : string) :
  endswith dir "/" = true -> exists d, dir = (d ++ "/")%string.
Proof.
  unfold endswith. change (rev "/") with "/"%string.
  destruct (rev dir) as [| c y] eqn:E; cbn [String.prefix]; [discriminate |].
  destruct (ascii_dec "/" c) as [<- | _]; [| discriminate].
  intros _. exists (rev y).
  rewrite <- (rev_involutive_string dir), E.
  unfold rev. simpl. apply rev_acc_append.
Qed.

(** The name of a file is the base name of its path in any folder. *)
Lemma basename_join (dir name : string) :
  no_slash name = true -> basename (join dir name) = name.
Proof.
  intros Hn. unfold join. rewrite plain_not_absolute by assumption.
  destruct (String.eqb dir "") eqn:Eempty.
  - apply String.eqb_eq in Eempty. subst dir. simpl.
    apply basename_plain. exact Hn.
  - simpl. destruct (endswith dir "/") eqn:Eslash.
    + destruct (endswith_slash dir Eslash) as [d ->].
      rewrite append_assoc_string. unfold basename. simpl.
      rewrite basename_acc_after_slash. apply basename_plain. exact Hn.
    + unfold basename. rewrite basename_acc_after_slash.
      apply basename_plain. exact Hn.
Qed.

End Paths.

Section FileNames.
Context `{Platform}.
Import CovidDatasetLoader.

(** X8: the file name that the analyzer prints and records for an image of
    a category, [os.path.basename] of the path that the loader built with
    [os.path.join], is the name under which the images folder lists the
    file. *)
Theorem loaded_file_names (category : string) (max_images : option Z)
  (s s1 : session) (paths : list string) :
  listdir_plain ->
  get_all_category_images category max_images s = (Ok paths, s1) ->
  Forall (fun p =>
    exists folder listing,
      In (category, folder) categories
      /\ os_listdir (Str.join3 dataset_path folder "images") = Some listing
      /\ In (Str.basename p) listing
      /\ p = Str.join (Str.join3 dataset_path folder "images") (Str.basename p))
    paths.
Proof.
  intros Hplain E.
  pose proof (returned_paths_listed category max_images s s1 paths E) as Hl.
  eapply Forall_impl; [| exact Hl].
  intros p [folder [listing [f [Hin [Hls [Hf [_ ->]]]]]]].
  rewrite (basename_join _ f (Hplain _ listing f Hls Hf)).
  exists folder, listing. repeat split; assumption.
Qed.

End FileNames.

Lemma fixture_listdir_plain :
  @CovidDatasetLoader.listdir_plain Fixture.platform.
Proof.
  intros dir listing f. simpl. unfold Fixture.listdir.
  destruct (String.eqb dir Fixture.covid_images).
  - intros [= <-] [<- | [<- | [<- | [<- | []]]]]; reflexivity.
  - destruct (String.eqb dir "data/covid_dataset").
    + intros [= <-] [<- | []]. reflexivity.
    + destruct (String.eqb dir "data/results"); [| discriminate].
      intros [= <-] [].
Qed.

(** On the fixture the three paths of the category give back [a.png],
    [b.png] and [c.PNG]. *)
Lemma loaded_file_names_witness :
  @CovidDatasetLoader.listdir_plain Fixture.platform
  /\ exists paths s1,
       @CovidDatasetLoader.get_all_category_images Fixture.platform "COVID" None
         new_session = (Ok paths, s1)
       /\ map Str.basename paths = ["a.png"; "b.png"; "c.PNG"]%string
       /\ Forall (fun p =>
            exists folder listing,
              In ("COVID"%string, folder) CovidDatasetLoader.categories
              /\ @os_listdir Fixture.platform
                   (Str.join3 CovidDatasetLoader.dataset_path folder "images")
                 = Some listing
              /\ In (Str.basename p) listing
              /\ p = Str.join
                       (Str.join3 CovidDatasetLoader.dataset_path folder "images")
                       (Str.basename p)) paths.
Proof.
  split; [exact fixture_listdir_plain |].
  do 2 eexists. split; [vm_compute; reflexivity |]. split; [reflexivity |].
  apply (@loaded_file_names Fixture.platform "COVID" None new_session _ _
           fixture_listdir_plain eq_refl).
Defined.

(** ** covid_loader.py: the dataset information *)

Lemma dict_set_fresh {V} (d : dict V) (k : string) (v : V) :
  dict_get d k = None -> dict_set d k v = d ++ [(k, v)].
Proof.
  induction d as [| [k0 v0] d IH]; simpl; [reflexivity |].
  destruct (String.eqb k0 k); [discriminate |].
  intros Hnone. now rewrite IH.
Qed.

Section DatasetInfo.
Context `{Platform}.
Import CovidDatasetLoader.

(** The loop over the categories: a category gets an entry exactly when its
    images folder exists, and the running total is the sum of the counts. *)
Lemma scan_loop (items : dict string) :
  NoDup (map fst items) ->
  (forall display folder,
     In (display, folder) items ->
     os_path_exists (Str.join3 dataset_path folder "images") = true ->
     exists listing,
       os_listdir (Str.join3 dataset_path folder "images") = Some listing) ->
  forall (acc : dict category_entry * Z) (s : session),
    (forall k, In k (map fst items) -> dict_get (fst acc) k = None) ->
    exists info total s',
      for_each items acc scan_category s = (Ok (info, total), s')
      /\ results s' = results s
      /\ (forall k, ~ In k (map fst items) -> dict_get info k = dict_get (fst acc) k)
      /\ (forall display folder, In (display, folder) items ->
            dict_mem info display
            = os_path_exists (Str.join3 dataset_path folder "images"))
      /\ total - count_sum info = snd acc - count_sum (fst acc).
Proof.
  induction items as [| [display folder] items IH]; intros Hnd Hls acc s Hfresh.
  - destruct acc as [ci t]. exists ci, t, s. simpl. unfold ret.
    repeat split; try reflexivity. intros d f [].
  - simpl in Hnd. inversion Hnd as [| k0 l0 Hnotin Hnd']; subst.
    destruct acc as [ci t]. cbn [for_each]. unfold bind at 1.
    assert (Hstep : exists acc' s1,
      scan_category (ci, t) (display, folder) s = (Ok acc', s1)
      /\ results s1 = results s
      /\ (forall k, k <> display -> dict_get (fst acc') k = dict_get ci k)
      /\ dict_mem (fst acc') display
         = os_path_exists (Str.join3 dataset_path folder "images")
      /\ snd acc' - count_sum (fst acc') = t - count_sum ci).
    { unfold scan_category.
      assert (Hd : dict_get ci display = None) by (apply Hfresh; now left).
      destruct (os_path_exists (Str.join3 dataset_path folder "images")) eqn:Ex.
      - destruct (Hls display folder (or_introl eq_refl) Ex) as [listing Els].
        rewrite Els. unfold bind, lift, print, emit, ret. cbn [of_os].
        do 2 eexists. split; [reflexivity |]. cbn [fst snd results].
        split; [reflexivity |]. split.
        + intros k Hk. rewrite dict_get_set.
          destruct (String.eqb display k) eqn:Ek; [| reflexivity].
          apply String.eqb_eq in Ek. congruence.
        + split.
          * unfold dict_mem. rewrite dict_get_set, String.eqb_refl. reflexivity.
          * rewrite (dict_set_fresh _ _ _ Hd). unfold count_sum.
            rewrite map_app, sum_app. unfold Py.sum. simpl. lia.
      - unfold bind, print, emit, ret. do 2 eexists.
        split; [reflexivity |]. cbn [fst snd results].
        split; [reflexivity |]. split; [reflexivity |].
        split; [| reflexivity]. unfold dict_mem. now rewrite Hd. }
    destruct Hstep as [acc' [s1 [Estep [R1 [Hkeep [Hmem Hsum]]]]]].
    rewrite Estep.
    destruct (IH Hnd' (fun d f Hin => Hls d f (or_intror Hin)) acc' s1)
      as [info [total [s' [Eloop [R' [Hkeep' [Hmem' Hsum']]]]]]].
    { intros k Hk. rewrite Hkeep.
      - apply Hfresh. now right.
      - intros ->. contradiction. }
    exists info, total, s'. split; [exact Eloop |].
    split; [congruence |]. split; [| split].
    + intros k Hk. rewrite Hkeep'.
      * apply Hkeep. intros ->. apply Hk. now left.
      * intros Hin. apply Hk. now right.
    + intros d f [[= -> ->] | Hin].
      * unfold dict_mem in *. rewrite (Hkeep' d Hnotin). exact Hmem.
      * apply Hmem'. exact Hin.
    + cbn [fst snd]. lia.
Qed.

(** X9: when the dataset folder exists and its images folders can be
    listed, [get_dataset_info] returns a dictionary in which a category has
    an entry exactly when its [images] folder exists, and the total it
    prints last is the sum of the image counts of the entries;
    [self.results] is left as it was.  When a folder cannot be listed the
    call raises the [OSError] of [os.listdir], and [self.results] is left as
    it was all the same. *)
Theorem get_dataset_info_entries (s : session) :
  os_path_exists dataset_path = true ->
  (listable ->
   exists info s1,
     get_dataset_info s = (Ok (Some info), s1)
     /\ results s1 = results s
     /\ (forall display folder, In (display, folder) categories ->
           dict_mem info display
           = os_path_exists (Str.join3 dataset_path folder "images"))
     /\ last (console s1) (Print DatasetInfoHeader)
        = Print (TotalImages (Py.sum (map (fun kv => count (snd kv)) info))))
  /\ (forall e s1,
        get_dataset_info s = (Raise e, s1) ->
        e = OSError /\ results s1 = results s).
Proof.
  intros Hex. split.
  - intros Hlistable.
    unfold get_dataset_info, bind at 1, print at 1, emit at 1.
    rewrite Hex. cbn [negb]. unfold bind at 1.
    assert (Hnd : NoDup (map fst categories)).
    { unfold categories. simpl.
      repeat (constructor; [simpl; intuition discriminate |]). constructor. }
    destruct (scan_loop categories Hnd Hlistable ([], 0)
                (mk_session (results s) (console s ++ [Print DatasetInfoHeader])))
      as [info [total [s' [Eloop [R' [_ [Hmem Hsum]]]]]]];
      [reflexivity |].
    exists info. eexists.
    match goal with
    | |- context [for_each ?l ?a ?b ?st] =>
        replace (for_each l a b st) with (Ok (info, total), s')
          by (symmetry; exact Eloop)
    end.
    unfold bind, print, emit, ret.
    split; [reflexivity |]. cbn [results console].
    split; [exact R' |]. split; [exact Hmem |].
    rewrite last_last. unfold count_sum in Hsum. simpl in Hsum.
    do 2 f_equal. lia.
  - intros e s1 E. split; [exact (get_dataset_info_raise _ _ _ E) |].
    pose proof (preserving_get_dataset_info s) as R.
    rewrite E in R. exact R.
Qed.

End DatasetInfo.

(** On the fixture only the folder of the COVID category exists. *)
Lemma get_dataset_info_entries_witness :
  @os_path_exists Fixture.platform CovidDatasetLoader.dataset_path = true
  /\ @CovidDatasetLoader.listable Fixture.platform
  /\ exists info s1,
       @CovidDatasetLoader.get_dataset_info Fixture.platform new_session
       = (Ok (Some info), s1)
       /\ dict_mem info "COVID" = true
       /\ dict_mem info "Normal" = false.
Proof.
  split; [reflexivity |]. split; [exact fixture_listable |].
  destruct (proj1 (@get_dataset_info_entries Fixture.platform new_session
                     eq_refl) fixture_listable)
    as [info [s1 [E [_ [Hmem _]]]]].
  exists info, s1. split; [exact E |]. split.
  - rewrite (Hmem "COVID"%string "COVID"%string); [reflexivity | now left].
  - rewrite (Hmem "Normal"%string "normal"%string);
      [reflexivity | right; now left].
Defined.

(** On a machine whose images folder cannot be listed the scan raises. *)
Example get_dataset_info_unlistable :
  fst (@CovidDatasetLoader.get_dataset_info Fixture.unlistable new_session)
  = Raise OSError.
Proof. reflexivity. Qed.

(** ** image_processor.py: the contour detector never divides by zero *)

Section ContourGuard.
Context `{Platform}.
Import LungImageProcessor.
Local Open Scope Q_scope.

Lemma keep_contour_passes (acc : list Contour) (c : Contour) :
  keep_contour acc c = Ok (if passes c then (acc ++ [c])%list else acc).
Proof.
  unfold keep_contour, passes.
  destruct (Qltb 50 (cv2_contourArea c) && Qltb (cv2_contourArea c) 1000)%bool;
    cbn [andb]; [| reflexivity].
  destruct (Qltb 0 (cv2_arcLength c true)) eqn:Ep; cbn [andb]; [| reflexivity].
  apply Qltb_true in Ep. rewrite truediv_nonzero.
  - cbn [rbind]. destruct (Qltb 0.5 _); reflexivity.
  - intros Hz. apply Qsquare_pos in Ep. rewrite Hz in Ep.
    exact (Qlt_irrefl _ Ep).
Qed.

Lemma keep_contours_passes (contours acc : list Contour) :
  rfor_each contours acc keep_contour = Ok (acc ++ filter passes contours)%list.
Proof.
  revert acc. induction contours as [| c contours IH]; intros acc; simpl.
  - now rewrite app_nil_r.
  - rewrite keep_contour_passes. simpl. rewrite IH.
    destruct (passes c); [| reflexivity]. now rewrite <- app_assoc.
Qed.

(** X10: whatever OpenCV measures, the contour detector never divides by
    zero: the only exception that leaves [analyze_regions] is the
    [cv2.error] of one of its two OpenCV calls.  When it returns, it returns
    contours that [cv2.findContours] found, in the order found, and each of
    them has a positive perimeter. *)
Theorem analyze_regions_guarded (image : gray) :
  (forall e, analyze_regions image = Raise e -> e = Cv2Error)
  /\ (forall kept, analyze_regions image = Ok kept ->
        exists binary contours,
          cv2_adaptiveThreshold image 255 ADAPTIVE_THRESH_GAUSSIAN_C
            THRESH_BINARY 11 2 = Some binary
          /\ cv2_findContours binary RETR_EXTERNAL CHAIN_APPROX_SIMPLE
             = Some contours
          /\ kept = filter passes contours
          /\ (length kept <= length contours)%nat
          /\ forall c, In c kept -> In c contours /\ 0 < cv2_arcLength c true).
Proof.
  unfold analyze_regions.
  destruct (cv2_adaptiveThreshold _ _ _ _ _ _) as [binary |] eqn:Ebin; simpl.
  - destruct (cv2_findContours _ _ _) as [contours |] eqn:Efind; simpl.
    + rewrite keep_contours_passes. simpl. split; [discriminate |].
      intros kept [= <-]. exists binary, contours.
      split; [reflexivity |]. split; [exact Efind |]. split; [reflexivity |].
      split; [apply filter_length_le |].
      intros c Hc. apply filter_In in Hc. destruct Hc as [Hin Hp].
      split; [exact Hin |]. unfold passes in Hp.
      rewrite !andb_true_iff in Hp. apply Qltb_true. tauto.
    + split; [now intros e [= <-] | discriminate].
  - split; [now intros e [= <-] | discriminate].
Qed.

End ContourGuard.

(** ** The 8-bit image handed to the contrast enhancement *)

Lemma int_of_unit (q : Q) :
  (0 <= q)%Q -> (q <= 1)%Q ->
  0 <= Py.int (q * 255) <= 255 /\ Py.int (q * 255) mod 256 = Py.int (q * 255).
Proof.
  intros Hlo Hhi. destruct q as [a b].
  unfold Qle in Hlo, Hhi. simpl in Hlo, Hhi.
  unfold Py.int. simpl. rewrite Pos.mul_1_r.
  rewrite Z.quot_div_nonneg by lia.
  assert (Hd : 0 <= a * 255 / Z.pos b <= 255).
  { split.
    - apply Z.div_pos; lia.
    - apply Z.div_le_upper_bound; lia. }
  split; [exact Hd |]. apply Z.mod_small. lia.
Qed.

Section EightBit.
Context `{Platform}.

(** X11: the conversion [(normalized * 255).astype(np.uint8)] that both
    preprocessors apply after the normalisation never wraps around: for
    every grid that is not empty, every sample of the 8-bit image handed to
    the contrast enhancement lies in [[0, 255]] and is the integer part of
    255 times the normalised sample; the shape is that of the input. *)
Theorem normalized_uint8_in_range (image : gray) :
  OpenCV.normalize_is_minmax ->
  is_empty image = false ->
  exists normalized,
    Utils.normalize_image image = Ok (Some normalized)
    /\ shape (times255_uint8 normalized) = shape image
    /\ samples (times255_uint8 normalized)
       = map (fun q => Py.int (q * 255)) (samples normalized)
    /\ Forall (fun v => 0 <= v <= 255) (samples (times255_uint8 normalized)).
Proof.
  intros Hcv Hne.
  destruct (normalize_minmax_unit image) as [out [Hout [Hshape [Hrange _]]]].
  exists out. split.
  { unfold Utils.normalize_image. rewrite Hcv by exact Hne.
    rewrite Hout. reflexivity. }
  split; [exact Hshape |].
  unfold times255_uint8. rewrite samples_amap.
  assert (Hpix : forall q, In q (samples out) ->
            0 <= Py.int (q * 255) <= 255
            /\ Py.int (q * 255) mod 256 = Py.int (q * 255)).
  { intros q Hq. rewrite Forall_forall in Hrange.
    destruct (Hrange q Hq) as [Hlo Hhi]. apply int_of_unit; assumption. }
  split.
  - apply map_ext_in. intros q Hq. apply (Hpix q Hq).
  - apply Forall_forall. intros v Hv. apply in_map_iff in Hv.
    destruct Hv as [q [<- Hq]]. destruct (Hpix q Hq) as [Hr ->]. exact Hr.
Qed.

End EightBit.

(** On the fixture the grid 10, 20, 30, 250 becomes 0, 10, 21, 255. *)
Lemma normalized_uint8_in_range_witness :
  @OpenCV.normalize_is_minmax Fixture.platform
  /\ is_empty Fixture.xray = false
  /\ exists normalized,
       @Utils.normalize_image Fixture.platform Fixture.xray = Ok (Some normalized)
       /\ samples (times255_uint8 normalized) = [0; 10; 21; 255].
Proof.
  split; [exact fixture_normalize_is_minmax |]. split; [reflexivity |].
  destruct (@normalized_uint8_in_range Fixture.platform Fixture.xray
              fixture_normalize_is_minmax eq_refl)
    as [normalized [Hrun _]].
  exists normalized. split; [exact Hrun |].
  assert (E : Ok (Some normalized)
              = @Utils.normalize_image Fixture.platform Fixture.xray)
    by (symmetry; exact Hrun).
  vm_compute in E. injection E as ->. reflexivity.
Defined.

(** ** utils.py: resize_image *)

Section ResizeImage.
Context `{Platform}.

(** X12: [resize_image] keeps the aspect ratio and gives the width
    precedence.  On a grid that is not empty, a requested width [w'] asks
    [cv2.resize] for [(w', int(h * (w' / float(w))))] with area
    interpolation, whatever height is passed along; a requested height [h']
    alone asks for [(int(w * (h' / float(h))), h')].  The computed side,
    rounded twice in doubles and truncated, is within one pixel of the exact
    quotient: its integer part, or one less than a whole quotient.  Without
    width and height the image is returned as it is, with no call to
    OpenCV. *)
Theorem resize_image_request (image : gray) (width' height' : Z)
  (other : option Z) :
  is_empty image = false ->
  0 < width' -> 0 < height' ->
  let h := Z.of_nat (height image) in
  let w := Z.of_nat (width image) in
  h * width' <= 2 ^ 51 -> w * height' <= 2 ^ 51 ->
  (exists new_height,
     Utils.resize_image image (Some width') other
     = of_cv2 (cv2_resize image (width', new_height) INTER_AREA)
     /\ new_height * w <= h * width' <= (new_height + 1) * w)
  /\ (exists new_width,
        Utils.resize_image image None (Some height')
        = of_cv2 (cv2_resize image (new_width, height') INTER_AREA)
        /\ new_width * h <= w * height' <= (new_width + 1) * h)
  /\ Utils.resize_image image None None = Ok image.
Proof.
  intros Hne Hw' Hh' h w Hhw Hwh. apply is_empty_false in Hne.
  destruct Hne as [Hh Hw]. unfold Utils.resize_image.
  subst h w. unfold height, width in *.
  destruct (shape image) as [h w]. cbn [fst snd] in *.
  assert (H51 : 2 ^ 51 < 2 ^ 53) by reflexivity.
  split; [| split].
  - destruct (scaled_int_div (Z.of_nat h) (Z.of_nat w) width')
      as [new_height [Hrun Hb]]; try nia.
    exists new_height. split; [| exact Hb].
    destruct (Float.of_int (Z.of_nat w)) as [fw | e0];
      cbn [rbind] in *; [| discriminate].
    destruct (Float.int_div width' fw) as [ratio | e1];
      cbn [rbind] in *; [| discriminate].
    destruct (Float.int_mul (Z.of_nat h) ratio) as [product | e2];
      cbn [rbind] in *; [| discriminate].
    rewrite Hrun. now destruct other.
  - destruct (scaled_int_div (Z.of_nat w) (Z.of_nat h) height')
      as [new_width [Hrun Hb]]; try nia.
    exists new_width. split; [| exact Hb].
    destruct (Float.of_int (Z.of_nat h)) as [fh | e0];
      cbn [rbind] in *; [| discriminate].
    destruct (Float.int_div height' fh) as [ratio | e1];
      cbn [rbind] in *; [| discriminate].
    destruct (Float.int_mul (Z.of_nat w) ratio) as [product | e2];
      cbn [rbind] in *; [| discriminate].
    rewrite Hrun. reflexivity.
  - reflexivity.
Qed.

Lemma int_div_zero (n : Z) (s : bool) :
  Z.abs n < 2 ^ 1023 ->
  Float.int_div n (S754_zero s) = Raise ZeroDivisionError.
Proof.
  intros Hn. unfold Float.int_div.
  destruct (of_int_converts n Hn) as [x [-> _]]. reflexivity.
Qed.

Lemma int_div_zero_raises (n : Z) (s : bool) :
  Float.int_div n (S754_zero s) = Raise ZeroDivisionError
  \/ Float.int_div n (S754_zero s) = Raise OverflowError.
Proof.
  unfold Float.int_div. destruct (Float.of_int n) as [x | e] eqn:E.
  - left. reflexivity.
  - right. rewrite (of_int_raise n e E). reflexivity.
Qed.

(** X13: [resize_image] does not guard against a grid without columns or
    without rows: asked for a width on a grid of width zero, or for a height
    alone on a grid of height zero, it raises before OpenCV is called,
    whatever the requested size: [ZeroDivisionError] when that size can be
    converted to a float (as every size below [2^1023] in magnitude can),
    the [OverflowError] of that conversion otherwise. *)
Theorem resize_image_empty (image : gray) :
  (width image = 0%nat ->
   forall width' other,
     (Z.abs width' < 2 ^ 1023 ->
      Utils.resize_image image (Some width') other = Raise ZeroDivisionError)
     /\ (Utils.resize_image image (Some width') other = Raise ZeroDivisionError
         \/ Utils.resize_image image (Some width') other = Raise OverflowError))
  /\ (height image = 0%nat ->
      forall height',
        (Z.abs height' < 2 ^ 1023 ->
         Utils.resize_image image None (Some height') = Raise ZeroDivisionError)
        /\ (Utils.resize_image image None (Some height')
            = Raise ZeroDivisionError
            \/ Utils.resize_image image None (Some height')
               = Raise OverflowError)).
Proof.
  unfold Utils.resize_image, height, width.
  destruct (shape image) as [h w]. cbn [fst snd]. split.
  - intros -> width' other.
    change (Float.of_int (Z.of_nat 0)) with (Ok (S754_zero false)).
    cbn [rbind]. split.
    + intros Hsmall. rewrite int_div_zero by exact Hsmall. now destruct other.
    + destruct (int_div_zero_raises width' false) as [-> | ->];
        [left | right]; now destruct other.
  - intros -> height'.
    change (Float.of_int (Z.of_nat 0)) with (Ok (S754_zero false)).
    cbn [rbind]. split.
    + intros Hsmall. rewrite int_div_zero by exact Hsmall. reflexivity.
    + destruct (int_div_zero_raises height' false) as [-> | ->];
        [left | right]; reflexivity.
Qed.

End ResizeImage.

(** On the fixture the 4 x 2048 grid resized to width 512 is asked to become
    1 x 512. *)
Lemma resize_image_request_witness :
  is_empty Fixture.wide = false
  /\ 0 < 512 /\ 0 < 2
  /\ 4 * 512 <= 2 ^ 51 /\ 2048 * 2 <= 2 ^ 51
  /\ @Utils.resize_image Fixture.platform Fixture.wide (Some 512) (Some 99)
     = of_cv2 (@cv2_resize Fixture.platform Fixture.wide (512, 1) INTER_AREA).
Proof.
  split; [reflexivity |]. split; [lia |]. split; [lia |].
  split; [discriminate |]. split; [discriminate |].
  destruct (@resize_image_request Fixture.platform Fixture.wide 512 2
              (Some 99) eq_refl ltac:(lia) ltac:(lia) ltac:(discriminate)
              ltac:(discriminate)) as [[new_height [Hrun _]] _].
  rewrite Hrun.
  assert (E : of_cv2 (@cv2_resize Fixture.platform Fixture.wide
                        (512, new_height) INTER_AREA)
              = @Utils.resize_image Fixture.platform Fixture.wide (Some 512)
                  (Some 99))
    by (symmetry; exact Hrun).
  rewrite E. reflexivity.
Defined.

(** Where the two roundings show: a grid of 27 rows and 3 columns resized to
    width 13 is asked to become 116 rows high, not 117, the integer part of
    [27 * 13 / 3]. *)
Example resize_image_rounding :
  @Utils.resize_image Fixture.platform Fixture.tall (Some 13) None
  = of_cv2 (@cv2_resize Fixture.platform Fixture.tall (13, 116) INTER_AREA)
  /\ 27 * 13 / 3 = 117.
Proof. split; reflexivity. Qed.

(** On the fixture the empty grid cannot be resized. *)
Lemma resize_image_empty_witness :
  is_empty Fixture.empty_grid = true
  /\ Z.abs 512 < 2 ^ 1023
  /\ @Utils.resize_image Fixture.platform Fixture.empty_grid (Some 512) None
     = Raise ZeroDivisionError.
Proof.
  split; [reflexivity |]. split; [reflexivity |].
  exact (proj1 (proj1 (@resize_image_empty Fixture.platform Fixture.empty_grid)
                  eq_refl 512 None) eq_refl).
Defined.

(** A requested width too large for a float raises [OverflowError] when it
    is converted, before the division. *)
Example resize_image_overflow :
  @Utils.resize_image Fixture.platform Fixture.empty_grid (Some (2 ^ 1024)) None
  = Raise OverflowError.
Proof. vm_compute. reflexivity. Qed.

(** ** main.py: what is left behind by a failed run *)

Section ProcessLeftovers.
Context `{Platform}.
Import Main.

(** X14: [process_single_image] is not atomic.  When the image is read,
    preprocessed, analysed, drawn, written and displayed without an
    exception, the annotated image has been saved as
    [data/results/result_<basename>] and shown, and the function nevertheless
    returns [(None, 0)], as it does when a stage fails. *)
Theorem process_single_image_leaves_file (image_path : string) (s : session)
  (original processed : gray) (keypoints : list KeyPoint)
  (contours : list Contour) (result_image : bgr) :
  os_path_exists image_path = true ->
  LungImageProcessor.load_image image_path = Ok original ->
  LungImageProcessor.preprocess_image original = Ok processed ->
  LungImageProcessor.detect_nodules processed 3 20 = Ok keypoints ->
  LungImageProcessor.analyze_regions processed = Ok contours ->
  LungImageProcessor.draw_detections original keypoints contours = Ok result_image ->
  cv2_imwrite ("data/results/result_" ++ Str.basename image_path) result_image
  = true ->
  plt_show original result_image = true ->
  exists s',
    process_single_image image_path s = (Ok (None, 0), s')
    /\ results s' = results s
    /\ console s'
       = console s
         ++ [Log INFO (StartingProcessing image_path);
             Log INFO (ImageLoaded (shape original));
             Written ("data/results/result_" ++ Str.basename image_path)
               result_image;
             Displayed (TitleOriginal (Str.basename image_path))
               (TitleFound (len keypoints + len contours));
             Log ERROR (ErrorProcessing image_path (NameError "contections"))].
Proof.
  intros Hex Hload Hpre Hkp Hct Hdraw Hwrite Hshow.
  unfold process_single_image, bind, logger, emit. rewrite Hex. cbn [negb].
  unfold try_except, process_body, bind, lift, logger, emit.
  rewrite Hload, Hpre, Hkp, Hct, Hdraw, Hwrite.
  unfold Utils.display_images, emit. rewrite Hshow.
  unfold ret. simpl. eexists. split; [reflexivity |]. simpl.
  split; [reflexivity |]. rewrite <- !app_assoc. reflexivity.
Qed.

End ProcessLeftovers.

(** On the fixture the annotated image of the sample is written. *)
Lemma process_single_image_leaves_file_witness :
  exists s',
    @Main.process_single_image Fixture.platform "data/sample_images/xray.png"
      new_session = (Ok (None, 0), s')
    /\ In (Written "data/results/result_xray.png"
             (mk_ndarray (2, 2)%nat
                [[(10, 10, 10); (20, 20, 20)]; [(30, 30, 30); (250, 250, 250)]]))
          (console s').
Proof.
  destruct (@process_single_image_leaves_file Fixture.platform
              "data/sample_images/xray.png" new_session
              _ _ _ _ _ eq_refl eq_refl eq_refl eq_refl eq_refl eq_refl eq_refl
              eq_refl) as [s' [Hrun [_ Hcon]]].
  exists s'. split; [exact Hrun |]. rewrite Hcon. simpl. tauto.
Defined.

(** ** covid_loader.py: the statistics of an image *)

Lemma fold_Zmin_spec (vs : list Z) (v : Z) :
  In (fold_left Z.min vs v) (v :: vs)
  /\ forall x, In x (v :: vs) -> fold_left Z.min vs v <= x.
Proof.
  revert v. induction vs as [| w vs IH]; intros v; simpl.
  - split; [now left |]. intros x [<- | []]. lia.
  - destruct (IH (Z.min v w)) as [Hin Hle]. split.
    + destruct Hin as [Hin | Hin]; [| now right; right].
      rewrite <- Hin. destruct (Z.min_spec v w) as [[_ ->] | [_ ->]]; auto.
    + intros x Hx.
      assert (Hseed : fold_left Z.min vs (Z.min v w) <= Z.min v w)
        by (apply Hle; now left).
      destruct Hx as [<- | [<- | Hx]]; [lia | lia |]. apply Hle. now right.
Qed.

Lemma fold_Zmax_spec (vs : list Z) (v : Z) :
  In (fold_left Z.max vs v) (v :: vs)
  /\ forall x, In x (v :: vs) -> x <= fold_left Z.max vs v.
Proof.
  revert v. induction vs as [| w vs IH]; intros v; simpl.
  - split; [now left |]. intros x [<- | []]. lia.
  - destruct (IH (Z.max v w)) as [Hin Hle]. split.
    + destruct Hin as [Hin | Hin]; [| now right; right].
      rewrite <- Hin. destruct (Z.max_spec v w) as [[_ ->] | [_ ->]]; auto.
    + intros x Hx.
      assert (Hseed : Z.max v w <= fold_left Z.max vs (Z.max v w))
        by (apply Hle; now left).
      destruct Hx as [<- | [<- | Hx]]; [lia | lia |]. apply Hle. now right.
Qed.

Lemma sum_between (l : list Z) (lo hi : Z) :
  (forall x, In x l -> lo <= x <= hi) ->
  lo * len l <= Py.sum l <= hi * len l.
Proof.
  unfold len, Py.sum. induction l as [| x l IH]; intros Hb; simpl; [lia |].
  assert (Hx : lo <= x <= hi) by (apply Hb; now left).
  assert (Hl : lo * Z.of_nat (length l) <= fold_right Z.add 0 l
               <= hi * Z.of_nat (length l))
    by (apply IH; intros y Hy; apply Hb; now right).
  lia.
Qed.

Section ImageStats.
Context `{Platform}.
Import CovidDatasetLoader.

(** X15: for a file that OpenCV can read, [get_image_stats] returns the path
    and the shape of the image together with a minimum and a maximum that
    are samples of the image and bound all of them, and a mean that lies
    between the two; the deviation is numpy's. *)
Theorem get_image_stats_bounds (np_std : gray -> Q) (image_path : string)
  (image : gray) :
  cv2_imread image_path = Some image ->
  samples image <> [] ->
  exists st,
    get_image_stats np_std image_path = Ok (Some st)
    /\ stats_path st = image_path
    /\ stats_shape st = shape image
    /\ std_intensity st = np_std image
    /\ In (min_intensity st) (samples image)
    /\ In (max_intensity st) (samples image)
    /\ (forall v, In v (samples image) ->
          min_intensity st <= v <= max_intensity st)
    /\ (inject_Z (min_intensity st) <= mean_intensity st
        /\ mean_intensity st <= inject_Z (max_intensity st))%Q.
Proof.
  intros Hread Hne. unfold get_image_stats. rewrite Hread.
  unfold np_min, np_max, np_mean.
  destruct (samples image) as [| v vs] eqn:Es; [congruence |].
  destruct (fold_Zmin_spec vs v) as [Hmin_in Hmin].
  destruct (fold_Zmax_spec vs v) as [Hmax_in Hmax].
  simpl rbind. eexists. split; [reflexivity |]. cbn [stats_path stats_shape
    std_intensity min_intensity max_intensity mean_intensity].
  split; [reflexivity |]. split; [reflexivity |]. split; [reflexivity |].
  split; [exact Hmin_in |]. split; [exact Hmax_in |].
  assert (Hall : forall x, In x (v :: vs) ->
            fold_left Z.min vs v <= x <= fold_left Z.max vs v)
    by (intros x Hx; split; [apply Hmin | apply Hmax]; exact Hx).
  split; [exact Hall |].
  pose proof (sum_between (v :: vs) _ _ Hall) as [Hlo Hhi].
  assert (Hpos : (0 < inject_Z (len (v :: vs)))%Q).
  { change 0%Q with (inject_Z 0). rewrite <- Zlt_Qlt. unfold len. simpl. lia. }
  split.
  - apply Qle_shift_div_l; [exact Hpos |].
    rewrite <- inject_Z_mult, <- Zle_Qle. exact Hlo.
  - apply Qle_shift_div_r; [exact Hpos |].
    rewrite <- inject_Z_mult, <- Zle_Qle. exact Hhi.
Qed.

End ImageStats.

(** On the fixture the sample has minimum 10, maximum 250 and mean 310/4. *)
Lemma get_image_stats_bounds_witness :
  @cv2_imread Fixture.platform "data/sample_images/xray.png" = Some Fixture.xray
  /\ samples Fixture.xray <> []
  /\ exists st,
       @CovidDatasetLoader.get_image_stats Fixture.platform (fun _ => 0%Q)
         "data/sample_images/xray.png" = Ok (Some st)
       /\ CovidDatasetLoader.min_intensity st = 10
       /\ CovidDatasetLoader.max_intensity st = 250
       /\ (CovidDatasetLoader.mean_intensity st == 310 # 4)%Q.
Proof.
  split; [reflexivity |]. split; [discriminate |].
  destruct (@get_image_stats_bounds Fixture.platform (fun _ => 0%Q)
              "data/sample_images/xray.png" Fixture.xray eq_refl
              ltac:(discriminate)) as [st [Hrun _]].
  exists st. split; [exact Hrun |].
  assert (E : Ok (Some st)
              = @CovidDatasetLoader.get_image_stats Fixture.platform
                  (fun _ => 0%Q) "data/sample_images/xray.png")
    by (symmetry; exact Hrun).
  vm_compute in E. injection E as ->. repeat split.
Defined.

(** ** The shape of a preprocessed grid *)

Section PreprocessedShape.
Context `{Platform}.
Import CovidImageAnalyzer.

(** X16: OpenCV accepting grids that are not empty, the general preprocessor
    returns a grid of the shape of its input, and the dataset preprocessor,
    on a grid that is at most 1024 columns wide or has fewer columns than
    1024 times its rows (and at most [2^51 / 1024] rows), returns a grid that
    is not empty and at most 1024 columns wide, so that its own downscale
    step leaves that grid as it is: preprocessing a preprocessed grid never
    resizes it again. *)
Theorem preprocessed_shape (image : gray) :
  OpenCV.accepts_nonempty ->
  is_empty image = false ->
  (width image <= 1024)%nat
  \/ Z.of_nat (width image) < 1024 * Z.of_nat (height image) <= 2 ^ 51 ->
  (exists out,
     LungImageProcessor.preprocess_image image = Ok out
     /\ shape out = shape image)
  /\ (exists out,
        enhanced_covid_preprocessing image = Ok out
        /\ (width out <= 1024)%nat
        /\ is_empty out = false
        /\ resize_if_too_large out = Ok out).
Proof.
  intros Hcv Hne Hsize. split; [exact (preprocess_image_total image Hcv Hne) |].
  destruct (enhanced_covid_preprocessing_total image Hcv Hne Hsize)
    as [out [Hrun [Hw He]]].
  exists out. split; [exact Hrun |]. split; [exact Hw |]. split; [exact He |].
  apply resize_if_too_large_narrow. exact Hw.
Qed.

End PreprocessedShape.

(** On the fixture the wide grid is preprocessed into one that is kept as it
    is by the downscale step. *)
Lemma preprocessed_shape_witness :
  @OpenCV.accepts_nonempty Fixture.platform
  /\ is_empty Fixture.wide = false
  /\ Z.of_nat (width Fixture.wide) < 1024 * Z.of_nat (height Fixture.wide)
     <= 2 ^ 51
  /\ exists out,
       @CovidImageAnalyzer.enhanced_covid_preprocessing Fixture.platform
         Fixture.wide = Ok out
       /\ @CovidImageAnalyzer.resize_if_too_large Fixture.platform out = Ok out.
Proof.
  split; [exact fixture_accepts_nonempty |]. split; [reflexivity |].
  assert (Hsize : Z.of_nat (width Fixture.wide)
                  < 1024 * Z.of_nat (height Fixture.wide) <= 2 ^ 51)
    by (split; [reflexivity | discriminate]).
  split; [exact Hsize |].
  destruct (@preprocessed_shape Fixture.platform Fixture.wide
              fixture_accepts_nonempty eq_refl (or_intror Hsize))
    as [_ [out [Hrun [_ [_ Hstep]]]]].
  exists out. split; [exact Hrun | exact Hstep].
Defined.
